(** * Scheduling and lifecycle core of the health check-in assistant

    A shallow embedding of [health_check_core.py]: the singleton
    [HealthCheckAutomation] with its configuration loading, its daily
    schedule computation, its one-shot timer, its combined monitor loop
    and its start and stop operations, followed by the properties proved
    about them.

    Conventions of the model.
    - Python values read from the JSON configuration are [pyval]s; a
      Python [dict] is a [gmap string pyval].
    - Attributes of the object that the code creates and deletes at run
      time ([config], [schedule_config], ...) are [option]s: [None] is
      "[hasattr] is false".
    - POSIX timestamps, delays and sleep lengths are exact rationals [Q]
      (seconds); floating-point rounding is outside the model.
    - A naive [datetime] keeps its calendar date as the proleptic
      Gregorian ordinal ([date.toordinal()]), which is what [timedelta]
      arithmetic works on and which orders dates as (year, month, day)
      does.  The ordinal is unbounded: the MAXYEAR limit of the library is
      outside the model.  The local zone has a fixed offset (no daylight
      saving transition), taken as 0; what is stated about the next run
      is stated on the naive datetimes the code computes with, and of
      their timestamps only that the next run is after now.
    - Every method is a computation in the monad [M]: it reads and
      updates a [world] (the object, the configuration file, the clock,
      the armed timers, the started threads, the trace of observable
      events) and either returns or raises; the state reached when an
      exception is raised is kept, as in Python. *)

From Stdlib Require Import ZArith QArith Qminmax Lqa Lia List Bool.
From stdpp Require Import gmap strings.

Set Warnings "-register-all".

(* ================================================================== *)
(** * Python values *)
(* ================================================================== *)

Inductive pyval :=
  | VNone
  | VBool (b : bool)
  | VInt (n : Z)
  | VFloat (q : Q)
  | VStr (s : string)
  | VList (l : list pyval)
  | VDict (d : gmap string pyval).

Inductive exn :=
  | FileNotFoundError
  | JSONDecodeError
  | AttributeError
  | KeyError
  | TypeError
  | ValueError
  | OverflowError
  | ActuatorError.

Inductive result (A : Type) :=
  | Ok (a : A)
  | Raise (e : exn).
Arguments Ok {A} a.
Arguments Raise {A} e.

(** [q1 < q2] and [q1 <= q2] on rationals, as booleans. *)
Definition Qltb (a b : Q) : bool :=
  match (a ?= b)%Q with Lt => true | _ => false end.

Definition Qleb (a b : Q) : bool :=
  match (a ?= b)%Q with Gt => false | _ => true end.

(** [bool(v)]: Python truthiness. *)
Definition truthy (v : pyval) : bool :=
  match v with
  | VNone => false
  | VBool b => b
  | VInt n => negb (n =? 0)%Z
  | VFloat q => negb (Qeq_bool q 0)
  | VStr s => negb (String.eqb s "")
  | VList l => match l with [] => false | _ :: _ => true end
  | VDict d => negb (Nat.eqb (size d) 0)
  end.

(** [v[key]] for a string key. *)
Definition py_getitem (v : pyval) (key : string) : result pyval :=
  match v with
  | VDict d => match d !! key with
               | Some x => Ok x
               | None => Raise KeyError
               end
  | _ => Raise TypeError
  end.

(** [v.get(key, default)]: only a dict has the method. *)
Definition py_get (v : pyval) (key : string) (default : pyval) : result pyval :=
  match v with
  | VDict d => Ok (match d !! key with Some x => x | None => default end)
  | _ => Raise AttributeError
  end.

(** The integers that fit a C [int]. *)
Definition c_int (n : Z) : bool :=
  ((-2147483648 <=? n) && (n <=? 2147483647))%Z.

(** The integer a time field of [replace] is given as: the library
    takes each field as a C [int], so what is not an integer is a
    TypeError and an integer that does not fit is an OverflowError,
    before any range is looked at. *)
Definition py_index (v : pyval) : result Z :=
  match v with
  | VInt n => if c_int n then Ok n else Raise OverflowError
  | VBool b => Ok (Z.b2z b)
  | _ => Raise TypeError
  end.

(** [f"{v:02d}"]: only the exceptions matter. *)
Definition format_02d (v : pyval) : result unit :=
  match v with
  | VInt _ | VBool _ => Ok tt
  | VFloat _ | VStr _ => Raise ValueError
  | VNone | VList _ | VDict _ => Raise TypeError
  end.

(** [max(0, d)] and [min(a, b, c)] keep the first extremal argument. *)
Definition py_max (a b : Q) : Q := if Qltb a b then b else a.

Definition py_min (a b : Q) : Q := if Qltb b a then b else a.

Definition py_min3 (a b c : Q) : Q := py_min (py_min a b) c.

(* ================================================================== *)
(** * Naive datetimes *)
(* ================================================================== *)

Record datetime := mkdt {
  dt_ordinal : Z;
  dt_hour : Z;
  dt_minute : Z;
  dt_second : Z;
  dt_microsecond : Z
}.

Definition valid_datetime (d : datetime) : Prop :=
  (0 <= dt_hour d <= 23 /\ 0 <= dt_minute d <= 59 /\
   0 <= dt_second d <= 59 /\ 0 <= dt_microsecond d <= 999999)%Z.

(** Calendar dates, to write instants down: the ordinal of year, month
    and day as the library computes it. *)
Definition is_leap (y : Z) : bool :=
  ((y mod 4 =? 0) && (negb (y mod 100 =? 0) || (y mod 400 =? 0)))%Z.

Definition days_before_year (y : Z) : Z :=
  (let y1 := y - 1 in y1 * 365 + y1 / 4 - y1 / 100 + y1 / 400)%Z.

Definition days_before_month (y m : Z) : Z :=
  (nth (Z.to_nat m) [0; 0; 31; 59; 90; 120; 151; 181; 212; 243; 273; 304; 334] 0
   + (if (2 <? m) && is_leap y then 1 else 0))%Z.

Definition ymd2ord (y m d : Z) : Z :=
  (days_before_year y + days_before_month y m + d)%Z.

Definition datetime_of (y mo d h mi s us : Z) : datetime :=
  mkdt (ymd2ord y mo d) h mi s us.

(** [dt.replace(hour=h, minute=m, second=s, microsecond=us)], for
    fields that fit a C [int] (see [py_index]). *)
Definition dt_replace_time (d : datetime) (h m s us : Z) : result datetime :=
  if ((0 <=? h) && (h <=? 23) && (0 <=? m) && (m <=? 59) &&
      (0 <=? s) && (s <=? 59) && (0 <=? us) && (us <=? 999999))%Z
  then Ok (mkdt (dt_ordinal d) h m s us)
  else Raise ValueError.

(** Comparison of two naive datetimes: lexicographic on the fields. *)
Fixpoint lex_compare (a b : list Z) : comparison :=
  match a, b with
  | x :: a', y :: b' =>
      match (x ?= y)%Z with
      | Eq => lex_compare a' b'
      | c => c
      end
  | [], [] => Eq
  | [], _ :: _ => Lt
  | _ :: _, [] => Gt
  end.

Definition dt_fields (d : datetime) : list Z :=
  [dt_ordinal d; dt_hour d; dt_minute d; dt_second d; dt_microsecond d].

Definition dt_compare (a b : datetime) : comparison :=
  lex_compare (dt_fields a) (dt_fields b).

(** [a >= b]. *)
Definition dt_ge (a b : datetime) : bool :=
  match dt_compare a b with Lt => false | _ => true end.

(** [d + timedelta(days=n)]. *)
Definition dt_add_days (d : datetime) (n : Z) : datetime :=
  mkdt (dt_ordinal d + n) (dt_hour d) (dt_minute d) (dt_second d)
       (dt_microsecond d).

(** Microseconds since 1970-01-01T00:00:00 (ordinal 719163). *)
Definition dt_micros (d : datetime) : Z :=
  ((((dt_ordinal d - 719163) * 86400 + dt_hour d * 3600 + dt_minute d * 60
     + dt_second d) * 1000000) + dt_microsecond d)%Z.

(** [d.timestamp()], in seconds. *)
Definition timestamp (d : datetime) : Q := Qmake (dt_micros d) 1000000.

(* ================================================================== *)
(** * The object, its environment and the events it produces *)
(* ================================================================== *)

(** The configuration file: its modification time and what [json.load]
    makes of it ([None]: the content is malformed). *)
Record file := mkfile {
  mtime : Q;
  content : option pyval
}.

Inductive level := DEBUG | INFO | WARNING | ERROR.

Inductive event :=
  | EvLog (l : level) (m : string)
  | EvSleep (d : Q)
  | EvOpenConfig
  | EvActuate
  | EvStep (attempt : Z)
  | EvTimerStart (id : nat) (delay : Q)
  | EvTimerCancel (id : nat)
  | EvThreadStart (id : nat)
  | EvThreadJoin (id : nat) (timeout : Q).

(** The attributes of [HealthCheckAutomation]. *)
Record automation := mkauto {
  scheduler_running : bool;
  combined_thread : option nat;
  config_last_modified : Q;
  config_check_interval : Q;
  running : bool;
  timer : option nat;
  next_run_time : option Q;
  config : option pyval;
  user_info : option pyval;
  schedule_config : option pyval;
  browser_config : option pyval
}.

(** What the clock and the file look like after a sleep. *)
Record tick := mktick {
  tick_clock : datetime;
  tick_fs : option file
}.

Record world := mkworld {
  self : automation;
  fs : option file;            (* the configuration file, if it exists *)
  clock : datetime;            (* datetime.now(); time.time() is its timestamp *)
  future : list tick;          (* what successive sleeps wake up to *)
  armed : list (nat * Q);      (* started timers, not cancelled, not fired: id and deadline *)
  alive : list nat;            (* started loop threads, not joined *)
  fresh : nat;                 (* next object identity *)
  trace : list event           (* observable events, oldest first *)
}.

(** [__init__]. *)
Definition init_automation : automation :=
  {| scheduler_running := false;
     combined_thread := None;
     config_last_modified := 0;
     config_check_interval := 30;
     running := false;
     timer := None;
     next_run_time := None;
     config := None;
     user_info := None;
     schedule_config := None;
     browser_config := None |}.

Definition init_world (f : option file) (now : datetime) (ticks : list tick) : world :=
  {| self := init_automation; fs := f; clock := now; future := ticks;
     armed := []; alive := []; fresh := 0%nat; trace := [] |}.

(** Attribute assignment. *)
Definition set_scheduler_running (b : bool) (a : automation) : automation :=
  mkauto b (combined_thread a) (config_last_modified a) (config_check_interval a)
         (running a) (timer a) (next_run_time a) (config a) (user_info a)
         (schedule_config a) (browser_config a).

Definition set_combined_thread (t : option nat) (a : automation) : automation :=
  mkauto (scheduler_running a) t (config_last_modified a) (config_check_interval a)
         (running a) (timer a) (next_run_time a) (config a) (user_info a)
         (schedule_config a) (browser_config a).

Definition set_config_last_modified (q : Q) (a : automation) : automation :=
  mkauto (scheduler_running a) (combined_thread a) q (config_check_interval a)
         (running a) (timer a) (next_run_time a) (config a) (user_info a)
         (schedule_config a) (browser_config a).

Definition set_running (b : bool) (a : automation) : automation :=
  mkauto (scheduler_running a) (combined_thread a) (config_last_modified a)
         (config_check_interval a) b (timer a) (next_run_time a) (config a)
         (user_info a) (schedule_config a) (browser_config a).

Definition set_timer (t : option nat) (a : automation) : automation :=
  mkauto (scheduler_running a) (combined_thread a) (config_last_modified a)
         (config_check_interval a) (running a) t (next_run_time a) (config a)
         (user_info a) (schedule_config a) (browser_config a).

Definition set_next_run_time (t : option Q) (a : automation) : automation :=
  mkauto (scheduler_running a) (combined_thread a) (config_last_modified a)
         (config_check_interval a) (running a) (timer a) t (config a)
         (user_info a) (schedule_config a) (browser_config a).

Definition set_config (v : option pyval) (a : automation) : automation :=
  mkauto (scheduler_running a) (combined_thread a) (config_last_modified a)
         (config_check_interval a) (running a) (timer a) (next_run_time a) v
         (user_info a) (schedule_config a) (browser_config a).

Definition set_user_info (v : option pyval) (a : automation) : automation :=
  mkauto (scheduler_running a) (combined_thread a) (config_last_modified a)
         (config_check_interval a) (running a) (timer a) (next_run_time a)
         (config a) v (schedule_config a) (browser_config a).

Definition set_schedule_config (v : option pyval) (a : automation) : automation :=
  mkauto (scheduler_running a) (combined_thread a) (config_last_modified a)
         (config_check_interval a) (running a) (timer a) (next_run_time a)
         (config a) (user_info a) v (browser_config a).

Definition set_browser_config (v : option pyval) (a : automation) : automation :=
  mkauto (scheduler_running a) (combined_thread a) (config_last_modified a)
         (config_check_interval a) (running a) (timer a) (next_run_time a)
         (config a) (user_info a) (schedule_config a) v.

Definition with_self (a : automation) (w : world) : world :=
  mkworld a (fs w) (clock w) (future w) (armed w) (alive w) (fresh w) (trace w).

Definition with_fs (f : option file) (w : world) : world :=
  mkworld (self w) f (clock w) (future w) (armed w) (alive w) (fresh w) (trace w).

Definition with_env (t : tick) (rest : list tick) (w : world) : world :=
  mkworld (self w) (tick_fs t) (tick_clock t) rest (armed w) (alive w)
          (fresh w) (trace w).

Definition with_armed (l : list (nat * Q)) (w : world) : world :=
  mkworld (self w) (fs w) (clock w) (future w) l (alive w) (fresh w) (trace w).

Definition with_alive (l : list nat) (w : world) : world :=
  mkworld (self w) (fs w) (clock w) (future w) (armed w) l (fresh w) (trace w).

Definition with_fresh (n : nat) (w : world) : world :=
  mkworld (self w) (fs w) (clock w) (future w) (armed w) (alive w) n (trace w).

Definition with_trace (l : list event) (w : world) : world :=
  mkworld (self w) (fs w) (clock w) (future w) (armed w) (alive w) (fresh w) l.

(* ================================================================== *)
(** * The monad of methods *)
(* ================================================================== *)

Definition M (A : Type) : Type := world -> result A * world.

#[global] Instance M_ret : MRet M := fun A a w => (Ok a, w).

#[global] Instance M_bind : MBind M := fun A B k m w =>
  match m w with
  | (Ok a, w') => k a w'
  | (Raise e, w') => (Raise e, w')
  end.

Definition raise {A : Type} (e : exn) : M A := fun w => (Raise e, w).

Definition lift {A : Type} (r : result A) : M A := fun w => (r, w).

(** [try: m  except Exception as e: h e]. *)
Definition try_except {A : Type} (m : M A) (h : exn -> M A) : M A := fun w =>
  match m w with
  | (Ok a, w') => (Ok a, w')
  | (Raise e, w') => h e w'
  end.

(** [try: m  finally: f]: what [f] raises replaces the outcome of [m]. *)
Definition try_finally {A : Type} (m : M A) (f : M unit) : M A := fun w =>
  let '(r, w1) := m w in
  match f w1 with
  | (Ok _, w2) => (r, w2)
  | (Raise e, w2) => (Raise e, w2)
  end.

Definition get_world : M world := fun w => (Ok w, w).

Definition get_self : M automation := fun w => (Ok (self w), w).

Definition modify_self (f : automation -> automation) : M unit := fun w =>
  (Ok tt, with_self (f (self w)) w).

Definition emit (e : event) : M unit := fun w =>
  (Ok tt, with_trace (trace w ++ [e]) w).

Definition log (l : level) (m : string) : M unit := emit (EvLog l m).

(** [hasattr(self, name)]. *)
Definition hasattr (o : option pyval) : bool :=
  match o with Some _ => true | None => false end.

(** [self.name], for an attribute that may have been deleted. *)
Definition getattr (proj : automation -> option pyval) : M pyval := fun w =>
  match proj (self w) with
  | Some v => (Ok v, w)
  | None => (Raise AttributeError, w)
  end.

(** [time.time()]. *)
Definition time_time : M Q := fun w => (Ok (timestamp (clock w)), w).

(** [datetime.now()]. *)
Definition datetime_now : M datetime := fun w => (Ok (clock w), w).

(** [time.sleep(d)]: a negative length is refused; otherwise the thread
    wakes up to the next clock reading and file state of the
    environment. *)
Definition sleep (d : Q) : M unit :=
  emit (EvSleep d);;
  if Qltb d 0 then raise ValueError
  else fun w =>
    match future w with
    | t :: rest => (Ok tt, with_env t rest w)
    | [] => (Ok tt, w)
    end.

(** [threading.Timer(delay, self._timer_callback)], [daemon], [start()]:
    the identity of the new timer. *)
Definition timer_start (delay : Q) : M nat := fun w =>
  let id := fresh w in
  (Ok id,
   with_trace (trace w ++ [EvTimerStart id delay])
     (with_fresh (S id)
        (with_armed (armed w ++ [(id, (timestamp (clock w) + delay)%Q)]) w))).

(** [t.cancel()]: a timer that is not armed any more is left alone. *)
Definition timer_cancel (id : nat) : M unit := fun w =>
  (Ok tt,
   with_trace (trace w ++ [EvTimerCancel id])
     (with_armed (List.filter (fun p => negb (Nat.eqb (fst p) id)) (armed w)) w)).

(** [threading.Thread(target=self.combined_loop)], [daemon], [start()]. *)
Definition thread_start : M nat := fun w =>
  let id := fresh w in
  (Ok id,
   with_trace (trace w ++ [EvThreadStart id])
     (with_fresh (S id) (with_alive (alive w ++ [id]) w))).

(** [t.is_alive()]. *)
Definition is_alive (id : nat) : M bool := fun w =>
  (Ok (existsb (Nat.eqb id) (alive w)), w).

(** [t.join(timeout)]: [ended] tells whether the thread finished within
    the timeout. *)
Definition thread_join (id : nat) (timeout : Q) (ended : bool) : M unit := fun w =>
  (Ok tt,
   with_trace (trace w ++ [EvThreadJoin id timeout])
     (if ended
      then with_alive (List.filter (fun t => negb (Nat.eqb t id)) (alive w)) w
      else w)).

(* ================================================================== *)
(** * Configuration *)
(* ================================================================== *)

(** [load_or_create_config]: a missing file is an error; nothing is
    created. *)
Definition load_or_create_config : M unit :=
  w ← get_world;
  match fs w with
  | None =>
      log ERROR "configuration file does not exist";;
      raise FileNotFoundError
  | Some f =>
      emit EvOpenConfig;;
      match content f with
      | None => raise JSONDecodeError
      | Some v =>
          modify_self (set_config (Some v));;
          modify_self (set_config_last_modified (mtime f))
      end
  end.

(** [setup_automation]. *)
Definition setup_automation : M unit :=
  a ← get_self;
  (if hasattr (config a) then mret tt else load_or_create_config);;
  c ← getattr config;
  ui ← lift (py_get c "user_info" (VDict ∅));
  modify_self (set_user_info (Some ui));;
  sc ← lift (py_get c "schedule" (VDict ∅));
  modify_self (set_schedule_config (Some sc));;
  bc ← lift (py_get c "browser" (VDict ∅));
  modify_self (set_browser_config (Some bc)).

(** The assignment [core.schedule_config = ...] that the front end makes
    before it starts the scheduler. *)
Definition assign_schedule_config (v : pyval) : M unit :=
  modify_self (set_schedule_config (Some v)).

(* ================================================================== *)
(** * The actuator *)
(* ================================================================== *)

(** [_unload_non_essential_modules], as far as the object goes. *)
Definition _unload_non_essential_modules : M unit :=
  modify_self (set_user_info None);;
  modify_self (set_browser_config None).

(** What one browser-driven submission comes to: it returns a boolean, or
    an exception escapes it. *)
Inductive outcome := Returns (b : bool) | Escapes.

(** [fill_health_form]: the submission itself belongs to the
    environment; the [finally] clause is the object's. *)
Definition fill_health_form (o : outcome) : M bool :=
  try_finally
    (log INFO "starting the health check-in";;
     emit EvActuate;;
     match o with
     | Returns b => mret b
     | Escapes => raise ActuatorError
     end)
    _unload_non_essential_modules.

Definition run_once (o : outcome) : M bool := fill_health_form o.

(** [wait_and_click_with_retry]: [step attempt] tells whether waiting for
    the element and clicking it works at that attempt.  Its only effect
    is on the log, returned with the result; each try of the step is
    recorded as [EvStep]. *)
Inductive step_outcome := Clicked | Failed.

Definition default_max_retries : Z := 2.

Definition range (n : Z) : list Z := map Z.of_nat (seq 0 (Z.to_nat n)).

Fixpoint retry_loop (step : Z -> step_outcome) (description : string)
    (max_retries : Z) (attempts : list Z) : bool * list event :=
  match attempts with
  | [] => (false, [])
  | attempt :: rest =>
      match step attempt with
      | Clicked => (true, [EvStep attempt; EvLog DEBUG description])
      | Failed =>
          if (attempt <? max_retries - 1)%Z
          then
            let '(b, evs) := retry_loop step description max_retries rest in
            (b, EvStep attempt :: EvLog DEBUG (description +:+ " failed, retrying") :: evs)
          else (false, [EvStep attempt; EvLog ERROR (description +:+ " failed")])
      end
  end.

Definition wait_and_click_with_retry (step : Z -> step_outcome)
    (description : string) (max_retries : Z) : bool * list event :=
  retry_loop step description max_retries (range max_retries).

(* ================================================================== *)
(** * The schedule *)
(* ================================================================== *)

(** [if self.next_run_time:] *)
Definition time_set (t : option Q) : bool :=
  match t with
  | Some q => negb (Qeq_bool q 0)
  | None => false
  end.

(** [_calculate_next_run_time]. *)
Definition _calculate_next_run_time : M (option Q) :=
  sc ← getattr schedule_config;
  if negb (truthy sc) then mret None else
  en ← lift (py_get sc "enabled" (VBool false));
  if negb (truthy en) then mret None else
  hour ← lift (py_getitem sc "hour");
  minute ← lift (py_getitem sc "minute");
  now ← datetime_now;
  h ← lift (py_index hour);
  m ← lift (py_index minute);
  next_run ← lift (dt_replace_time now h m 0 0);
  let next_run := if dt_ge now next_run then dt_add_days next_run 1 else next_run in
  mret (Some (timestamp next_run)).

(** [_get_next_run_delay]; inside the test the next run time is there,
    and [default] only unwraps it. *)
Definition _get_next_run_delay : M Q :=
  a ← get_self;
  if time_set (next_run_time a) then
    now ← time_time;
    let delay := (default 0 (next_run_time a) - now)%Q in
    mret (py_max 0 delay)
  else mret (-1)%Q.

(** [_schedule_next_run]. *)
Definition _schedule_next_run : M unit :=
  a ← get_self;
  match timer a with
  | Some id => timer_cancel id;; modify_self (set_timer None)
  | None => mret tt
  end;;
  t ← _calculate_next_run_time;
  modify_self (set_next_run_time t);;
  if negb (time_set t) then mret tt else
  delay ← _get_next_run_delay;
  log INFO "scheduled task set";;
  log INFO "time left until the next run";;
  id ← timer_start delay;
  modify_self (set_timer (Some id)).

(** [_timer_callback]: what an armed timer runs when it fires. *)
Definition _timer_callback (o : outcome) : M unit :=
  try_finally
    (try_except
       (fill_health_form o;; mret tt)
       (fun _ => log ERROR "error while running the scheduled task"))
    (a ← get_self;
     if running a then _schedule_next_run else mret tt).

(** The environment fires an armed timer: it stops being armed and its
    callback runs. *)
Definition timer_fires (id : nat) (o : outcome) : M unit := fun w =>
  if existsb (fun p => Nat.eqb (fst p) id) (armed w)
  then _timer_callback o
         (with_armed (List.filter (fun p => negb (Nat.eqb (fst p) id)) (armed w)) w)
  else (Ok tt, w).

(* ================================================================== *)
(** * Watching the configuration file *)
(* ================================================================== *)

(** The statements of the inner [try] of [check_config_changes] that
    follow the recording of the new modification time. *)
Definition reload_body : M unit :=
  load_or_create_config;;
  a ← get_self;
  (if hasattr (schedule_config a) || hasattr (user_info a)
   then setup_automation else mret tt);;
  a ← get_self;
  go ← (if running a then
          match schedule_config a with
          | Some sc => en ← lift (py_getitem sc "enabled"); mret (truthy en)
          | None => mret false
          end
        else mret false);
  (if go : bool then
     _schedule_next_run;;
     sc ← getattr schedule_config;
     hour ← lift (py_getitem sc "hour");
     minute ← lift (py_getitem sc "minute");
     lift (format_02d hour);;
     lift (format_02d minute);;
     log INFO "scheduled task updated"
   else mret tt);;
  log INFO "configuration reloaded and applied".

(** [check_config_changes]. *)
Definition check_config_changes : M unit :=
  try_except
    (w ← get_world;
     match fs w with
     | None => log WARNING "configuration file does not exist"
     | Some f =>
         let current_modified := mtime f in
         if Qltb (config_last_modified (self w)) current_modified then
           log INFO "configuration file changed, reloading";;
           try_except
             (modify_self (set_config_last_modified current_modified);;
              reload_body)
             (fun _ => log ERROR "error while reloading the configuration")
         else mret tt
     end)
    (fun _ => log ERROR "error in the configuration monitor").

(* ================================================================== *)
(** * The combined loop, start and stop *)
(* ================================================================== *)

(** The three-way test on [next_run_delay] in [combined_loop]: a task
    within five seconds, a task further away, or (the [else]) what the
    code comments as "no task". *)
Inductive branch := TaskSoon | TaskLater | NoTask.

Definition sleep_branch (next_run_delay : Q) : branch :=
  if Qltb 0 next_run_delay && Qleb next_run_delay 5 then TaskSoon
  else if Qltb 0 next_run_delay then TaskLater
  else NoTask.

(** The length of the sleep of one iteration of [combined_loop]. *)
Definition safe_sleep_time (next_run_delay interval : Q) : Q :=
  match sleep_branch next_run_delay with
  | TaskSoon => (1 # 2)%Q
  | TaskLater => py_min3 (next_run_delay / 2) (interval / 2) 30
  | NoTask => py_min interval 30
  end.

(** The body of the [while] of [combined_loop]; the value is the new
    [last_config_check]. *)
Definition loop_iteration (last_config_check : Q) : M Q :=
  try_except
    (next_run_delay ← _get_next_run_delay;
     a ← get_self;
     sleep (safe_sleep_time next_run_delay (config_check_interval a));;
     current_time ← time_time;
     a ← get_self;
     if Qleb (config_check_interval a) (current_time - last_config_check)
     then check_config_changes;; mret current_time
     else mret last_config_check)
    (fun _ =>
       log ERROR "error in the scheduling loop";;
       sleep 5;;
       mret last_config_check).

Fixpoint loop_while (fuel : nat) (last_config_check : Q) : M unit :=
  match fuel with
  | O => mret tt
  | S n =>
      a ← get_self;
      if running a
      then last ← loop_iteration last_config_check; loop_while n last
      else mret tt
  end.

(** [combined_loop], for at most [fuel] iterations. *)
Definition combined_loop (fuel : nat) : M unit :=
  log INFO "scheduling and monitoring thread started";;
  _schedule_next_run;;
  last_config_check ← time_time;
  loop_while fuel last_config_check.

(** [start_combined_thread]. *)
Definition start_combined_thread : M unit :=
  sc ← getattr schedule_config;
  en ← lift (py_getitem sc "enabled");
  if negb (truthy en) then log INFO "scheduled task not enabled" else
  hour ← lift (py_getitem sc "hour");
  minute ← lift (py_getitem sc "minute");
  lift (format_02d hour);;
  lift (format_02d minute);;
  log INFO "scheduled task started";;
  modify_self (set_running true);;
  id ← thread_start;
  modify_self (set_combined_thread (Some id)).

(** [stop_combined_thread]; [ended] tells whether the loop thread
    finishes within the timeout of the join. *)
Definition stop_combined_thread (ended : bool) : M unit :=
  log INFO "about to stop the scheduling and monitoring thread";;
  a ← get_self;
  if running a then
    modify_self (set_running false);;
    match timer a with
    | Some id =>
        timer_cancel id;;
        modify_self (set_timer None);;
        modify_self (set_next_run_time None)
    | None => mret tt
    end;;
    match combined_thread a with
    | Some id =>
        up ← is_alive id;
        if up : bool then
          thread_join id 5 ended;;
          log INFO "scheduling and monitoring thread stopped"
        else mret tt
    | None => mret tt
    end;;
    modify_self (set_scheduler_running false);;
    _unload_non_essential_modules;;
    modify_self (set_config None);;
    modify_self (set_schedule_config None);;
    log INFO "scheduled task and configuration monitor stopped"
  else mret tt.

(* ================================================================== *)
(** * Notions used in the statements *)
(* ================================================================== *)

(** Today at [h]:[m]:00.000000, seen from [now]. *)
Definition candidate (now : datetime) (h m : Z) : datetime :=
  mkdt (dt_ordinal now) h m 0 0.

(** A schedule dictionary that is switched on for [h]:[m]. *)
Definition enabled_at (sc : gmap string pyval) (h m : Z) : Prop :=
  (exists en, sc !! "enabled" = Some en /\ truthy en = true) /\
  sc !! "hour" = Some (VInt h) /\ sc !! "minute" = Some (VInt m) /\
  (0 <= h <= 23)%Z /\ (0 <= m <= 59)%Z.

(** What [_calculate_next_run_time] returns when the schedule is on. *)
Definition next_run (now : datetime) (h m : Z) : datetime :=
  if dt_ge now (candidate now h m)
  then dt_add_days (candidate now h m) 1
  else candidate now h m.

(** The delay that [_get_next_run_delay] computes in a world. *)
Definition next_run_delay (w : world) : Q :=
  match _get_next_run_delay w with
  | (Ok d, _) => d
  | (Raise _, _) => (-1)%Q
  end.

(** A next run time is set, as the code tests it. *)
Definition scheduled (w : world) : Prop :=
  time_set (next_run_time (self w)) = true.

Definition is_actuate (e : event) : bool :=
  match e with EvActuate => true | _ => false end.

Definition is_step (e : event) : bool :=
  match e with EvStep _ => true | _ => false end.

Definition is_error (e : event) : bool :=
  match e with EvLog ERROR _ => true | _ => false end.

Definition is_open (e : event) : bool :=
  match e with EvOpenConfig => true | _ => false end.

Definition is_thread_start (e : event) : bool :=
  match e with EvThreadStart _ => true | _ => false end.

(** How many events of a kind a trace holds. *)
Definition count (p : event -> bool) (tr : list event) : nat :=
  length (List.filter p tr).

(** The outcome and the final world of a run. *)
Definition outcome_of {A : Type} (r : result A * world) : result A := fst r.

Definition world_of {A : Type} (r : result A * world) : world := snd r.

(** Every armed timer is the one the object holds in [self.timer]. *)
Definition timers_owned (w : world) : Prop :=
  forall id deadline, In (id, deadline) (armed w) -> timer (self w) = Some id.

(** Polling the configuration file [n] times in a row. *)
Fixpoint poll (n : nat) (w : world) : world :=
  match n with
  | O => w
  | S k => poll k (world_of (check_config_changes w))
  end.

(** A schedule dictionary and a configuration that holds it. *)
Definition schedule_of (enabled : bool) (h m : Z) : gmap string pyval :=
  <["enabled" := VBool enabled]> (<["hour" := VInt h]> (<["minute" := VInt m]> ∅)).

Definition config_of (enabled : bool) (h m : Z) : pyval :=
  VDict (<["schedule" := VDict (schedule_of enabled h m)]> ∅).

(** A fresh object whose [schedule_config] has been assigned, at a given
    time, with no configuration file around. *)
Definition world_with_schedule (sc : pyval) (now : datetime) : world :=
  with_self (set_schedule_config (Some sc) init_automation)
            (init_world None now []).

(** 2024-01-01T11:00:00 and 2024-01-01T09:00:00 with the schedule
    enabled for 10:30. *)
Definition scenario_A : world :=
  world_with_schedule (VDict (schedule_of true 10 30))
                      (datetime_of 2024 1 1 11 0 0 0).

Definition scenario_B : world :=
  world_with_schedule (VDict (schedule_of true 10 30))
                      (datetime_of 2024 1 1 9 0 0 0).

(** [w'] is [w] after some more events, none of which is an invocation
    of the actuator. *)
Definition no_actuation (w w' : world) : Prop :=
  exists evs, trace w' = trace w ++ evs /\ count is_actuate evs = 0%nat.

(** A computation keeps a relation between the world it starts in and
    the world it ends in, whether it returns or raises. *)
Definition preserves {A : Type} (R : world -> world -> Prop) (m : M A) : Prop :=
  forall w, R w (world_of (m w)).

(** The scheduler started at 09:00 with the run set for 10:30, its loop
    entered; then the same world at 10:30:02, while the fired timer is
    still busy with the submission. *)
Definition armed_world : world :=
  world_of (combined_loop 0 (world_of (start_combined_thread scenario_B))).

Definition due_world : world :=
  with_env (mktick (datetime_of 2024 1 1 10 30 2 0) None) [] armed_world.

(** The running scheduler of [armed_world] after the configuration
    file has been written anew, with content that does not parse. *)
Definition broken_file_world : world :=
  with_fs (Some (mkfile 1704100000 None)) armed_world.

(** What [check_config_changes] has done when it calls the statements of
    [reload_body]: logged the change and recorded the new time. *)
Definition reload_entry (f : file) (w : world) : world :=
  with_self (set_config_last_modified (mtime f) (self w))
    (with_trace (trace w ++ [EvLog INFO "configuration file changed, reloading"]) w).

(** The file is [f] and its modification time is the recorded one: kept
    from [w] to [w']. *)
Definition watch_kept (f : file) (w w' : world) : Prop :=
  fs w = Some f /\ config_last_modified (self w) = mtime f ->
  fs w' = Some f /\ config_last_modified (self w') = mtime f.

(** The object after it has loaded, at 09:00, a configuration file
    last modified at time 100 that enables the run for 10:30. *)
Definition loaded_world : world :=
  world_of (setup_automation
              (init_world (Some (mkfile 100 (Some (config_of true 10 30))))
                          (datetime_of 2024 1 1 9 0 0 0) [])).

(** The armed timers that are left when the timer held by the object,
    if any, is cancelled. *)
Definition disarm (held : option nat) (l : list (nat * Q)) : list (nat * Q) :=
  match held with
  | Some id => List.filter (fun p => negb (Nat.eqb (fst p) id)) l
  | None => l
  end.

(** The world in which the [finally] clause of [_timer_callback] runs:
    the submission has been made and what it raised has been logged. *)
Definition after_submission (o : outcome) (w : world) : world :=
  world_of
    (try_except
       (fill_health_form o;; mret tt)
       (fun _ => log ERROR "error while running the scheduled task") w).

(** Owning the armed timers is kept from [w] to [w']. *)
Definition owned_kept (w w' : world) : Prop :=
  timers_owned w -> timers_owned w'.

(** Nothing changes from [w] to [w']. *)
Definition unchanged (w w' : world) : Prop := w' = w.

(** What can happen to the object: a call of one of its methods by the
    front end, by the loop thread or by a timer that fires, or a change
    of the clock and of the configuration file. *)
Inductive step : world -> world -> Prop :=
  | step_load w : step w (world_of (load_or_create_config w))
  | step_setup w : step w (world_of (setup_automation w))
  | step_assign v w : step w (world_of (assign_schedule_config v w))
  | step_run_once o w : step w (world_of (run_once o w))
  | step_start w : step w (world_of (start_combined_thread w))
  | step_stop ended w : step w (world_of (stop_combined_thread ended w))
  | step_loop fuel w : step w (world_of (combined_loop fuel w))
  | step_iteration last w : step w (world_of (loop_iteration last w))
  | step_check w : step w (world_of (check_config_changes w))
  | step_fire id o w : step w (world_of (timer_fires id o w))
  | step_env t rest w : step w (with_env t rest w).

Inductive reachable : world -> Prop :=
  | reachable_init f now ticks : reachable (init_world f now ticks)
  | reachable_step w w' : reachable w -> step w w' -> reachable w'.

(* ================================================================== *)
(** * Further notions: what the methods do at their edges *)
(* ================================================================== *)

Definition is_timer_start (e : event) : bool :=
  match e with EvTimerStart _ _ => true | _ => false end.

(** The same scheduler as [armed_world], but with an hour that no clock
    shows. *)
Definition bad_hour_world : world :=
  with_self
    (set_schedule_config
       (Some (VDict (<["hour" := VInt 25]> (schedule_of true 10 30))))
       (self armed_world))
    armed_world.

(** A fresh object at 09:00 with a schedule that is switched off. *)
Definition disabled_world : world :=
  world_with_schedule (VDict (schedule_of false 10 30))
                      (datetime_of 2024 1 1 9 0 0 0).

(** At most one timer is armed, and the object holds it. *)
Definition single_timer (w : world) : Prop :=
  timers_owned w /\ (length (armed w) <= 1)%nat.

Definition single_kept (w w' : world) : Prop :=
  single_timer w -> single_timer w'.

(** [config.get(key, {})] on a configuration dictionary. *)
Definition section_of (d : gmap string pyval) (key : string) : pyval :=
  match d !! key with Some x => x | None => VDict ∅ end.

(** The object after [setup_automation] has read the three sections off
    a configuration dictionary. *)
Definition with_sections (d : gmap string pyval) (a : automation) : automation :=
  set_browser_config (Some (section_of d "browser"))
    (set_schedule_config (Some (section_of d "schedule"))
       (set_user_info (Some (section_of d "user_info")) a)).

(** Everything but the timer, the next run time, the armed timers and
    the trace is the same in [w'] as in [w]. *)
Definition same_but_schedule (a a' : automation) : Prop :=
  scheduler_running a' = scheduler_running a /\
  combined_thread a' = combined_thread a /\
  config_last_modified a' = config_last_modified a /\
  config_check_interval a' = config_check_interval a /\
  running a' = running a /\
  config a' = config a /\
  user_info a' = user_info a /\
  schedule_config a' = schedule_config a /\
  browser_config a' = browser_config a.

Definition schedule_frame (w w' : world) : Prop :=
  same_but_schedule (self w) (self w') /\
  fs w' = fs w /\ clock w' = clock w /\ future w' = future w /\
  alive w' = alive w.

(** On an object that is not running, nothing of the schedule moves
    from [w] to [w']. *)
Definition idle_kept (w w' : world) : Prop :=
  running (self w) = false ->
  running (self w') = false /\ armed w' = armed w /\
  timer (self w') = timer (self w) /\
  next_run_time (self w') = next_run_time (self w).

(** The loaded object of [loaded_world], started, its loop entered, and
    then the file rewritten at time 200 with the run moved to 08:15. *)
Definition retimed_world : world :=
  with_fs (Some (mkfile 200 (Some (config_of true 8 15))))
    (world_of (combined_loop 0 (world_of (start_combined_thread loaded_world)))).

(** The file is [f] and the loaded configuration is [v]: kept from [w]
    to [w']. *)
Definition loaded_kept (f : file) (v : pyval) (w w' : world) : Prop :=
  fs w = Some f /\ config (self w) = Some v ->
  fs w' = Some f /\ config (self w') = Some v.

(** The loaded object of [loaded_world], never started, and the file
    rewritten at time 200 with the run moved to 08:15. *)
Definition idle_retimed_world : world :=
  with_fs (Some (mkfile 200 (Some (config_of true 8 15)))) loaded_world.


Definition is_sleep (e : event) : bool :=
  match e with EvSleep _ => true | _ => false end.

(** The world a thread wakes up in after the sleep of one iteration of
    the loop entered in [w]. *)
Definition after_sleep (w : world) : world :=
  world_of (sleep (safe_sleep_time (next_run_delay w)
                     (config_check_interval (self w))) w).

(** A fresh object given a schedule for 25:30 and started. *)
Definition bad_start_world : world :=
  world_of (start_combined_thread
              (world_with_schedule
                 (VDict (<["hour" := VInt 25]> (schedule_of true 10 30)))
                 (datetime_of 2024 1 1 9 0 0 0))).

(* ================================================================== *)
(** * The browser-driven steps *)
(* ================================================================== *)

(** What the page and the browser do belongs to the environment, and is
    given to each step as an argument: whether the browser comes up,
    whether an element is found, whether a click works at a given
    attempt.  What the object reads, logs, sleeps and returns is the
    code's. *)

(** [setup_driver]: the options are read off [browser_config] before
    the [try]; [launched] tells whether [webdriver.Edge] and the
    commands sent to the new browser work.  The value tells whether a
    driver is returned ([None] otherwise). *)
Definition setup_driver (launched : bool) : M bool :=
  bc ← getattr browser_config;
  lift (py_get bc "headless" (VBool true));;
  if launched then mret true
  else log ERROR "browser driver initialisation failed";; mret false.

(* ================================================================== *)
(** * Saving the configuration *)
(* ================================================================== *)

(** Writing the configuration file: the modification time of what is
    written is the time of the writing. *)
Definition write_file (c : option pyval) : M unit := fun w =>
  (Ok tt, with_fs (Some (mkfile (timestamp (clock w)) c)) w).

(** [save_config]: [open(config_file, 'w')] creates the file or empties
    it, and an empty file is not JSON; [self.config] is read after that,
    inside the [with]; every [pyval] is a value [json.dump] writes and
    [json.load] reads back. *)
Definition save_config : M unit :=
  write_file None;;
  c ← getattr config;
  write_file (Some c).

(** A loaded object whose [config] has been deleted, as
    [stop_combined_thread] leaves it, with the file still there. *)
Definition unloaded_world : world :=
  with_self (set_config None (self loaded_world)) loaded_world.

(** The loaded object a while later, the file untouched. *)
Definition later_loaded_world : world :=
  with_env (mktick (datetime_of 2024 1 1 9 30 0 0) (fs loaded_world)) []
    loaded_world.

(** What the page answers for one selector: whether an element that can
    be clicked is found and scrolled to, and whether the click on it
    works at a given attempt. *)
Record probe := mkprobe {
  located : bool;
  click : Z -> step_outcome
}.

(** The log entries of a step that keeps its own log. *)
Definition emit_all (evs : list event) : M unit := fun w =>
  (Ok tt, with_trace (trace w ++ evs) w).

(** The [for] of [find_and_click_element] over the selectors, each of
    type xpath or css as at every call: the value tells whether the
    loop was left by [return True]. *)
Fixpoint find_and_click_loop (description : string) (probes : list probe)
    : M bool :=
  match probes with
  | [] => mret false
  | p :: rest =>
      clicked ← try_except
        ((if located p then mret tt else raise ActuatorError);;
         sleep (1 # 2);;
         let '(b, evs) :=
           wait_and_click_with_retry (click p) description default_max_retries in
         emit_all evs;;
         mret b)
        (fun _ => mret false);
      if clicked : bool then mret true
      else find_and_click_loop description rest
  end.

(** [find_and_click_element]. *)
Definition find_and_click_element (description : string) (probes : list probe)
    : M bool :=
  try_except
    (found ← find_and_click_loop description probes;
     if found : bool then mret true
     else log WARNING ("element not found: " +:+ description);; mret false)
    (fun _ => log WARNING ("problem with: " +:+ description);; mret false).

(** [check_submission_result]: [page] tells whether the page source
    shows one of the success texts ([None]: reading it raises). *)
Definition check_submission_result (page : option bool) : M unit :=
  try_except
    (match page with
     | Some true => log INFO "health check-in submitted"
     | Some false => log INFO "form submission done"
     | None => raise ActuatorError
     end)
    (fun _ => log INFO "form submission done").

(** [handle_location_and_submit], with the answers of the page for the
    three selectors of the location button and the three of the submit
    button.  The two waits for a text to show up time out silently. *)
Definition handle_location_and_submit (l1 l2 l3 s1 s2 s3 : probe)
    (page : option bool) : M bool :=
  location_success ← find_and_click_element "click get location" [l1; l2; l3];
  (if location_success : bool
   then log DEBUG "waiting for the location"
   else log WARNING "location button not clicked, trying to submit");;
  submit_success ← find_and_click_element "click submit" [s1; s2; s3];
  if submit_success : bool then
    log DEBUG "waiting for the submission";;
    check_submission_result page;;
    mret true
  else
    log ERROR "submit button not found";;
    mret false.

(** A length in seconds that, counted in nanoseconds, fits the signed
    64-bit clock of [time.sleep]. *)
Definition fits_sleep (d : Q) : bool :=
  Qleb (-9223372036854775808) (d * 1000000000) &&
  Qleb (d * 1000000000) 9223372036854775807.

(** The number [time.sleep] is given, as it converts it before it looks
    at the sign: what is not a number is a TypeError, a number that does
    not fit its clock an OverflowError.  (The non-finite floats that
    [json.load] also reads are not [pyval]s.) *)
Definition py_seconds (v : pyval) : result Q :=
  match v with
  | VInt n => if fits_sleep (inject_Z n) then Ok (inject_Z n) else Raise OverflowError
  | VBool b => Ok (inject_Z (Z.b2z b))
  | VFloat q => if fits_sleep q then Ok q else Raise OverflowError
  | _ => Raise TypeError
  end.

(** [wait_and_fill]: [typed] tells whether the input is found, cleared
    and filled. *)
Definition wait_and_fill (typed : bool) (description : string) : M bool :=
  try_except
    ((if typed then mret tt else raise ActuatorError);;
     log INFO description;;
     bc ← getattr browser_config;
     wt ← lift (py_getitem bc "wait_time");
     d ← lift (py_seconds wt);
     sleep d;;
     mret true)
    (fun _ => log WARNING (description +:+ " failed");; mret false).

(** A click works on the element of a probe within the two attempts
    that [find_and_click_element] gives it. *)
Definition clicks (p : probe) : bool :=
  match click p 0 with
  | Clicked => true
  | Failed => match click p 1 with Clicked => true | Failed => false end
  end.

Definition works (p : probe) : bool := located p && clicks p.

(** The probes that [find_and_click_element] gets to: all up to the
    first that works. *)
Fixpoint tried (probes : list probe) : list probe :=
  match probes with
  | [] => []
  | p :: rest => if works p then [p] else p :: tried rest
  end.

Definition is_warning (e : event) : bool :=
  match e with EvLog WARNING _ => true | _ => false end.

Definition is_info (e : event) : bool :=
  match e with EvLog INFO _ => true | _ => false end.

(** The object, the timers and the threads are the same in [w'] as in
    [w], and the trace of [w'] is the trace of [w] and [evs]. *)
Definition only_logs (w w' : world) (evs : list event) : Prop :=
  self w' = self w /\ armed w' = armed w /\ alive w' = alive w /\
  trace w' = trace w ++ evs.

(** The loaded object with a browser section that asks for a wait of
    [n] seconds after each field. *)
Definition waiting_world (n : Z) : world :=
  with_self (set_browser_config (Some (VDict (<["wait_time" := VInt n]> ∅)))
               (self loaded_world))
    loaded_world.

(** The scheduler of [armed_world] with an hour that is no C int. *)
Definition huge_hour_world : world :=
  with_self
    (set_schedule_config
       (Some (VDict (<["hour" := VInt 2147483648]> (schedule_of true 10 30))))
       (self armed_world))
    armed_world.
(* ================================================================== *)
(** * Comparisons and instants *)
(* ================================================================== *)

Lemma Qltb_lt (a b : Q) : Qltb a b = true <-> (a < b)%Q.
Proof.
  unfold Qltb. rewrite Qlt_alt. destruct (a ?= b)%Q; split; congruence.
Qed.

Lemma Qltb_ge (a b : Q) : Qltb a b = false <-> (b <= a)%Q.
Proof.
  rewrite <- not_true_iff_false, Qltb_lt. split.
  - apply Qnot_lt_le.
  - apply Qle_not_lt.
Qed.

Lemma Qleb_le (a b : Q) : Qleb a b = true <-> (a <= b)%Q.
Proof.
  unfold Qleb. rewrite Qle_alt. destruct (a ?= b)%Q; split; congruence.
Qed.

Lemma Qleb_gt (a b : Q) : Qleb a b = false <-> (b < a)%Q.
Proof.
  rewrite <- not_true_iff_false, Qleb_le. split.
  - apply Qnot_le_lt.
  - apply Qlt_not_le.
Qed.

Lemma py_max_spec (a b : Q) :
  ((a < b)%Q /\ py_max a b = b) \/ ((b <= a)%Q /\ py_max a b = a).
Proof.
  unfold py_max. destruct (Qltb a b) eqn:E.
  - left. split; [now apply Qltb_lt | reflexivity].
  - right. split; [now apply Qltb_ge | reflexivity].
Qed.

Lemma py_min_spec (a b : Q) :
  ((b < a)%Q /\ py_min a b = b) \/ ((a <= b)%Q /\ py_min a b = a).
Proof.
  unfold py_min. destruct (Qltb b a) eqn:E.
  - left. split; [now apply Qltb_lt | reflexivity].
  - right. split; [now apply Qltb_ge | reflexivity].
Qed.

(** The library's [max] and [min] give the same numbers. *)
Lemma py_max_Qmax (a b : Q) : py_max a b == Qmax a b.
Proof.
  destruct (py_max_spec a b) as [[H ->] | [H ->]].
  - symmetry. apply Q.max_r. now apply Qlt_le_weak.
  - symmetry. now apply Q.max_l.
Qed.

Lemma py_min_Qmin (a b : Q) : py_min a b == Qmin a b.
Proof.
  destruct (py_min_spec a b) as [[H ->] | [H ->]].
  - symmetry. apply Q.min_r. now apply Qlt_le_weak.
  - symmetry. now apply Q.min_l.
Qed.

Lemma py_min3_Qmin (a b c : Q) : py_min3 a b c == Qmin a (Qmin b c).
Proof.
  unfold py_min3. rewrite py_min_Qmin, py_min_Qmin. symmetry. apply Q.min_assoc.
Qed.

Lemma timestamp_lt (a b : datetime) :
  (timestamp a < timestamp b)%Q <-> (dt_micros a < dt_micros b)%Z.
Proof. unfold timestamp, Qlt. simpl. lia. Qed.

Lemma timestamp_le (a b : datetime) :
  (timestamp a <= timestamp b)%Q <-> (dt_micros a <= dt_micros b)%Z.
Proof. unfold timestamp, Qle. simpl. lia. Qed.

(** On well-formed datetimes the order of the fields is the order of the
    instants. *)
Lemma dt_compare_micros (a b : datetime) :
  valid_datetime a -> valid_datetime b ->
  dt_compare a b = (dt_micros a ?= dt_micros b)%Z.
Proof.
  intros (Ha1 & Ha2 & Ha3 & Ha4) (Hb1 & Hb2 & Hb3 & Hb4).
  unfold dt_compare, dt_fields, dt_micros. cbn [lex_compare].
  symmetry.
  destruct (Z.compare_spec (dt_ordinal a) (dt_ordinal b));
    [ | apply Z.compare_lt_iff; lia | apply Z.compare_gt_iff; lia ].
  destruct (Z.compare_spec (dt_hour a) (dt_hour b));
    [ | apply Z.compare_lt_iff; lia | apply Z.compare_gt_iff; lia ].
  destruct (Z.compare_spec (dt_minute a) (dt_minute b));
    [ | apply Z.compare_lt_iff; lia | apply Z.compare_gt_iff; lia ].
  destruct (Z.compare_spec (dt_second a) (dt_second b));
    [ | apply Z.compare_lt_iff; lia | apply Z.compare_gt_iff; lia ].
  destruct (Z.compare_spec (dt_microsecond a) (dt_microsecond b));
    [ apply Z.compare_eq_iff; lia
    | apply Z.compare_lt_iff; lia | apply Z.compare_gt_iff; lia ].
Qed.

Lemma dt_ge_timestamp (a b : datetime) :
  valid_datetime a -> valid_datetime b ->
  dt_ge a b = true <-> (timestamp b <= timestamp a)%Q.
Proof.
  intros Ha Hb. unfold dt_ge. rewrite dt_compare_micros by assumption.
  rewrite timestamp_le.
  destruct (Z.compare_spec (dt_micros a) (dt_micros b)); split;
    intros; try lia; congruence.
Qed.

Lemma timestamp_add_days (d : datetime) (n : Z) :
  timestamp (dt_add_days d n) == timestamp d + inject_Z (n * 86400).
Proof.
  unfold timestamp, dt_add_days, dt_micros, Qeq, Qplus, inject_Z. simpl. lia.
Qed.

(* ================================================================== *)
(** * The next run time *)
(* ================================================================== *)

Ltac run :=
  unfold mbind, M_bind, mret, M_ret, getattr, lift, get_self, get_world,
    datetime_now, time_time, modify_self, raise, emit, log; cbn.

Lemma lookup_truthy (sc : gmap string pyval) (k : string) (v : pyval) :
  sc !! k = Some v -> truthy (VDict sc) = true.
Proof.
  intros H. cbn. apply negb_true_iff, Nat.eqb_neq.
  apply map_size_ne_0_lookup. exists k. rewrite H. eauto.
Qed.

Lemma valid_candidate (now : datetime) (h m : Z) :
  (0 <= h <= 23)%Z -> (0 <= m <= 59)%Z -> valid_datetime (candidate now h m).
Proof. intros. unfold valid_datetime, candidate. cbn. lia. Qed.

Lemma replace_candidate (now : datetime) (h m : Z) :
  (0 <= h <= 23)%Z -> (0 <= m <= 59)%Z ->
  dt_replace_time now h m 0 0 = Ok (candidate now h m).
Proof.
  intros Hh Hm. unfold dt_replace_time.
  replace (0 <=? h)%Z with true by (symmetry; apply Z.leb_le; lia).
  replace (h <=? 23)%Z with true by (symmetry; apply Z.leb_le; lia).
  replace (0 <=? m)%Z with true by (symmetry; apply Z.leb_le; lia).
  replace (m <=? 59)%Z with true by (symmetry; apply Z.leb_le; lia).
  reflexivity.
Qed.

Lemma c_int_small (n : Z) : (-2147483648 <= n <= 2147483647)%Z -> c_int n = true.
Proof.
  intros H. unfold c_int. apply andb_true_intro. split; apply Z.leb_le; lia.
Qed.

Lemma calculate_enabled (w : world) (sc : gmap string pyval) (h m : Z) :
  schedule_config (self w) = Some (VDict sc) ->
  enabled_at sc h m ->
  _calculate_next_run_time w = (Ok (Some (timestamp (next_run (clock w) h m))), w).
Proof.
  intros Hsc ((en & Hen & Ht) & Hh & Hm & Rh & Rm).
  unfold _calculate_next_run_time. run. rewrite Hsc.
  rewrite (lookup_truthy _ _ _ Hh). cbn.
  unfold py_get, py_getitem. rewrite Hen, Ht, Hh, Hm. cbn.
  rewrite (c_int_small h), (c_int_small m) by lia. cbn.
  rewrite (replace_candidate _ _ _ Rh Rm). reflexivity.
Qed.

Lemma next_run_future (now : datetime) (h m : Z) :
  valid_datetime now -> (0 <= h <= 23)%Z -> (0 <= m <= 59)%Z ->
  (timestamp now < timestamp (next_run now h m))%Q.
Proof.
  intros Hnow Hh Hm. unfold next_run.
  pose proof (valid_candidate now h m Hh Hm) as Hc.
  destruct (dt_ge now (candidate now h m)) eqn:E.
  - rewrite timestamp_add_days.
    destruct Hnow as (H1 & H2 & H3 & H4).
    unfold timestamp, candidate, dt_micros, Qlt, Qplus, inject_Z. cbn. lia.
  - apply Qnot_le_lt. intros Hle.
    apply (dt_ge_timestamp now _ Hnow Hc) in Hle. congruence.
Qed.

Lemma lex_compare_antisym (a b : list Z) :
  lex_compare b a = CompOpp (lex_compare a b).
Proof.
  revert b. induction a as [ | x a IH ]; intros [ | y b ]; cbn; try reflexivity.
  rewrite (Z.compare_antisym x y).
  destruct (x ?= y)%Z; cbn; [ apply IH | reflexivity | reflexivity ].
Qed.

Lemma dt_compare_antisym (a b : datetime) :
  dt_compare b a = CompOpp (dt_compare a b).
Proof. apply lex_compare_antisym. Qed.

(** The naive datetime of the next run is after now, as naive datetimes
    compare. *)
Lemma next_run_after_now (now : datetime) (h m : Z) :
  dt_compare now (next_run now h m) = Lt.
Proof.
  assert (Hnext : dt_compare now (dt_add_days (candidate now h m) 1) = Lt).
  { unfold dt_compare, dt_fields, dt_add_days, candidate. cbn.
    replace (dt_ordinal now ?= dt_ordinal now + 1)%Z with Lt
      by (symmetry; apply Z.compare_lt_iff; lia).
    reflexivity. }
  unfold next_run, dt_ge.
  destruct (dt_compare now (candidate now h m)) eqn:E;
    [ exact Hnext | exact E | exact Hnext ].
Qed.

(** C1. With the schedule enabled for an hour in [0,23] and a minute in
    [0,59], and whatever the current time, [_calculate_next_run_time]
    returns the timestamp of a naive datetime d that is strictly after
    now: d is today at hour:minute:00.000000 when that candidate is
    strictly after now, and otherwise the candidate plus
    [timedelta(days=1)], tomorrow at hour:minute:00.000000. This is
    stated on the naive datetimes, as the code compares and adds them;
    of the two timestamps it says that the one returned is the later. *)
Theorem calculate_next_run_time_spec (w : world) (sc : gmap string pyval) (h m : Z) :
  schedule_config (self w) = Some (VDict sc) ->
  enabled_at sc h m ->
  let now := clock w in
  let today := candidate now h m in
  exists d : datetime,
    _calculate_next_run_time w = (Ok (Some (timestamp d)), w) /\
    dt_compare now d = Lt /\
    (dt_compare now today = Lt -> d = today) /\
    (dt_compare now today <> Lt -> d = dt_add_days today 1) /\
    today = mkdt (dt_ordinal now) h m 0 0 /\
    dt_add_days today 1 = mkdt (dt_ordinal now + 1) h m 0 0 /\
    (valid_datetime now -> (timestamp now < timestamp d)%Q).
Proof.
  intros Hsc Hen now today.
  pose proof Hen as (_ & _ & _ & Hh & Hm).
  exists (next_run now h m).
  split; [ now apply calculate_enabled with sc | ].
  split; [ apply next_run_after_now | ].
  split; [ | split; [ | split; [ reflexivity | split; [ reflexivity | ] ] ] ].
  - intros Hlt. unfold next_run, dt_ge. fold today. now rewrite Hlt.
  - intros Hge. unfold next_run, dt_ge. fold today.
    destruct (dt_compare now today); [ reflexivity | now destruct Hge | reflexivity ].
  - intros Hnow. now apply next_run_future.
Qed.

Lemma enabled_at_schedule_of (h m : Z) :
  (0 <= h <= 23)%Z -> (0 <= m <= 59)%Z ->
  enabled_at (schedule_of true h m) h m.
Proof.
  intros Hh Hm. unfold enabled_at, schedule_of.
  split; [ exists (VBool true); split; [ | reflexivity ] | split; [ | split ] ].
  - apply lookup_insert_eq.
  - rewrite lookup_insert_ne by discriminate. apply lookup_insert_eq.
  - rewrite !lookup_insert_ne by discriminate. apply lookup_insert_eq.
  - split; assumption.
Qed.

Lemma calculate_next_run_time_spec_witness :
  schedule_config (self scenario_A) = Some (VDict (schedule_of true 10 30)) /\
  enabled_at (schedule_of true 10 30) 10 30 /\
  dt_compare (clock scenario_A) (candidate (clock scenario_A) 10 30) <> Lt /\
  _calculate_next_run_time scenario_A
  = (Ok (Some (timestamp (datetime_of 2024 1 2 10 30 0 0))), scenario_A).
Proof.
  assert (H1 : schedule_config (self scenario_A)
               = Some (VDict (schedule_of true 10 30))) by reflexivity.
  assert (H2 : enabled_at (schedule_of true 10 30) 10 30)
    by (apply enabled_at_schedule_of; lia).
  assert (H3 : dt_compare (clock scenario_A) (candidate (clock scenario_A) 10 30)
               <> Lt) by (vm_compute; discriminate).
  split; [ exact H1 | split; [ exact H2 | split; [ exact H3 | ] ] ].
  destruct (calculate_next_run_time_spec scenario_A (schedule_of true 10 30)
              10 30 H1 H2) as (d & Hrun & _ & _ & Hlater & _).
  rewrite Hrun, (Hlater H3). reflexivity.
Defined.

(** The two end-to-end scenarios of the schedule: at 11:00 the run is
    tomorrow at 10:30, at 09:00 it is today at 10:30. *)
Example scenario_A_next_run :
  outcome_of (_calculate_next_run_time scenario_A)
  = Ok (Some (timestamp (datetime_of 2024 1 2 10 30 0 0))).
Proof. vm_compute. reflexivity. Qed.

Example scenario_B_next_run :
  outcome_of (_calculate_next_run_time scenario_B)
  = Ok (Some (timestamp (datetime_of 2024 1 1 10 30 0 0))).
Proof. vm_compute. reflexivity. Qed.

(** A disabled schedule has no next run time. *)
Lemma calculate_disabled (w : world) (sc : gmap string pyval) (en : pyval) :
  schedule_config (self w) = Some (VDict sc) ->
  sc !! "enabled" = Some en -> truthy en = false ->
  _calculate_next_run_time w = (Ok None, w).
Proof.
  intros Hsc Hen Ht. unfold _calculate_next_run_time. run. rewrite Hsc.
  rewrite (lookup_truthy _ _ _ Hen). cbn.
  unfold py_get. rewrite Hen, Ht. reflexivity.
Qed.

(* ================================================================== *)
(** * Relations kept by every step of a method *)
(* ================================================================== *)

Section Preservation.
Variable R : world -> world -> Prop.
Hypothesis R_refl : forall w, R w w.
Hypothesis R_trans : forall a b c, R a b -> R b c -> R a c.

Lemma preserves_ret {A : Type} (a : A) : preserves R (mret a).
Proof. intros w. apply R_refl. Qed.

Lemma preserves_raise {A : Type} (e : exn) : preserves R (@raise A e).
Proof. intros w. apply R_refl. Qed.

Lemma preserves_lift {A : Type} (r : result A) : preserves R (lift r).
Proof. intros w. apply R_refl. Qed.

Lemma preserves_bind {A B : Type} (m : M A) (k : A -> M B) :
  preserves R m -> (forall a, preserves R (k a)) -> preserves R (m ≫= k).
Proof.
  intros Hm Hk w. specialize (Hm w).
  unfold mbind, M_bind, world_of in *.
  destruct (m w) as [[a | e] w1]; cbn in *.
  - apply R_trans with w1; [ assumption | apply Hk ].
  - assumption.
Qed.

Lemma preserves_try_except {A : Type} (m : M A) (h : exn -> M A) :
  preserves R m -> (forall e, preserves R (h e)) -> preserves R (try_except m h).
Proof.
  intros Hm Hh w. specialize (Hm w).
  unfold try_except, world_of in *.
  destruct (m w) as [[a | e] w1]; cbn in *.
  - assumption.
  - apply R_trans with w1; [ assumption | apply Hh ].
Qed.

Lemma preserves_try_finally {A : Type} (m : M A) (f : M unit) :
  preserves R m -> preserves R f -> preserves R (try_finally m f).
Proof.
  intros Hm Hf w. specialize (Hm w).
  unfold try_finally, world_of in *.
  destruct (m w) as [r w1]; cbn in *.
  specialize (Hf w1).
  destruct (f w1) as [[u | e] w2]; cbn in *;
    (apply R_trans with w1; assumption).
Qed.

Lemma preserves_get_self : preserves R get_self.
Proof. intros w. apply R_refl. Qed.

Lemma preserves_get_world : preserves R get_world.
Proof. intros w. apply R_refl. Qed.

Lemma preserves_time_time : preserves R time_time.
Proof. intros w. apply R_refl. Qed.

Lemma preserves_datetime_now : preserves R datetime_now.
Proof. intros w. apply R_refl. Qed.

Lemma preserves_getattr (proj : automation -> option pyval) :
  preserves R (getattr proj).
Proof. intros w. unfold getattr, world_of. destruct (proj (self w)); apply R_refl. Qed.

Lemma preserves_is_alive (id : nat) : preserves R (is_alive id).
Proof. intros w. apply R_refl. Qed.
End Preservation.

Lemma no_actuation_refl (w : world) : no_actuation w w.
Proof. exists []. split; [ now rewrite app_nil_r | reflexivity ]. Qed.

Lemma no_actuation_trans (a b c : world) :
  no_actuation a b -> no_actuation b c -> no_actuation a c.
Proof.
  intros (e1 & H1 & C1) (e2 & H2 & C2). exists (e1 ++ e2). split.
  - rewrite H2, H1. now rewrite app_assoc.
  - unfold count in *. rewrite List.filter_app, length_app. lia.
Qed.

Lemma no_actuation_same_trace (w w' : world) :
  trace w' = trace w -> no_actuation w w'.
Proof. intros H. exists []. split; [ now rewrite app_nil_r | reflexivity ]. Qed.

Lemma no_actuation_one (w w' : world) (e : event) :
  trace w' = trace w ++ [e] -> is_actuate e = false -> no_actuation w w'.
Proof.
  intros H He. exists [e]. split; [ assumption | ].
  unfold count. cbn. now rewrite He.
Qed.

Lemma no_actuation_count (w w' : world) :
  no_actuation w w' ->
  count is_actuate (trace w') = count is_actuate (trace w).
Proof.
  intros (evs & H & C). unfold count in *.
  rewrite H, List.filter_app, length_app. lia.
Qed.

Lemma quiet_emit (e : event) :
  is_actuate e = false -> preserves no_actuation (emit e).
Proof. intros He w. now apply no_actuation_one with e. Qed.

Lemma quiet_log (l : level) (m : string) : preserves no_actuation (log l m).
Proof. now apply quiet_emit. Qed.

Lemma quiet_modify_self (f : automation -> automation) :
  preserves no_actuation (modify_self f).
Proof. intros w. now apply no_actuation_same_trace. Qed.

Lemma quiet_timer_start (d : Q) : preserves no_actuation (timer_start d).
Proof. intros w. now apply no_actuation_one with (EvTimerStart (fresh w) d). Qed.

Lemma quiet_timer_cancel (id : nat) : preserves no_actuation (timer_cancel id).
Proof. intros w. now apply no_actuation_one with (EvTimerCancel id). Qed.

Lemma quiet_thread_start : preserves no_actuation thread_start.
Proof. intros w. now apply no_actuation_one with (EvThreadStart (fresh w)). Qed.

Lemma quiet_thread_join (id : nat) (t : Q) (ended : bool) :
  preserves no_actuation (thread_join id t ended).
Proof.
  intros w. apply no_actuation_one with (EvThreadJoin id t); [ | reflexivity ].
  unfold thread_join, world_of. cbn. now destruct ended.
Qed.

Lemma quiet_wake : preserves no_actuation
  (fun w => match future w with
            | t :: rest => (Ok tt, with_env t rest w)
            | [] => (Ok tt, w)
            end).
Proof.
  intros w. unfold world_of. destruct (future w); now apply no_actuation_same_trace.
Qed.

Create HintDb quiet.

#[local] Hint Resolve no_actuation_refl no_actuation_trans : quiet.
#[local] Hint Resolve quiet_log quiet_modify_self quiet_timer_start
  quiet_timer_cancel quiet_thread_start quiet_thread_join quiet_wake : quiet.

(** One step of a proof that a method keeps a relation: split the
    method along its binds, handlers and tests. *)
Ltac preserve_step R_refl R_trans :=
  match goal with
  | |- preserves _ (mbind _ _) =>
      apply (preserves_bind _ R_trans); [ | intros ? ]
  | |- preserves _ (mret _) => apply (preserves_ret _ R_refl)
  | |- preserves _ (raise _) => apply (preserves_raise _ R_refl)
  | |- preserves _ (lift _) => apply (preserves_lift _ R_refl)
  | |- preserves _ (try_except _ _) =>
      apply (preserves_try_except _ R_trans); [ | intros ? ]
  | |- preserves _ (try_finally _ _) =>
      apply (preserves_try_finally _ R_trans)
  | |- preserves _ get_self => apply (preserves_get_self _ R_refl)
  | |- preserves _ get_world => apply (preserves_get_world _ R_refl)
  | |- preserves _ time_time => apply (preserves_time_time _ R_refl)
  | |- preserves _ datetime_now => apply (preserves_datetime_now _ R_refl)
  | |- preserves _ (getattr _) => apply (preserves_getattr _ R_refl)
  | |- preserves _ (is_alive _) => apply (preserves_is_alive _ R_refl)
  | |- preserves _ (if ?b then _ else _) => destruct b
  | |- preserves _ (match ?x with _ => _ end) => destruct x
  end.

Ltac quiet :=
  repeat first
    [ preserve_step no_actuation_refl no_actuation_trans
    | solve [ auto with quiet ]
    | apply quiet_emit; reflexivity ].

Lemma quiet_sleep (d : Q) : preserves no_actuation (sleep d).
Proof. unfold sleep. quiet. Qed.

Lemma quiet_load_or_create_config : preserves no_actuation load_or_create_config.
Proof. unfold load_or_create_config. quiet. Qed.

#[local] Hint Resolve quiet_sleep quiet_load_or_create_config : quiet.

Lemma quiet_setup_automation : preserves no_actuation setup_automation.
Proof. unfold setup_automation. quiet. Qed.

Lemma quiet_calculate_next_run_time : preserves no_actuation _calculate_next_run_time.
Proof. unfold _calculate_next_run_time. quiet. Qed.

Lemma quiet_get_next_run_delay : preserves no_actuation _get_next_run_delay.
Proof. unfold _get_next_run_delay. quiet. Qed.

#[local] Hint Resolve quiet_setup_automation quiet_calculate_next_run_time
  quiet_get_next_run_delay : quiet.

Lemma quiet_schedule_next_run : preserves no_actuation _schedule_next_run.
Proof. unfold _schedule_next_run. quiet. Qed.

#[local] Hint Resolve quiet_schedule_next_run : quiet.

Lemma quiet_reload_body : preserves no_actuation reload_body.
Proof. unfold reload_body. quiet. Qed.

#[local] Hint Resolve quiet_reload_body : quiet.

Lemma quiet_check_config_changes : preserves no_actuation check_config_changes.
Proof. unfold check_config_changes. quiet. Qed.

#[local] Hint Resolve quiet_check_config_changes : quiet.

Lemma quiet_loop_iteration (last : Q) : preserves no_actuation (loop_iteration last).
Proof. unfold loop_iteration. quiet. Qed.

#[local] Hint Resolve quiet_loop_iteration : quiet.

Lemma quiet_loop_while (fuel : nat) (last : Q) :
  preserves no_actuation (loop_while fuel last).
Proof.
  revert last. induction fuel as [ | n IH ]; intros last; cbn [loop_while]; quiet.
Qed.

#[local] Hint Resolve quiet_loop_while : quiet.

Lemma quiet_combined_loop (fuel : nat) : preserves no_actuation (combined_loop fuel).
Proof. unfold combined_loop. quiet. Qed.

Lemma quiet_start_combined_thread : preserves no_actuation start_combined_thread.
Proof. unfold start_combined_thread. quiet. Qed.

Lemma quiet_stop_combined_thread (ended : bool) :
  preserves no_actuation (stop_combined_thread ended).
Proof.
  unfold stop_combined_thread, _unload_non_essential_modules. quiet.
Qed.

(* ================================================================== *)
(** * The delay and the sleep of the loop *)
(* ================================================================== *)

Lemma get_next_run_delay_run (w : world) :
  _get_next_run_delay w = (Ok (next_run_delay w), w).
Proof.
  unfold next_run_delay, _get_next_run_delay. run.
  destruct (time_set (next_run_time (self w))); reflexivity.
Qed.

Lemma try_except_bind_pure {A B : Type} (m : M A) (k : A -> M B)
    (h : exn -> M B) (w : world) (a : A) :
  m w = (Ok a, w) ->
  try_except (m ≫= k) h w = try_except (k a) h w.
Proof. intros H. unfold try_except, mbind, M_bind. now rewrite H. Qed.

Lemma try_except_emit_first {A B : Type} (e : event) (m : M A) (k : A -> M B)
    (h : exn -> M B) (w : world) :
  try_except ((emit e;; m) ≫= k) h w
  = try_except (m ≫= k) h (with_trace (trace w ++ [e]) w).
Proof. reflexivity. Qed.

Lemma no_actuation_after {A : Type} (m : M A) (w : world) (e : event) :
  preserves no_actuation m ->
  exists evs,
    trace (world_of (m (with_trace (trace w ++ [e]) w))) = trace w ++ e :: evs.
Proof.
  intros H. destruct (H (with_trace (trace w ++ [e]) w)) as (evs & Ht & _).
  exists evs. rewrite Ht. cbn. now rewrite <- app_assoc.
Qed.

Lemma loop_iteration_sleeps (w : world) (last : Q) :
  exists evs,
    trace (world_of (loop_iteration last w))
    = trace w ++ EvSleep (safe_sleep_time (next_run_delay w)
                            (config_check_interval (self w))) :: evs.
Proof.
  unfold loop_iteration.
  rewrite (try_except_bind_pure _ _ _ _ _ (get_next_run_delay_run w)).
  rewrite (try_except_bind_pure get_self _ _ w (self w) eq_refl).
  unfold sleep at 1. rewrite try_except_emit_first.
  apply no_actuation_after. quiet.
Qed.

Lemma sleep_branch_no_task (d : Q) :
  sleep_branch d = NoTask <-> (d <= 0)%Q.
Proof.
  unfold sleep_branch. destruct (Qltb 0 d) eqn:E; cbn.
  - apply Qltb_lt in E. split.
    + destruct (Qleb d 5); discriminate.
    + intros H. exfalso. now apply (Qlt_not_le _ _ E).
  - apply Qltb_ge in E. split; [ now intros _ | reflexivity ].
Qed.

(** C4, as the code has it. Each iteration of the loop sleeps for a
    length fixed by the delay d to the next run: 0.5 s when 0 < d <= 5;
    min(d/2, interval/2, 30) when d > 5; and min(interval, 30) in the
    remaining case d <= 0, that is when nothing is scheduled (d = -1) and
    also when the scheduled instant has been reached (d = 0). *)
Theorem loop_sleeps_adaptively (w : world) (last : Q) :
  let d := next_run_delay w in
  let i := config_check_interval (self w) in
  (exists evs,
     trace (world_of (loop_iteration last w))
     = trace w ++ EvSleep (safe_sleep_time d i) :: evs) /\
  ((0 < d)%Q -> (d <= 5)%Q -> safe_sleep_time d i = (1 # 2)%Q) /\
  ((5 < d)%Q ->
     safe_sleep_time d i = py_min3 (d / 2) (i / 2) 30 /\
     safe_sleep_time d i == Qmin (d / 2) (Qmin (i / 2) 30)) /\
  ((d <= 0)%Q ->
     safe_sleep_time d i = py_min i 30 /\
     safe_sleep_time d i == Qmin i 30).
Proof.
  intros d i. split; [ apply loop_iteration_sleeps | ].
  unfold safe_sleep_time, sleep_branch. repeat split.
  - intros H0 H5. apply Qltb_lt in H0. apply Qleb_le in H5.
    now rewrite H0, H5.
  - apply Qltb_lt in H as H0'.
    assert (H0 : Qltb 0 d = true) by (apply Qltb_lt; lra).
    assert (H5 : Qleb d 5 = false) by (now apply Qleb_gt).
    now rewrite H0, H5.
  - assert (H0 : Qltb 0 d = true) by (apply Qltb_lt; lra).
    assert (H5 : Qleb d 5 = false) by (now apply Qleb_gt).
    rewrite H0, H5. cbn. apply py_min3_Qmin.
  - apply Qltb_ge in H. now rewrite H.
  - apply Qltb_ge in H. rewrite H. cbn. apply py_min_Qmin.
Qed.

Lemma loop_sleeps_adaptively_witness :
  (0 < next_run_delay armed_world)%Q /\ (5 < next_run_delay armed_world)%Q /\
  safe_sleep_time (next_run_delay armed_world)
                  (config_check_interval (self armed_world)) == 15.
Proof.
  assert (H5 : (5 < next_run_delay armed_world)%Q) by (vm_compute; reflexivity).
  split; [ vm_compute; reflexivity | split; [ exact H5 | ] ].
  destruct (loop_sleeps_adaptively armed_world 0) as (_ & _ & Hfar & _).
  destruct (Hfar H5) as (_ & ->). vm_compute. reflexivity.
Defined.

(** C4 as stated fails at delay 0: with a run scheduled and its instant
    reached, the delay is 0, within [0, 5], and the loop sleeps 30 s, not
    0.5 s. *)
Lemma adaptive_sleep_at_zero_delay :
  scheduled due_world /\
  (0 <= next_run_delay due_world)%Q /\ (next_run_delay due_world <= 5)%Q /\
  safe_sleep_time (next_run_delay due_world)
                  (config_check_interval (self due_world)) = 30%Q /\
  ~ safe_sleep_time (next_run_delay due_world)
                    (config_check_interval (self due_world)) == 1 # 2.
Proof.
  split; [ vm_compute; reflexivity | ].
  split; [ vm_compute; discriminate | ].
  split; [ vm_compute; discriminate | ].
  split; [ vm_compute; reflexivity | ].
  vm_compute. discriminate.
Qed.

(** C10, as the code has it. [_get_next_run_delay] always returns and
    changes nothing. When a next run time is set (as the code tests it:
    not None and not 0.0) the value is max(0, next_run_time - now), never
    negative, and it is 0 once the instant has been reached; the value
    is -1 exactly when no next run time is set. So a negative delay is
    seen only when nothing is scheduled. The last branch of the loop is
    taken for every delay <= 0: with nothing scheduled, and also with a
    run scheduled whose instant has been reached. *)
Theorem next_run_delay_clamped (w : world) :
  _get_next_run_delay w = (Ok (next_run_delay w), w) /\
  (scheduled w ->
     exists t, next_run_time (self w) = Some t /\
       next_run_delay w = py_max 0 (t - timestamp (clock w)) /\
       next_run_delay w == Qmax 0 (t - timestamp (clock w)) /\
       (0 <= next_run_delay w)%Q /\
       ((t <= timestamp (clock w))%Q -> next_run_delay w = 0%Q)) /\
  (next_run_delay w == -1 <-> ~ scheduled w) /\
  ((next_run_delay w < 0)%Q -> ~ scheduled w) /\
  (sleep_branch (next_run_delay w) = NoTask <-> (next_run_delay w <= 0)%Q).
Proof.
  split; [ apply get_next_run_delay_run | ].
  assert (Hset : scheduled w ->
            exists t, next_run_time (self w) = Some t /\
              next_run_delay w = py_max 0 (t - timestamp (clock w))).
  { unfold scheduled, next_run_delay, _get_next_run_delay. run.
    intros Hs. rewrite Hs. destruct (next_run_time (self w)) as [t | ].
    - exists t. split; reflexivity.
    - discriminate. }
  assert (Hunset : ~ scheduled w -> next_run_delay w = (-1)%Q).
  { unfold scheduled, next_run_delay, _get_next_run_delay. run.
    intros Hs. now destruct (time_set (next_run_time (self w))). }
  assert (Hpos : scheduled w -> (0 <= next_run_delay w)%Q).
  { intros Hs. destruct (Hset Hs) as (t & _ & ->).
    destruct (py_max_spec 0 (t - timestamp (clock w))) as [[H ->] | [H ->]]; lra. }
  split; [ | split; [ | split ] ].
  - intros Hs. destruct (Hset Hs) as (t & Ht & Hd). exists t.
    split; [ exact Ht | ]. split; [ exact Hd | ].
    split; [ rewrite Hd; apply py_max_Qmax | ].
    split; [ now apply Hpos | ].
    intros Hle. rewrite Hd.
    destruct (py_max_spec 0 (t - timestamp (clock w))) as [[H _] | [_ ->]];
      [ lra | reflexivity ].
  - split.
    + intros Heq Hs. specialize (Hpos Hs). lra.
    + intros Hs. now rewrite (Hunset Hs).
  - intros Hneg Hs. specialize (Hpos Hs). lra.
  - apply sleep_branch_no_task.
Qed.

Lemma next_run_delay_clamped_witness :
  scheduled due_world /\ next_run_delay due_world = 0%Q.
Proof.
  assert (Hs : scheduled due_world) by (vm_compute; reflexivity).
  split; [ exact Hs | ].
  destruct (next_run_delay_clamped due_world) as (_ & Hset & _).
  destruct (Hset Hs) as (t & Ht & _ & _ & _ & Hz).
  apply Hz. vm_compute in Ht. injection Ht as <-. vm_compute. discriminate.
Defined.

(** C10 as stated fails: the loop takes its last branch, the one a
    negative delay leads to, although a run is scheduled. *)
Lemma no_task_branch_with_task_scheduled :
  scheduled due_world /\
  next_run_delay due_world = 0%Q /\
  sleep_branch (next_run_delay due_world) = NoTask /\
  ~ (forall w, sleep_branch (next_run_delay w) = NoTask -> ~ scheduled w).
Proof.
  assert (Hs : scheduled due_world) by (vm_compute; reflexivity).
  assert (Hb : sleep_branch (next_run_delay due_world) = NoTask)
    by (vm_compute; reflexivity).
  split; [ exact Hs | ]. split; [ vm_compute; reflexivity | ].
  split; [ exact Hb | ].
  intros H. exact (H due_world Hb Hs).
Qed.

(* ================================================================== *)
(** * The retrying click *)
(* ================================================================== *)

Lemma count_cons (p : event -> bool) (e : event) (l : list event) :
  count p (e :: l) = ((if p e then 1 else 0) + count p l)%nat.
Proof. unfold count. cbn. now destruct (p e). Qed.

(** The loop over the attempts [k], ..., [k + n - 1] tries the step at
    most [n] times. *)
Lemma retry_loop_bounded (step : Z -> step_outcome) (description : string)
    (max_retries : Z) (n k : nat) :
  (count is_step
     (snd (retry_loop step description max_retries (map Z.of_nat (seq k n))))
   <= n)%nat.
Proof.
  revert k. induction n as [ | n IH ]; intros k; cbn [seq map retry_loop].
  - cbn. lia.
  - destruct (step (Z.of_nat k)).
    + cbn. lia.
    + destruct (Z.of_nat k <? max_retries - 1)%Z.
      * specialize (IH (S k)).
        destruct (retry_loop step description max_retries
                    (map Z.of_nat (seq (S k) n))) as [b evs].
        cbn [snd] in *. rewrite !count_cons. cbn. lia.
      * cbn. lia.
Qed.

(** When every attempt fails, the loop over the last [n] attempts makes
    them all, returns False, and logs one error, last, if [n > 0]. *)
Lemma retry_loop_all_fail (step : Z -> step_outcome) (description : string)
    (max_retries : Z) (n k : nat) :
  (Z.of_nat k + Z.of_nat n = max_retries)%Z ->
  (forall a, (0 <= a < max_retries)%Z -> step a = Failed) ->
  let r := retry_loop step description max_retries (map Z.of_nat (seq k n)) in
  fst r = false /\
  count is_step (snd r) = n /\
  (0 < n ->
   List.filter is_error (snd r) = [EvLog ERROR (description +:+ " failed")] /\
   last (snd r) = Some (EvLog ERROR (description +:+ " failed")))%nat.
Proof.
  revert k. induction n as [ | n IH ]; intros k Hk Hfail; cbn [seq map retry_loop].
  - cbn. repeat split; lia.
  - rewrite Hfail by lia.
    destruct (Z.ltb_spec (Z.of_nat k) (max_retries - 1)) as [Hlt | Hge].
    + assert (Hn : (0 < n)%nat) by lia.
      destruct (IH (S k)) as (Hb & Hc & Herr); [ lia | assumption | ].
      destruct (Herr Hn) as (He & Hl).
      destruct (retry_loop step description max_retries
                  (map Z.of_nat (seq (S k) n))) as [b evs].
      cbn [fst snd] in *. split; [ assumption | ].
      split; [ rewrite !count_cons; cbn; lia | ].
      intros _. split.
      * cbn. exact He.
      * destruct evs as [ | e evs ]; [ discriminate He | ].
        cbn [last]. exact Hl.
    + assert (n = 0%nat) by lia. subst n. cbn.
      repeat split; reflexivity.
Qed.

(** C9. [wait_and_click_with_retry] tries the step at most max_retries
    times (2 when the caller gives none). When every attempt fails it
    has made all max_retries attempts and returns False, an ordinary
    result and not an exception; and when there was an attempt at all
    (max_retries > 0), the error of the last one is logged, as the only
    error entry and the last entry of the log. *)
Theorem wait_and_click_with_retry_spec (step : Z -> step_outcome)
    (description : string) (max_retries : Z) :
  let r := wait_and_click_with_retry step description max_retries in
  default_max_retries = 2%Z /\
  (Z.of_nat (count is_step (snd r)) <= Z.max 0 max_retries)%Z /\
  ((forall a, (0 <= a < max_retries)%Z -> step a = Failed) ->
   fst r = false /\
   Z.of_nat (count is_step (snd r)) = Z.max 0 max_retries /\
   ((0 < max_retries)%Z ->
    List.filter is_error (snd r) = [EvLog ERROR (description +:+ " failed")] /\
    last (snd r) = Some (EvLog ERROR (description +:+ " failed")))).
Proof.
  unfold wait_and_click_with_retry, range. cbn zeta.
  split; [ reflexivity | ]. split.
  - pose proof (retry_loop_bounded step description max_retries
                  (Z.to_nat max_retries) 0). lia.
  - intros Hfail.
    destruct (Z.le_gt_cases max_retries 0) as [Hle | Hgt].
    + replace (Z.to_nat max_retries) with 0%nat by lia. cbn.
      repeat split; lia.
    + destruct (retry_loop_all_fail step description max_retries
                  (Z.to_nat max_retries) 0) as (Hb & Hc & Herr);
        [ lia | assumption | ].
      split; [ assumption | ]. split; [ lia | ].
      intros _. apply Herr. lia.
Qed.

Lemma wait_and_click_with_retry_spec_witness :
  (forall a, (0 <= a < 2)%Z -> (fun _ : Z => Failed) a = Failed) /\
  wait_and_click_with_retry (fun _ => Failed) "click submit" default_max_retries
  = (false, [EvStep 0; EvLog DEBUG "click submit failed, retrying";
             EvStep 1; EvLog ERROR "click submit failed"]) /\
  fst (wait_and_click_with_retry (fun _ => Failed) "click submit"
         default_max_retries) = false.
Proof.
  assert (H : forall a, (0 <= a < 2)%Z -> (fun _ : Z => Failed) a = Failed)
    by reflexivity.
  split; [ exact H | ]. split; [ reflexivity | ].
  exact (proj1 (proj2 (proj2 (wait_and_click_with_retry_spec
                                (fun _ => Failed) "click submit" 2)) H)).
Defined.

(** A success at the second attempt: two tries, True, no error. *)
Example retry_then_click :
  wait_and_click_with_retry
    (fun a => if (a =? 0)%Z then Failed else Clicked) "click submit"
    default_max_retries
  = (true, [EvStep 0; EvLog DEBUG "click submit failed, retrying";
            EvStep 1; EvLog DEBUG "click submit"]).
Proof. reflexivity. Qed.

(* ================================================================== *)
(** * Loading and watching the configuration *)
(* ================================================================== *)

Lemma load_missing (w : world) :
  fs w = None ->
  load_or_create_config w
  = (Raise FileNotFoundError,
     with_trace (trace w ++ [EvLog ERROR "configuration file does not exist"]) w).
Proof. intros H. unfold load_or_create_config. run. now rewrite H. Qed.

Lemma load_malformed (w : world) (f : file) :
  fs w = Some f -> content f = None ->
  load_or_create_config w
  = (Raise JSONDecodeError, with_trace (trace w ++ [EvOpenConfig]) w).
Proof. intros H Hc. unfold load_or_create_config. run. now rewrite H, Hc. Qed.

Lemma load_parses (w : world) (f : file) (v : pyval) :
  fs w = Some f -> content f = Some v ->
  load_or_create_config w
  = (Ok tt,
     with_self (set_config_last_modified (mtime f) (set_config (Some v) (self w)))
       (with_trace (trace w ++ [EvOpenConfig]) w)).
Proof. intros H Hc. unfold load_or_create_config. run. now rewrite H, Hc. Qed.

(** [start_combined_thread] never looks at the configuration file. *)
Lemma start_ignores_file (w : world) (f : option file) :
  start_combined_thread (with_fs f w)
  = (outcome_of (start_combined_thread w),
     with_fs f (world_of (start_combined_thread w))).
Proof.
  unfold start_combined_thread, outcome_of, world_of. run.
  destruct (schedule_config (self w)) as [sc | ]; [ | reflexivity ].
  destruct (py_getitem sc "enabled") as [en | ]; [ | reflexivity ]. cbn.
  destruct (truthy en); [ | reflexivity ]. cbn.
  destruct (py_getitem sc "hour") as [hour | ]; [ | reflexivity ]. cbn.
  destruct (py_getitem sc "minute") as [minute | ]; [ | reflexivity ]. cbn.
  destruct (format_02d hour); [ | reflexivity ]. cbn.
  destruct (format_02d minute); reflexivity.
Qed.

(** C5, as the code has it. When the configuration file does not exist,
    [load_or_create_config] logs an error and raises FileNotFoundError,
    leaving the object as it was (no default configuration is made up),
    and nothing that its caller sequences after it is run. When the
    file exists and parses, it returns, stores the configuration and
    records the modification time of the file in
    [config_last_modified]. [start_combined_thread] does not load the
    configuration: its outcome and its effect are the same whatever the
    file, present or absent. *)
Theorem load_or_create_config_spec (w : world) :
  (fs w = None ->
     outcome_of (load_or_create_config w) = Raise FileNotFoundError /\
     self (world_of (load_or_create_config w)) = self w /\
     forall (B : Type) (k : unit -> M B),
       outcome_of ((load_or_create_config ≫= k) w) = Raise FileNotFoundError /\
       world_of ((load_or_create_config ≫= k) w)
       = world_of (load_or_create_config w)) /\
  (forall f v, fs w = Some f -> content f = Some v ->
     outcome_of (load_or_create_config w) = Ok tt /\
     config (self (world_of (load_or_create_config w))) = Some v /\
     config_last_modified (self (world_of (load_or_create_config w))) = mtime f) /\
  (forall f,
     outcome_of (start_combined_thread (with_fs f w))
     = outcome_of (start_combined_thread w) /\
     self (world_of (start_combined_thread (with_fs f w)))
     = self (world_of (start_combined_thread w))).
Proof.
  split; [ | split ].
  - intros H. rewrite (load_missing w H). split; [ reflexivity | ].
    split; [ reflexivity | ]. intros B k.
    unfold mbind, M_bind. rewrite (load_missing w H). split; reflexivity.
  - intros f v H Hc. rewrite (load_parses w f v H Hc). repeat split.
  - intros f. rewrite start_ignores_file. split; reflexivity.
Qed.

Lemma load_or_create_config_spec_witness :
  fs scenario_A = None /\
  outcome_of ((load_or_create_config ≫= fun _ => start_combined_thread) scenario_A)
  = Raise FileNotFoundError /\
  running (self (world_of
     ((load_or_create_config ≫= fun _ => start_combined_thread) scenario_A)))
  = false.
Proof.
  assert (H : fs scenario_A = None) by reflexivity.
  split; [ exact H | ].
  destruct (load_or_create_config_spec scenario_A) as (Hmiss & _).
  destruct (Hmiss H) as (_ & _ & Hk).
  destruct (Hk unit (fun _ => start_combined_thread)) as (Ho & Hw).
  split; [ exact Ho | ]. rewrite Hw. reflexivity.
Defined.

(** C5 as stated fails: with the file missing, [start_combined_thread]
    raises nothing, sets [running] and starts the loop thread. *)
Lemma start_with_missing_config_file :
  fs scenario_B = None /\
  outcome_of (load_or_create_config scenario_B) = Raise FileNotFoundError /\
  outcome_of (start_combined_thread scenario_B) = Ok tt /\
  running (self (world_of (start_combined_thread scenario_B))) = true /\
  alive (world_of (start_combined_thread scenario_B)) = [0%nat].
Proof. repeat split; vm_compute; reflexivity. Qed.

Section Watch.
Variable f : file.

Lemma watch_kept_refl (w : world) : watch_kept f w w.
Proof. now intros H. Qed.

Lemma watch_kept_trans (a b c : world) :
  watch_kept f a b -> watch_kept f b c -> watch_kept f a c.
Proof. intros H1 H2 H. apply H2, H1, H. Qed.

Lemma watch_emit (e : event) : preserves (watch_kept f) (emit e).
Proof. now intros w H. Qed.

Lemma watch_log (l : level) (m : string) : preserves (watch_kept f) (log l m).
Proof. apply watch_emit. Qed.

Lemma watch_modify_self (g : automation -> automation) :
  (forall a, config_last_modified (g a) = config_last_modified a) ->
  preserves (watch_kept f) (modify_self g).
Proof. intros Hg w [H1 H2]. cbn. rewrite Hg. now split. Qed.

Lemma watch_timer_start (d : Q) : preserves (watch_kept f) (timer_start d).
Proof. now intros w H. Qed.

Lemma watch_timer_cancel (id : nat) : preserves (watch_kept f) (timer_cancel id).
Proof. now intros w H. Qed.

Lemma watch_load_or_create_config :
  preserves (watch_kept f) load_or_create_config.
Proof.
  intros w [H1 H2]. unfold load_or_create_config. run. rewrite H1.
  destruct (content f); cbn; now split.
Qed.
End Watch.

Create HintDb watch.

#[local] Hint Resolve watch_log watch_timer_start watch_timer_cancel
  watch_load_or_create_config : watch.

Ltac watch :=
  repeat first
    [ match goal with
      | |- preserves (watch_kept ?f) _ =>
          preserve_step (watch_kept_refl f) (watch_kept_trans f)
      end
    | solve [ auto with watch ]
    | apply watch_emit
    | apply watch_modify_self; intros ?; reflexivity ].

Lemma watch_setup_automation (f : file) : preserves (watch_kept f) setup_automation.
Proof. unfold setup_automation. watch. Qed.

Lemma watch_schedule_next_run (f : file) : preserves (watch_kept f) _schedule_next_run.
Proof.
  unfold _schedule_next_run, _calculate_next_run_time, _get_next_run_delay. watch.
Qed.

#[local] Hint Resolve watch_setup_automation watch_schedule_next_run : watch.

Lemma watch_reload_body (f : file) : preserves (watch_kept f) reload_body.
Proof. unfold reload_body. watch. Qed.

(** A poll that finds the file absent only logs a warning. *)
Lemma check_absent (w : world) :
  fs w = None ->
  check_config_changes w
  = (Ok tt,
     with_trace (trace w ++ [EvLog WARNING "configuration file does not exist"]) w).
Proof. intros H. unfold check_config_changes, try_except. run. now rewrite H. Qed.

(** A poll that finds the modification time not after the recorded one
    does nothing at all. *)
Lemma check_unchanged (w : world) (f : file) :
  fs w = Some f -> (mtime f <= config_last_modified (self w))%Q ->
  check_config_changes w = (Ok tt, w).
Proof.
  intros H Hle. unfold check_config_changes, try_except. run. rewrite H.
  apply Qltb_ge in Hle. now rewrite Hle.
Qed.

(** A poll that finds a later modification time records it and then runs
    the reload; what the reload raises is logged and goes no further. *)
Lemma check_changed (w : world) (f : file) :
  fs w = Some f -> (config_last_modified (self w) < mtime f)%Q ->
  check_config_changes w
  = (Ok tt,
     match reload_body (reload_entry f w) with
     | (Ok _, w2) => w2
     | (Raise _, w2) =>
         with_trace
           (trace w2 ++ [EvLog ERROR "error while reloading the configuration"]) w2
     end).
Proof.
  intros H Hlt. unfold check_config_changes, try_except. run. rewrite H.
  apply Qltb_lt in Hlt. rewrite Hlt. cbn. fold (reload_entry f w).
  destruct (reload_body (reload_entry f w)) as [[[] | e] w2]; reflexivity.
Qed.

Lemma poll_fixed (w : world) (n : nat) :
  check_config_changes w = (Ok tt, w) -> poll n w = w.
Proof.
  intros H. induction n as [ | n IH ]; [ reflexivity | ].
  cbn [poll]. rewrite H. exact IH.
Qed.

(** C6, as the code has it. When a poll finds the file changed,
    [check_config_changes] records the new modification time before it
    runs the reload, so the reload starts from a state that already
    holds it. Whatever the reload then does, and in particular when it
    fails part of the way, the recorded time is that of the file
    afterwards, and polling the same unmodified file again, any number
    of times, changes nothing: no second reload. A failure of the reload
    is not passed on to the caller: it is caught, logged as an error,
    and [check_config_changes] returns normally. *)
Theorem reload_is_debounced (w : world) (f : file) :
  fs w = Some f ->
  (config_last_modified (self w) < mtime f)%Q ->
  let w' := world_of (check_config_changes w) in
  config_last_modified (self (reload_entry f w)) = mtime f /\
  check_config_changes w
  = (Ok tt,
     match reload_body (reload_entry f w) with
     | (Ok _, w2) => w2
     | (Raise _, w2) =>
         with_trace
           (trace w2 ++ [EvLog ERROR "error while reloading the configuration"]) w2
     end) /\
  fs w' = Some f /\
  config_last_modified (self w') = mtime f /\
  (forall n, poll n w' = w') /\
  (forall e w2, reload_body (reload_entry f w) = (Raise e, w2) ->
     outcome_of (check_config_changes w) = Ok tt /\
     last (trace w')
     = Some (EvLog ERROR "error while reloading the configuration")).
Proof.
  intros Hfs Hlt w'.
  pose proof (check_changed w f Hfs Hlt) as Hrun.
  assert (Hentry : fs (reload_entry f w) = Some f /\
                   config_last_modified (self (reload_entry f w)) = mtime f)
    by (split; [ exact Hfs | reflexivity ]).
  pose proof (watch_reload_body f (reload_entry f w) Hentry) as Hkept.
  assert (Hw' : fs w' = Some f /\ config_last_modified (self w') = mtime f).
  { subst w'. rewrite Hrun. unfold world_of in *.
    destruct (reload_body (reload_entry f w)) as [[[] | e] w2]; exact Hkept. }
  destruct Hw' as [Hfs' Hclm'].
  split; [ reflexivity | ]. split; [ exact Hrun | ].
  split; [ exact Hfs' | ]. split; [ exact Hclm' | ]. split.
  - intros n. apply poll_fixed. apply (check_unchanged w' f Hfs').
    rewrite Hclm'. apply Qle_refl.
  - intros e w2 Hraise. subst w'. rewrite Hrun, Hraise. split; [ reflexivity | ].
    cbn. apply last_snoc.
Qed.

Lemma reload_is_debounced_witness :
  fs broken_file_world = Some (mkfile 1704100000 None) /\
  (config_last_modified (self broken_file_world) < 1704100000)%Q /\
  config_last_modified (self (world_of (check_config_changes broken_file_world)))
  = 1704100000%Q /\
  poll 3 (world_of (check_config_changes broken_file_world))
  = world_of (check_config_changes broken_file_world).
Proof.
  assert (H1 : fs broken_file_world = Some (mkfile 1704100000 None))
    by reflexivity.
  assert (H2 : (config_last_modified (self broken_file_world)
                < mtime (mkfile 1704100000 None))%Q)
    by (vm_compute; reflexivity).
  split; [ exact H1 | ]. split; [ exact H2 | ].
  destruct (reload_is_debounced broken_file_world _ H1 H2)
    as (_ & _ & _ & Hclm & Hpoll & _).
  split; [ exact Hclm | apply Hpoll ].
Defined.

(** C6 as stated fails in its last part: the reload of a file that does
    not parse raises, and [check_config_changes] returns normally. *)
Lemma reload_failure_not_propagated :
  fs broken_file_world = Some (mkfile 1704100000 None) /\
  (config_last_modified (self broken_file_world) < 1704100000)%Q /\
  outcome_of (reload_body (reload_entry (mkfile 1704100000 None) broken_file_world))
  = Raise JSONDecodeError /\
  outcome_of (check_config_changes broken_file_world) = Ok tt.
Proof. repeat split; vm_compute; reflexivity. Qed.

Lemma check_returns (w : world) : outcome_of (check_config_changes w) = Ok tt.
Proof.
  destruct (fs w) as [f | ] eqn:Hfs.
  - destruct (Qlt_le_dec (config_last_modified (self w)) (mtime f)) as [Hlt | Hle].
    + now rewrite (check_changed w f Hfs Hlt).
    + now rewrite (check_unchanged w f Hfs Hle).
  - now rewrite (check_absent w Hfs).
Qed.

(* ================================================================== *)
(** * Arming the timer *)
(* ================================================================== *)

Lemma time_set_positive (t : Q) : (0 < t)%Q -> time_set (Some t) = true.
Proof.
  intros H. unfold time_set. apply negb_true_iff. apply not_true_iff_false.
  intros Heq. apply Qeq_bool_iff in Heq. rewrite Heq in H.
  now apply (Qlt_irrefl 0).
Qed.

#[local] Arguments time_set : simpl never.
#[local] Arguments timestamp : simpl never.
#[local] Arguments next_run : simpl never.
#[local] Arguments py_max : simpl never.

Lemma schedule_next_run_enabled (w : world) (sc : gmap string pyval) (h m : Z) :
  schedule_config (self w) = Some (VDict sc) ->
  enabled_at sc h m ->
  valid_datetime (clock w) ->
  (0 <= timestamp (clock w))%Q ->
  let t := timestamp (next_run (clock w) h m) in
  exists w' deadline,
    _schedule_next_run w = (Ok tt, w') /\
    next_run_time (self w') = Some t /\
    timer (self w') = Some (fresh w) /\
    deadline == t /\
    armed w' = disarm (timer (self w)) (armed w) ++ [(fresh w, deadline)] /\
    running (self w') = running (self w) /\
    schedule_config (self w') = schedule_config (self w) /\
    clock w' = clock w /\ fs w' = fs w /\ alive w' = alive w.
Proof.
  intros Hsc Hen Hnow Hepoch t.
  pose proof Hen as (_ & _ & _ & Hh & Hm).
  pose proof (next_run_future (clock w) h m Hnow Hh Hm) as Hfut. fold t in Hfut.
  assert (Hset : time_set (Some t) = true) by (apply time_set_positive; lra).
  assert (Hmax : py_max 0 (t - timestamp (clock w)) = (t - timestamp (clock w))%Q).
  { destruct (py_max_spec 0 (t - timestamp (clock w))) as [[_ H] | [H _]];
      [ exact H | lra ]. }
  exists (world_of (_schedule_next_run w)), (timestamp (clock w) + (t - timestamp (clock w)))%Q.
  unfold _schedule_next_run, world_of, disarm.
  destruct (timer (self w)) as [id | ] eqn:Htimer.
  - run. rewrite Htimer. unfold timer_cancel. cbn.
    match goal with
    | |- context [_calculate_next_run_time ?W] =>
        rewrite (calculate_enabled W sc h m Hsc Hen)
    end. cbn. fold t. rewrite Hset. cbn.
    unfold _get_next_run_delay. run. rewrite Hset. cbn. rewrite Hmax.
    repeat split. lra.
  - run. rewrite Htimer. cbn.
    rewrite (calculate_enabled w sc h m Hsc Hen).
    cbn. fold t. rewrite Hset. cbn.
    unfold _get_next_run_delay. run. rewrite Hset. cbn. rewrite Hmax.
    repeat split. lra.
Qed.

(* ================================================================== *)
(** * Who invokes the actuator *)
(* ================================================================== *)

#[local] Arguments _schedule_next_run : simpl never.

Lemma submission_returns (o : outcome) (w : world) :
  outcome_of
    (try_except
       (fill_health_form o;; mret tt)
       (fun _ => log ERROR "error while running the scheduled task") w)
  = Ok tt.
Proof. destruct o as [b | ]; reflexivity. Qed.

Lemma timer_callback_run (o : outcome) (w : world) :
  _timer_callback o w
  = (if running (self (after_submission o w))
     then _schedule_next_run else mret tt) (after_submission o w).
Proof.
  unfold _timer_callback, try_finally, after_submission, world_of.
  pose proof (submission_returns o w) as Hr. unfold outcome_of in Hr.
  destruct (try_except _ _ w) as [r w1]. cbn [fst snd] in *. subst r.
  unfold mbind, M_bind, get_self.
  destruct (running (self w1)).
  - destruct (_schedule_next_run w1) as [[[] | e] w2]; reflexivity.
  - reflexivity.
Qed.

Lemma after_submission_frame (o : outcome) (w : world) :
  let w1 := after_submission o w in
  self w1 = set_browser_config None (set_user_info None (self w)) /\
  fs w1 = fs w /\ clock w1 = clock w /\ armed w1 = armed w /\
  alive w1 = alive w /\ fresh w1 = fresh w /\
  count is_actuate (trace w1) = S (count is_actuate (trace w)).
Proof.
  unfold after_submission, world_of, count, try_except, fill_health_form,
    try_finally, _unload_non_essential_modules.
  destruct o as [b | ]; run; repeat split;
    rewrite ?List.filter_app, ?length_app; cbn; lia.
Qed.




(* ================================================================== *)
(** * Start and stop *)
(* ================================================================== *)

(** With an enabled schedule assigned, [start_combined_thread] sets
    [running] and starts one more loop thread, whether or not one is
    running already. *)
Lemma start_enabled (w : world) (sc : gmap string pyval) (h m : Z) :
  schedule_config (self w) = Some (VDict sc) ->
  enabled_at sc h m ->
  start_combined_thread w
  = (Ok tt,
     with_self (set_combined_thread (Some (fresh w)) (set_running true (self w)))
       (with_trace
          ((trace w ++ [EvLog INFO "scheduled task started"])
             ++ [EvThreadStart (fresh w)])
          (with_fresh (S (fresh w)) (with_alive (alive w ++ [fresh w]) w)))).
Proof.
  intros Hsc ((en & Hen & Ht) & Hh & Hm & _).
  unfold start_combined_thread. run. rewrite Hsc. cbn.
  unfold py_getitem. rewrite Hen. cbn. rewrite Ht, Hh, Hm. reflexivity.
Qed.

Lemma start_without_schedule (w : world) :
  schedule_config (self w) = None ->
  start_combined_thread w = (Raise AttributeError, w).
Proof. intros H. unfold start_combined_thread. run. now rewrite H. Qed.

(** C3 fails on the code: a second [start_combined_thread] on the
    running object is no no-op. It returns normally, starts a second
    loop thread and makes it the [combined_thread]; both loops are alive
    and, once entered, both run [combined_loop]. The second loop's entry
    cancels the timer of the first and arms its own, so one timer stays
    armed. *)
Theorem start_twice_starts_two_loops :
  let w1 := world_of (start_combined_thread scenario_B) in
  let w2 := world_of (start_combined_thread w1) in
  let w3 := world_of (combined_loop 0 (world_of (combined_loop 0 w2))) in
  running (self w1) = true /\ alive w1 = [0%nat] /\
  outcome_of (start_combined_thread w1) = Ok tt /\
  w2 <> w1 /\
  alive w2 = [0%nat; 1%nat] /\
  count is_thread_start (trace w2) = 2%nat /\
  combined_thread (self w2) = Some 1%nat /\
  length (armed w3) = 1%nat.
Proof.
  cbv zeta. split; [ reflexivity | ]. split; [ reflexivity | ].
  split; [ reflexivity | ]. split.
  - intros H. apply (f_equal alive) in H. vm_compute in H. discriminate.
  - repeat split; vm_compute; reflexivity.
Qed.

Lemma filter_all_held (id : nat) (l : list (nat * Q)) :
  (forall p, In p l -> fst p = id) ->
  List.filter (fun p => negb (Nat.eqb (fst p) id)) l = [].
Proof.
  induction l as [ | p l IH ]; intros H; [ reflexivity | ].
  cbn. rewrite (H p (or_introl eq_refl)), Nat.eqb_refl. cbn.
  apply IH. intros q Hq. apply H. now right.
Qed.

(** When the object owns every armed timer, cancelling the one it holds
    leaves none armed. *)
Lemma owned_disarm (w : world) :
  timers_owned w -> disarm (timer (self w)) (armed w) = [].
Proof.
  unfold timers_owned, disarm. intros H.
  destruct (timer (self w)) as [id | ] eqn:Ht.
  - apply filter_all_held. intros [i d] Hin. specialize (H i d Hin).
    cbn. congruence.
  - destruct (armed w) as [ | [i d] l ]; [ reflexivity | ].
    specialize (H i d (or_introl eq_refl)). discriminate.
Qed.

Lemma existsb_eqb_In (id : nat) (l : list nat) :
  existsb (Nat.eqb id) l = true <-> In id l.
Proof.
  rewrite existsb_exists. split.
  - intros (x & Hin & Heq). apply Nat.eqb_eq in Heq. now subst x.
  - intros Hin. exists id. split; [ exact Hin | apply Nat.eqb_refl ].
Qed.

Lemma not_In_filter_out (id : nat) (l : list nat) :
  ~ In id (List.filter (fun t => negb (Nat.eqb t id)) l).
Proof.
  intros H. apply filter_In in H as [_ H]. now rewrite Nat.eqb_refl in H.
Qed.

Ltac split_eqs :=
  repeat match goal with
         | |- _ = _ /\ _ => split; [ first [ reflexivity | assumption ] | ]
         | |- (_ <> _ -> _) /\ _ =>
             split; [ intros ?; first [ reflexivity | congruence ] | ]
         end.

Lemma stop_running (w : world) (ended : bool) :
  running (self w) = true ->
  exists w1,
    stop_combined_thread ended w = (Ok tt, w1) /\
    running (self w1) = false /\
    timer (self w1) = None /\
    armed w1 = disarm (timer (self w)) (armed w) /\
    config (self w1) = None /\
    schedule_config (self w1) = None /\
    user_info (self w1) = None /\
    browser_config (self w1) = None /\
    clock w1 = clock w /\ fs w1 = fs w /\
    fresh w1 = fresh w /\
    (timer (self w) <> None -> next_run_time (self w1) = None) /\
    (forall id, combined_thread (self w) = Some id -> In id (alive w) ->
       In (EvThreadJoin id 5) (trace w1) /\
       (ended = true -> ~ In id (alive w1))).
Proof.
  intros Hr. exists (world_of (stop_combined_thread ended w)).
  unfold stop_combined_thread, world_of, _unload_non_essential_modules, disarm.
  run. rewrite Hr.
  destruct (timer (self w)) as [tid | ] eqn:Ht;
    destruct (combined_thread (self w)) as [cid | ] eqn:Hc; cbn.
  1, 3: destruct (existsb (Nat.eqb cid) (alive w)) eqn:Hex;
    destruct ended; unfold emit; cbn; split_eqs;
    intros id Hid Hin; injection Hid as <-;
    try (apply existsb_eqb_In in Hin; congruence);
    (split; [ rewrite !in_app_iff; cbn; tauto | ]);
    first [ intros _; apply not_In_filter_out | discriminate ].
  all: unfold emit; cbn; split_eqs; intros id Hid; discriminate.
Qed.

Lemma combined_loop_entry (w : world) :
  combined_loop 0 w
  = _schedule_next_run
      (with_trace
         (trace w ++ [EvLog INFO "scheduling and monitoring thread started"]) w).
Proof.
  unfold combined_loop. run.
  match goal with |- context [_schedule_next_run ?W] =>
    destruct (_schedule_next_run W) as [[[] | e] w2] end; reflexivity.
Qed.

(** C8, as the code has it. [stop_combined_thread] on a running object
    whose armed timers are its own returns normally: it clears
    [running], cancels the timer it holds, which leaves no timer armed,
    joins the loop thread with a timeout of 5 seconds when it is alive,
    and deletes [config] and [schedule_config]. A start that follows
    immediately therefore raises AttributeError. Once an enabled
    schedule has been assigned to [schedule_config] again, as the front
    end does before it starts the scheduler, [start_combined_thread]
    sets [running] and starts one loop thread, and the entry of that
    loop stores a fresh next run time, strictly after now, and arms
    exactly one timer for it: no timer of the run before is armed. (The
    clock is taken not to be before the epoch: the code reads a next run
    time of 0.0 as none.) *)
Theorem stop_then_start (w : world) (ended : bool)
    (sc : gmap string pyval) (h m : Z) :
  running (self w) = true ->
  timers_owned w ->
  enabled_at sc h m ->
  valid_datetime (clock w) ->
  (0 <= timestamp (clock w))%Q ->
  let t := timestamp (next_run (clock w) h m) in
  let w1 := world_of (stop_combined_thread ended w) in
  let w2 := world_of ((assign_schedule_config (VDict sc);; start_combined_thread) w1) in
  let w3 := world_of (combined_loop 0 w2) in
  (outcome_of (stop_combined_thread ended w) = Ok tt /\
   running (self w1) = false /\ timer (self w1) = None /\ armed w1 = [] /\
   config (self w1) = None /\ schedule_config (self w1) = None /\
   forall id, combined_thread (self w) = Some id -> In id (alive w) ->
     In (EvThreadJoin id 5) (trace w1)) /\
  outcome_of (start_combined_thread w1) = Raise AttributeError /\
  (outcome_of ((assign_schedule_config (VDict sc);; start_combined_thread) w1)
   = Ok tt /\
   running (self w2) = true /\ alive w2 = alive w1 ++ [fresh w1] /\
   armed w2 = []) /\
  (outcome_of (combined_loop 0 w2) = Ok tt /\
   next_run_time (self w3) = Some t /\
   (timestamp (clock w) < t)%Q /\
   exists id deadline,
     deadline == t /\ armed w3 = [(id, deadline)] /\ timer (self w3) = Some id).
Proof.
  intros Hr Hown Hen Hnow Hepoch. cbv zeta.
  destruct (stop_running w ended Hr)
    as (w1 & Hstop & Hrun1 & Htimer1 & Harmed1 & Hcfg1 & Hsc1 & _ & _
        & Hclock1 & _ & _ & _ & Hjoin).
  rewrite (owned_disarm w Hown) in Harmed1.
  rewrite Hstop. change (world_of (Ok tt, w1)) with w1.
  set (w1s := with_self (set_schedule_config (Some (VDict sc)) (self w1)) w1).
  assert (Hsc2 : schedule_config (self w1s) = Some (VDict sc)) by reflexivity.
  assert (Hstart : (assign_schedule_config (VDict sc);; start_combined_thread) w1
                   = start_combined_thread w1s) by reflexivity.
  rewrite Hstart, (start_enabled w1s sc h m Hsc2 Hen).
  unfold world_of, outcome_of. cbn [fst snd].
  pose proof Hen as (_ & _ & _ & Hh & Hm).
  split; [ | split; [ | split ] ].
  - repeat split; try assumption.
    intros id Hid Hin. now apply (Hjoin id Hid Hin).
  - now rewrite (start_without_schedule w1 Hsc1).
  - cbn. repeat split. exact Harmed1.
  - rewrite combined_loop_entry.
    match goal with |- context [_schedule_next_run ?W] =>
      destruct (schedule_next_run_enabled W sc h m)
        as (w3 & deadline & Heq & Hnrt & Htm & Hdl & Harm & _)
    end.
    + reflexivity.
    + exact Hen.
    + cbn. rewrite Hclock1. exact Hnow.
    + cbn. rewrite Hclock1. exact Hepoch.
    + rewrite Heq. cbn [fst snd].
      cbn in Hnrt, Hdl, Harm, Htm.
      rewrite Hclock1 in Hnrt, Hdl. rewrite Htimer1, Harmed1 in Harm.
      cbn in Harm.
      split; [ reflexivity | ]. split; [ exact Hnrt | ].
      split; [ now apply next_run_future | ].
      eexists _, deadline. split; [ exact Hdl | ]. split; [ exact Harm | ].
      exact Htm.
Qed.

(* ================================================================== *)
(** * The object owns the armed timers *)
(* ================================================================== *)

Lemma unchanged_refl (w : world) : unchanged w w.
Proof. reflexivity. Qed.

Lemma unchanged_trans (a b c : world) :
  unchanged a b -> unchanged b c -> unchanged a c.
Proof. unfold unchanged. congruence. Qed.

(** [_calculate_next_run_time] only reads. *)
Lemma calculate_pure : preserves unchanged _calculate_next_run_time.
Proof.
  unfold _calculate_next_run_time.
  repeat preserve_step unchanged_refl unchanged_trans.
Qed.

Lemma owned_kept_refl (w : world) : owned_kept w w.
Proof. now intros H. Qed.

Lemma owned_kept_trans (a b c : world) :
  owned_kept a b -> owned_kept b c -> owned_kept a c.
Proof. intros H1 H2 H. apply H2, H1, H. Qed.

Lemma owned_emit (e : event) : preserves owned_kept (emit e).
Proof. now intros w H. Qed.

Lemma owned_log (l : level) (m : string) : preserves owned_kept (log l m).
Proof. apply owned_emit. Qed.

Lemma owned_modify_self (g : automation -> automation) :
  (forall a, timer (g a) = timer a) -> preserves owned_kept (modify_self g).
Proof.
  intros Hg w H id d Hin. cbn in *. rewrite Hg. now apply (H id d).
Qed.

Lemma owned_thread_start : preserves owned_kept thread_start.
Proof. now intros w H. Qed.

Lemma owned_thread_join (id : nat) (t : Q) (ended : bool) :
  preserves owned_kept (thread_join id t ended).
Proof. intros w H. unfold thread_join, world_of. cbn. now destruct ended. Qed.

Lemma owned_wake : preserves owned_kept
  (fun w => match future w with
            | t :: rest => (Ok tt, with_env t rest w)
            | [] => (Ok tt, w)
            end).
Proof. intros w H. unfold world_of. now destruct (future w). Qed.

Lemma owned_no_timer (w : world) : armed w = [] -> timers_owned w.
Proof. intros H id d Hin. rewrite H in Hin. destruct Hin. Qed.

Lemma owned_schedule_next_run : preserves owned_kept _schedule_next_run.
Proof.
  intros w Hown. pose proof (owned_disarm w Hown) as Hd.
  unfold _schedule_next_run, world_of, disarm in *. run.
  destruct (timer (self w)) as [tid | ] eqn:Ht; unfold timer_cancel; cbn;
    match goal with
    | |- context [_calculate_next_run_time ?W] =>
        pose proof (calculate_pure W) as Hp;
        destruct (_calculate_next_run_time W) as [[t | e] w'];
        unfold world_of, unchanged in Hp; cbn in Hp; subst w'; cbn
    end;
    try (apply owned_no_timer; cbn; assumption);
    (destruct (time_set t); cbn;
     [ | apply owned_no_timer; cbn; assumption ]);
    match goal with
    | |- context [_get_next_run_delay ?W] =>
        rewrite (get_next_run_delay_run W)
    end; cbn;
    intros id d Hin; cbn in Hin; rewrite Hd in Hin;
    destruct Hin as [Hin | []]; now injection Hin as <- _.
Qed.

Create HintDb owned.

#[local] Hint Resolve owned_log owned_thread_start owned_thread_join
  owned_wake owned_schedule_next_run : owned.

Ltac owned :=
  repeat first
    [ preserve_step owned_kept_refl owned_kept_trans
    | solve [ auto with owned ]
    | apply owned_emit
    | apply owned_modify_self; intros ?; reflexivity ].

Lemma owned_sleep (d : Q) : preserves owned_kept (sleep d).
Proof. unfold sleep. owned. Qed.

Lemma owned_load_or_create_config : preserves owned_kept load_or_create_config.
Proof. unfold load_or_create_config. owned. Qed.

#[local] Hint Resolve owned_sleep owned_load_or_create_config : owned.

Lemma owned_setup_automation : preserves owned_kept setup_automation.
Proof. unfold setup_automation. owned. Qed.

Lemma owned_fill_health_form (o : outcome) :
  preserves owned_kept (fill_health_form o).
Proof. unfold fill_health_form, _unload_non_essential_modules. owned. Qed.

Lemma owned_get_next_run_delay : preserves owned_kept _get_next_run_delay.
Proof. unfold _get_next_run_delay. owned. Qed.

#[local] Hint Resolve owned_setup_automation owned_fill_health_form
  owned_get_next_run_delay : owned.

Lemma owned_check_config_changes : preserves owned_kept check_config_changes.
Proof. unfold check_config_changes, reload_body. owned. Qed.

#[local] Hint Resolve owned_check_config_changes : owned.

Lemma owned_loop_iteration (last : Q) : preserves owned_kept (loop_iteration last).
Proof. unfold loop_iteration. owned. Qed.

#[local] Hint Resolve owned_loop_iteration : owned.

Lemma owned_loop_while (fuel : nat) (last : Q) :
  preserves owned_kept (loop_while fuel last).
Proof.
  revert last. induction fuel as [ | n IH ]; intros last; cbn [loop_while]; owned.
Qed.

#[local] Hint Resolve owned_loop_while : owned.

Lemma owned_combined_loop (fuel : nat) : preserves owned_kept (combined_loop fuel).
Proof. unfold combined_loop. owned. Qed.

Lemma owned_start_combined_thread : preserves owned_kept start_combined_thread.
Proof. unfold start_combined_thread. owned. Qed.

Lemma owned_timer_callback (o : outcome) : preserves owned_kept (_timer_callback o).
Proof. unfold _timer_callback. owned. Qed.

Lemma owned_timer_fires (id : nat) (o : outcome) :
  preserves owned_kept (timer_fires id o).
Proof.
  intros w H. unfold timer_fires.
  destruct (existsb _ (armed w)); [ | exact H ].
  apply owned_timer_callback. intros i d Hin. cbn in *.
  apply filter_In in Hin as [Hin _]. now apply (H i d).
Qed.

Lemma owned_stop_combined_thread (ended : bool) :
  preserves owned_kept (stop_combined_thread ended).
Proof.
  intros w H. destruct (running (self w)) eqn:Hr.
  - destruct (stop_running w ended Hr) as (w1 & Hstop & _ & _ & Harmed & _).
    rewrite Hstop. apply owned_no_timer. cbn.
    now rewrite Harmed, (owned_disarm w H).
  - unfold stop_combined_thread, world_of. run. now rewrite Hr.
Qed.

(** Every world the object can get into from its construction has all
    the armed timers held by the object. *)
Lemma step_owned (w w' : world) : step w w' -> owned_kept w w'.
Proof.
  intros [ w0 | w0 | v w0 | o w0 | w0 | ended w0 | fuel w0 | last w0 | w0
         | id o w0 | t rest w0 ].
  - apply owned_load_or_create_config.
  - apply owned_setup_automation.
  - apply owned_modify_self. reflexivity.
  - apply owned_fill_health_form.
  - apply owned_start_combined_thread.
  - apply owned_stop_combined_thread.
  - apply owned_combined_loop.
  - apply owned_loop_iteration.
  - apply owned_check_config_changes.
  - apply owned_timer_fires.
  - now intros H.
Qed.

Lemma reachable_timers_owned (w : world) : reachable w -> timers_owned w.
Proof.
  induction 1 as [ f now ticks | w w' _ IH Hstep ].
  - apply owned_no_timer. reflexivity.
  - now apply (step_owned w w').
Qed.

Lemma armed_world_reachable : reachable armed_world.
Proof.
  unfold armed_world.
  apply reachable_step with (world_of (start_combined_thread scenario_B));
    [ | apply step_loop ].
  apply reachable_step with scenario_B; [ | apply step_start ].
  apply reachable_step with (init_world None (datetime_of 2024 1 1 9 0 0 0) []);
    [ apply reachable_init | ].
  apply (step_assign (VDict (schedule_of true 10 30))).
Qed.

Lemma stop_then_start_witness :
  running (self armed_world) = true /\
  timers_owned armed_world /\
  enabled_at (schedule_of true 10 30) 10 30 /\
  valid_datetime (clock armed_world) /\
  (0 <= timestamp (clock armed_world))%Q /\
  armed (world_of (stop_combined_thread true armed_world)) = [] /\
  next_run_time
    (self (world_of (combined_loop 0
       (world_of ((assign_schedule_config (VDict (schedule_of true 10 30));;
                   start_combined_thread)
                    (world_of (stop_combined_thread true armed_world)))))))
  = Some (timestamp (next_run (clock armed_world) 10 30)).
Proof.
  assert (H1 : running (self armed_world) = true) by reflexivity.
  assert (H2 : timers_owned armed_world)
    by (apply reachable_timers_owned, armed_world_reachable).
  assert (H3 : enabled_at (schedule_of true 10 30) 10 30)
    by (apply enabled_at_schedule_of; lia).
  assert (H4 : valid_datetime (clock armed_world))
    by (unfold valid_datetime; repeat split; vm_compute; discriminate).
  assert (H5 : (0 <= timestamp (clock armed_world))%Q)
    by (vm_compute; discriminate).
  split; [ exact H1 | ]. split; [ exact H2 | ]. split; [ exact H3 | ].
  split; [ exact H4 | ]. split; [ exact H5 | ].
  destruct (stop_then_start armed_world true (schedule_of true 10 30)
              10%Z 30%Z H1 H2 H3 H4 H5)
    as ((_ & _ & _ & Harmed & _) & _ & _ & (_ & Hnrt & _)).
  split; [ exact Harmed | exact Hnrt ].
Defined.

(** C8 as stated fails: the start that immediately follows the stop of
    the running scheduler raises AttributeError and starts nothing. *)
Lemma start_right_after_stop_raises :
  running (self armed_world) = true /\
  schedule_config (self armed_world) = Some (VDict (schedule_of true 10 30)) /\
  outcome_of (stop_combined_thread true armed_world) = Ok tt /\
  outcome_of (start_combined_thread
                (world_of (stop_combined_thread true armed_world)))
  = Raise AttributeError /\
  running (self (world_of (start_combined_thread
                   (world_of (stop_combined_thread true armed_world)))))
  = false.
Proof. repeat split; vm_compute; reflexivity. Qed.

(* ================================================================== *)
(** * Start and stop at their edges *)
(* ================================================================== *)

(** X1. [start_combined_thread] is all or nothing. When it raises (no
    [schedule_config], a missing key, an hour or minute that does not
    format as an integer) the world is left exactly as it was. When it
    returns it has either only logged that the schedule is off, which is
    what it does whenever ["enabled"] is falsy, or set [running] and
    started exactly one loop thread, recorded in [combined_thread]. A
    schedule without the key ["enabled"] is an error here (KeyError). *)
Theorem start_all_or_nothing (w : world) :
  let r := start_combined_thread w in
  (forall e, outcome_of r = Raise e -> world_of r = w) /\
  (outcome_of r = Ok tt ->
     world_of r
     = with_trace (trace w ++ [EvLog INFO "scheduled task not enabled"]) w \/
     (running (self (world_of r)) = true /\
      alive (world_of r) = alive w ++ [fresh w] /\
      combined_thread (self (world_of r)) = Some (fresh w) /\
      count is_thread_start (trace (world_of r))
      = S (count is_thread_start (trace w)))) /\
  (forall sc en,
     schedule_config (self w) = Some (VDict sc) ->
     sc !! "enabled" = Some en -> truthy en = false ->
     r = (Ok tt,
          with_trace (trace w ++ [EvLog INFO "scheduled task not enabled"]) w)) /\
  (forall sc,
     schedule_config (self w) = Some (VDict sc) ->
     sc !! "enabled" = None ->
     r = (Raise KeyError, w)).
Proof.
  cbv zeta. unfold start_combined_thread, outcome_of, world_of. run.
  split; [ | split; [ | split ] ].
  - intros e.
    destruct (schedule_config (self w)) as [sc | ]; [ | reflexivity ].
    destruct (py_getitem sc "enabled") as [en | ]; [ | reflexivity ]. cbn.
    destruct (truthy en); [ | discriminate ]. cbn.
    destruct (py_getitem sc "hour") as [hour | ]; [ | reflexivity ]. cbn.
    destruct (py_getitem sc "minute") as [minute | ]; [ | reflexivity ]. cbn.
    destruct (format_02d hour); [ | reflexivity ]. cbn.
    destruct (format_02d minute); [ discriminate | reflexivity ].
  - destruct (schedule_config (self w)) as [sc | ]; [ | discriminate ].
    destruct (py_getitem sc "enabled") as [en | ]; [ | discriminate ]. cbn.
    destruct (truthy en); [ | now left ]. cbn.
    destruct (py_getitem sc "hour") as [hour | ]; [ | discriminate ]. cbn.
    destruct (py_getitem sc "minute") as [minute | ]; [ | discriminate ]. cbn.
    destruct (format_02d hour); [ | discriminate ]. cbn.
    destruct (format_02d minute); [ | discriminate ]. cbn.
    intros _. right. repeat split.
    unfold count. rewrite !List.filter_app, !length_app. cbn. lia.
  - intros sc en Hsc Hen Ht. rewrite Hsc. cbn. rewrite Hen. cbn. now rewrite Ht.
  - intros sc Hsc Hen. rewrite Hsc. cbn. now rewrite Hen.
Qed.

(** X2. [stop_combined_thread] always returns and leaves the object not
    running. On an object that is not running it only writes its first
    log line; so a second stop, right after any stop, changes nothing
    else: no timer is cancelled, no thread is joined, no attribute is
    deleted again. *)
Theorem stop_twice (w : world) (ended ended' : bool) :
  let w1 := world_of (stop_combined_thread ended w) in
  outcome_of (stop_combined_thread ended w) = Ok tt /\
  running (self w1) = false /\
  (running (self w) = false ->
     w1 = with_trace
            (trace w ++ [EvLog INFO
               "about to stop the scheduling and monitoring thread"]) w) /\
  stop_combined_thread ended' w1
  = (Ok tt,
     with_trace
       (trace w1 ++ [EvLog INFO
          "about to stop the scheduling and monitoring thread"]) w1).
Proof.
  cbv zeta.
  assert (Hidle : forall (v : world) (b : bool), running (self v) = false ->
            stop_combined_thread b v
            = (Ok tt,
               with_trace
                 (trace v ++ [EvLog INFO
                    "about to stop the scheduling and monitoring thread"]) v)).
  { intros v b Hv. unfold stop_combined_thread. run. now rewrite Hv. }
  destruct (running (self w)) eqn:Hr.
  - destruct (stop_running w ended Hr) as (w1 & Hstop & Hrun1 & _).
    rewrite Hstop. unfold outcome_of, world_of. cbn [fst snd].
    split; [ reflexivity | ]. split; [ exact Hrun1 | ].
    split; [ discriminate | ]. now apply Hidle.
  - rewrite (Hidle w ended Hr). unfold outcome_of, world_of. cbn [fst snd].
    split; [ reflexivity | ]. split; [ exact Hr | ].
    split; [ reflexivity | ]. now apply Hidle.
Qed.

(* ================================================================== *)
(** * The schedule at its edges *)
(* ================================================================== *)

Lemma calculate_edges (w : world) :
  world_of (_calculate_next_run_time w) = w /\
  (schedule_config (self w) = None ->
     outcome_of (_calculate_next_run_time w) = Raise AttributeError) /\
  (forall sc, schedule_config (self w) = Some (VDict sc) ->
     (sc !! "enabled" = None ->
        outcome_of (_calculate_next_run_time w) = Ok None) /\
     (forall en, sc !! "enabled" = Some en ->
        (truthy en = false ->
           outcome_of (_calculate_next_run_time w) = Ok None) /\
        (truthy en = true ->
           (sc !! "hour" = None ->
              outcome_of (_calculate_next_run_time w) = Raise KeyError) /\
           (forall hour, sc !! "hour" = Some hour -> sc !! "minute" = None ->
              outcome_of (_calculate_next_run_time w) = Raise KeyError) /\
           (forall h m, sc !! "hour" = Some (VInt h) ->
              sc !! "minute" = Some (VInt m) ->
              (c_int h = false \/ c_int m = false ->
                 outcome_of (_calculate_next_run_time w) = Raise OverflowError) /\
              (c_int h = true -> c_int m = true ->
                 ~ ((0 <= h <= 23)%Z /\ (0 <= m <= 59)%Z) ->
                 outcome_of (_calculate_next_run_time w) = Raise ValueError))))).
Proof.
  split; [ apply calculate_pure | ].
  unfold _calculate_next_run_time, outcome_of. run. split.
  - intros H. now rewrite H.
  - intros sc Hsc. rewrite Hsc. split.
    + intros Hen. destruct (truthy (VDict sc)); [ | reflexivity ]. cbn.
      unfold py_get. now rewrite Hen.
    + intros en Hen. rewrite (lookup_truthy _ _ _ Hen). cbn.
      unfold py_get, py_getitem. rewrite Hen. cbn. split.
      * intros Ht. now rewrite Ht.
      * intros Ht. rewrite Ht. cbn. split; [ | split ].
        -- intros Hh. now rewrite Hh.
        -- intros hour Hh Hm. now rewrite Hh, Hm.
        -- intros h m Hh Hm. rewrite Hh, Hm. cbn. split.
           ++ intros [Ho | Ho].
              ** now rewrite Ho.
              ** rewrite Ho. now destruct (c_int h).
           ++ intros Hch Hcm Hrange. rewrite Hch, Hcm. cbn.
              unfold dt_replace_time.
              destruct ((0 <=? h) && (h <=? 23) && (0 <=? m) && (m <=? 59))%Z eqn:E.
              ** exfalso. apply Hrange.
                 apply andb_prop in E as [E E4]. apply andb_prop in E as [E E3].
                 apply andb_prop in E as [E1 E2].
                 apply Z.leb_le in E1, E2, E3, E4. lia.
              ** reflexivity.
Qed.

(** X3. [_calculate_next_run_time] only reads: it never changes the
    object. Without a [schedule_config] it raises AttributeError. With a
    schedule dictionary it returns None when ["enabled"] is missing or
    falsy; with the schedule on it raises KeyError when ["hour"] or
    ["minute"] is missing, OverflowError when one of the integers given
    does not fit a C int, and ValueError when they fit but are not an
    hour in [0,23] and a minute in [0,59]. *)
Theorem calculate_next_run_time_edges (w : world) :
  world_of (_calculate_next_run_time w) = w /\
  (schedule_config (self w) = None ->
     outcome_of (_calculate_next_run_time w) = Raise AttributeError) /\
  (forall sc, schedule_config (self w) = Some (VDict sc) ->
     (sc !! "enabled" = None ->
        outcome_of (_calculate_next_run_time w) = Ok None) /\
     (forall en, sc !! "enabled" = Some en ->
        (truthy en = false ->
           outcome_of (_calculate_next_run_time w) = Ok None) /\
        (truthy en = true ->
           (sc !! "hour" = None ->
              outcome_of (_calculate_next_run_time w) = Raise KeyError) /\
           (forall hour, sc !! "hour" = Some hour -> sc !! "minute" = None ->
              outcome_of (_calculate_next_run_time w) = Raise KeyError) /\
           (forall h m, sc !! "hour" = Some (VInt h) ->
              sc !! "minute" = Some (VInt m) ->
              (c_int h = false \/ c_int m = false ->
                 outcome_of (_calculate_next_run_time w) = Raise OverflowError) /\
              (c_int h = true -> c_int m = true ->
                 ~ ((0 <= h <= 23)%Z /\ (0 <= m <= 59)%Z) ->
                 outcome_of (_calculate_next_run_time w) = Raise ValueError))))).
Proof. exact (calculate_edges w). Qed.

Lemma dt_compare_add_days (a b : datetime) (n : Z) :
  dt_compare (dt_add_days a n) (dt_add_days b n) = dt_compare a b.
Proof.
  unfold dt_compare, dt_fields, dt_add_days. cbn.
  now rewrite (Z.add_comm (dt_ordinal a)), (Z.add_comm (dt_ordinal b)),
    Z.add_compare_mono_l.
Qed.

(** The naive datetime of the next run is not after now plus one day. *)
Lemma next_run_within_day (now : datetime) (h m : Z) :
  dt_compare (next_run now h m) (dt_add_days now 1) <> Gt.
Proof.
  unfold next_run, dt_ge.
  destruct (dt_compare now (candidate now h m)) eqn:E.
  - rewrite dt_compare_add_days, dt_compare_antisym, E. discriminate.
  - unfold dt_compare, dt_fields, dt_add_days, candidate. cbn.
    replace (dt_ordinal now ?= dt_ordinal now + 1)%Z with Lt
      by (symmetry; apply Z.compare_lt_iff; lia).
    discriminate.
  - rewrite dt_compare_add_days, dt_compare_antisym, E. discriminate.
Qed.



(** What [_schedule_next_run] does around the schedule computation: the
    held timer is cancelled first; then the computed time is stored, or
    the exception goes up with the old time still stored. *)
Lemma schedule_next_run_cases (w : world) :
  let w' := world_of (_schedule_next_run w) in
  match outcome_of (_calculate_next_run_time w) with
  | Raise e =>
      outcome_of (_schedule_next_run w) = Raise e /\
      next_run_time (self w') = next_run_time (self w) /\
      timer (self w') = None /\
      armed w' = disarm (timer (self w)) (armed w) /\
      count is_timer_start (trace w') = count is_timer_start (trace w)
  | Ok t =>
      outcome_of (_schedule_next_run w) = Ok tt /\
      next_run_time (self w') = t /\
      (time_set t = false ->
         timer (self w') = None /\
         armed w' = disarm (timer (self w)) (armed w) /\
         count is_timer_start (trace w') = count is_timer_start (trace w)) /\
      (time_set t = true ->
         timer (self w') = Some (fresh w) /\
         (exists deadline,
            armed w' = disarm (timer (self w)) (armed w) ++ [(fresh w, deadline)]) /\
         count is_timer_start (trace w') = S (count is_timer_start (trace w)))
  end.
Proof.
  cbv zeta.
  assert (Hsame : forall v, schedule_config (self v) = schedule_config (self w) ->
            clock v = clock w ->
            outcome_of (_calculate_next_run_time v)
            = outcome_of (_calculate_next_run_time w)).
  { intros v Hs Hc. unfold _calculate_next_run_time, outcome_of. run.
    rewrite Hs. destruct (schedule_config (self w)) as [sc | ]; [ | reflexivity ].
    cbn. destruct (truthy sc); [ | reflexivity ]. cbn.
    destruct (py_get sc "enabled" (VBool false)) as [en | ]; [ | reflexivity ].
    cbn. destruct (truthy en); [ | reflexivity ]. cbn.
    destruct (py_getitem sc "hour") as [hour | ]; [ | reflexivity ].
    destruct (py_getitem sc "minute") as [minute | ]; [ | reflexivity ].
    destruct (py_index hour) as [h | ]; [ | reflexivity ].
    destruct (py_index minute) as [m | ]; [ | reflexivity ].
    rewrite Hc. destruct (dt_replace_time (clock w) h m 0 0); reflexivity. }
  assert (Hrel : forall v, schedule_config (self v) = schedule_config (self w) ->
            clock v = clock w ->
            _calculate_next_run_time v
            = (outcome_of (_calculate_next_run_time w), v)).
  { intros v Hs Hc. rewrite <- (Hsame v Hs Hc).
    pose proof (calculate_pure v) as Hp. unfold world_of, unchanged, outcome_of in *.
    destruct (_calculate_next_run_time v) as [r v']. cbn in *. now subst v'. }
  clear Hsame. remember (outcome_of (_calculate_next_run_time w)) as o eqn:Eo.
  clear Eo.
  unfold _schedule_next_run, world_of, outcome_of, disarm. run.
  destruct (timer (self w)) as [tid | ] eqn:Ht; unfold timer_cancel; cbn;
    match goal with
    | |- context [_calculate_next_run_time ?W] =>
        rewrite (Hrel W eq_refl eq_refl)
    end; destruct o as [t | e]; cbn;
    try (destruct (time_set t) eqn:Hset; cbn;
         [ match goal with
           | |- context [_get_next_run_delay ?W] =>
               rewrite (get_next_run_delay_run W)
           end; cbn;
           split; [ reflexivity | split; [ reflexivity | ] ];
           split; [ discriminate | intros _ ]
         | split; [ reflexivity | split; [ reflexivity | ] ];
           split; [ intros _ | discriminate ] ]);
    repeat split; try assumption; try (eexists; reflexivity);
    unfold count; rewrite ?List.filter_app, ?length_app; cbn; lia.
Qed.

(** X5. With the schedule switched off (["enabled"] missing or falsy),
    [_schedule_next_run] returns normally, cancels the timer the object
    holds, stores no next run time and arms nothing. *)
Theorem schedule_next_run_disabled (w : world) (sc : gmap string pyval) :
  schedule_config (self w) = Some (VDict sc) ->
  (sc !! "enabled" = None \/
   exists en, sc !! "enabled" = Some en /\ truthy en = false) ->
  let w' := world_of (_schedule_next_run w) in
  outcome_of (_schedule_next_run w) = Ok tt /\
  next_run_time (self w') = None /\
  timer (self w') = None /\
  armed w' = disarm (timer (self w)) (armed w) /\
  count is_timer_start (trace w') = count is_timer_start (trace w) /\
  (timers_owned w -> armed w' = []).
Proof.
  intros Hsc Hoff w'.
  destruct (calculate_edges w) as (_ & _ & Hdict).
  destruct (Hdict sc Hsc) as (Hmissing & Hfalsy).
  assert (Hnone : outcome_of (_calculate_next_run_time w) = Ok None).
  { destruct Hoff as [Hen | (en & Hen & Ht)];
      [ now apply Hmissing | now apply (Hfalsy en Hen) ]. }
  pose proof (schedule_next_run_cases w) as Hcases. cbv zeta in Hcases.
  rewrite Hnone in Hcases. destruct Hcases as (Hok & Hnrt & Hrest & _).
  destruct (Hrest eq_refl) as (Htimer & Harmed & Hcount).
  subst w'. repeat split; try assumption.
  intros Hown. rewrite Harmed. now apply owned_disarm.
Qed.

Lemma schedule_next_run_disabled_witness :
  schedule_config (self disabled_world) = Some (VDict (schedule_of false 10 30)) /\
  (exists en, schedule_of false 10 30 !! "enabled" = Some en /\ truthy en = false) /\
  next_run_time (self (world_of (_schedule_next_run disabled_world))) = None.
Proof.
  assert (H1 : schedule_config (self disabled_world)
               = Some (VDict (schedule_of false 10 30))) by reflexivity.
  assert (H2 : exists en, schedule_of false 10 30 !! "enabled" = Some en
                          /\ truthy en = false)
    by (exists (VBool false); split; reflexivity).
  split; [ exact H1 | ]. split; [ exact H2 | ].
  exact (proj1 (proj2 (schedule_next_run_disabled disabled_world
                         (schedule_of false 10 30) H1 (or_intror H2)))).
Defined.

(** X6. When the schedule computation raises (a missing or impossible
    hour or minute, no [schedule_config]), [_schedule_next_run] passes
    the exception on after it has already cancelled the held timer: no
    timer is armed any more, none is started, and the next run time
    stored before is still there, stale. *)
Theorem schedule_next_run_failure (w : world) (e : exn) :
  outcome_of (_schedule_next_run w) = Raise e ->
  let w' := world_of (_schedule_next_run w) in
  outcome_of (_calculate_next_run_time w) = Raise e /\
  next_run_time (self w') = next_run_time (self w) /\
  timer (self w') = None /\
  armed w' = disarm (timer (self w)) (armed w) /\
  count is_timer_start (trace w') = count is_timer_start (trace w) /\
  (timers_owned w -> armed w' = []).
Proof.
  intros Hraise w'.
  pose proof (schedule_next_run_cases w) as Hcases. cbv zeta in Hcases.
  destruct (outcome_of (_calculate_next_run_time w)) as [t | e'].
  - destruct Hcases as (Hok & _). congruence.
  - destruct Hcases as (Hr & Hnrt & Htimer & Harmed & Hcount).
    assert (e' = e) by congruence. subst e'. subst w'.
    repeat split; try assumption.
    intros Hown. rewrite Harmed. now apply owned_disarm.
Qed.

Lemma bad_hour_world_reachable : reachable bad_hour_world.
Proof.
  apply reachable_step with armed_world; [ apply armed_world_reachable | ].
  apply (step_assign (VDict (<["hour" := VInt 25]> (schedule_of true 10 30)))).
Qed.

Lemma schedule_next_run_failure_witness :
  outcome_of (_schedule_next_run bad_hour_world) = Raise ValueError /\
  armed (world_of (_schedule_next_run bad_hour_world)) = [] /\
  next_run_time (self (world_of (_schedule_next_run bad_hour_world)))
  = next_run_time (self bad_hour_world).
Proof.
  assert (H : outcome_of (_schedule_next_run bad_hour_world) = Raise ValueError)
    by (vm_compute; reflexivity).
  split; [ exact H | ].
  destruct (schedule_next_run_failure bad_hour_world ValueError H)
    as (_ & Hnrt & _ & _ & _ & Hown).
  split; [ | exact Hnrt ].
  apply Hown, reachable_timers_owned, bad_hour_world_reachable.
Defined.

(* ================================================================== *)
(** * Never two timers *)
(* ================================================================== *)

Lemma single_kept_refl (w : world) : single_kept w w.
Proof. now intros H. Qed.

Lemma single_kept_trans (a b c : world) :
  single_kept a b -> single_kept b c -> single_kept a c.
Proof. intros H1 H2 H. apply H2, H1, H. Qed.

(** A step that keeps the ownership and does not touch the list of
    armed timers keeps the invariant. *)
Lemma single_from_owned {A : Type} (m : M A) :
  preserves owned_kept m ->
  (forall w, armed (world_of (m w)) = armed w) ->
  preserves single_kept m.
Proof.
  intros Hown Harmed w [H1 H2]. split; [ now apply Hown | ].
  now rewrite Harmed.
Qed.

Lemma single_emit (e : event) : preserves single_kept (emit e).
Proof. apply single_from_owned; [ apply owned_emit | reflexivity ]. Qed.

Lemma single_log (l : level) (m : string) : preserves single_kept (log l m).
Proof. apply single_emit. Qed.

Lemma single_modify_self (g : automation -> automation) :
  (forall a, timer (g a) = timer a) -> preserves single_kept (modify_self g).
Proof.
  intros Hg. apply single_from_owned; [ now apply owned_modify_self | reflexivity ].
Qed.

Lemma single_thread_start : preserves single_kept thread_start.
Proof. apply single_from_owned; [ apply owned_thread_start | reflexivity ]. Qed.

Lemma single_thread_join (id : nat) (t : Q) (ended : bool) :
  preserves single_kept (thread_join id t ended).
Proof.
  apply single_from_owned; [ apply owned_thread_join | ].
  intros w. unfold thread_join, world_of. cbn. now destruct ended.
Qed.

Lemma single_wake : preserves single_kept
  (fun w => match future w with
            | t :: rest => (Ok tt, with_env t rest w)
            | [] => (Ok tt, w)
            end).
Proof.
  apply single_from_owned; [ apply owned_wake | ].
  intros w. unfold world_of. now destruct (future w).
Qed.

Lemma single_schedule_next_run : preserves single_kept _schedule_next_run.
Proof.
  intros w [Hown Hlen]. split; [ now apply owned_schedule_next_run | ].
  pose proof (schedule_next_run_cases w) as Hcases. cbv zeta in Hcases.
  pose proof (owned_disarm w Hown) as Hd.
  destruct (outcome_of (_calculate_next_run_time w)) as [t | e].
  - destruct Hcases as (_ & _ & Hoff & Hon).
    destruct (time_set t).
    + destruct (Hon eq_refl) as (_ & (d & Harmed) & _).
      rewrite Harmed, Hd. cbn. lia.
    + destruct (Hoff eq_refl) as (_ & Harmed & _).
      rewrite Harmed, Hd. cbn. lia.
  - destruct Hcases as (_ & _ & _ & Harmed & _).
    rewrite Harmed, Hd. cbn. lia.
Qed.

Create HintDb single.

#[local] Hint Resolve single_log single_thread_start single_thread_join
  single_wake single_schedule_next_run : single.

Ltac single :=
  repeat first
    [ preserve_step single_kept_refl single_kept_trans
    | solve [ auto with single ]
    | apply single_emit
    | apply single_modify_self; intros ?; reflexivity ].

Lemma single_sleep (d : Q) : preserves single_kept (sleep d).
Proof. unfold sleep. single. Qed.

Lemma single_load_or_create_config : preserves single_kept load_or_create_config.
Proof. unfold load_or_create_config. single. Qed.

#[local] Hint Resolve single_sleep single_load_or_create_config : single.

Lemma single_setup_automation : preserves single_kept setup_automation.
Proof. unfold setup_automation. single. Qed.

Lemma single_fill_health_form (o : outcome) :
  preserves single_kept (fill_health_form o).
Proof. unfold fill_health_form, _unload_non_essential_modules. single. Qed.

Lemma single_get_next_run_delay : preserves single_kept _get_next_run_delay.
Proof. unfold _get_next_run_delay. single. Qed.

#[local] Hint Resolve single_setup_automation single_fill_health_form
  single_get_next_run_delay : single.

Lemma single_check_config_changes : preserves single_kept check_config_changes.
Proof. unfold check_config_changes, reload_body. single. Qed.

#[local] Hint Resolve single_check_config_changes : single.

Lemma single_loop_iteration (last : Q) : preserves single_kept (loop_iteration last).
Proof. unfold loop_iteration. single. Qed.

#[local] Hint Resolve single_loop_iteration : single.

Lemma single_loop_while (fuel : nat) (last : Q) :
  preserves single_kept (loop_while fuel last).
Proof.
  revert last. induction fuel as [ | n IH ]; intros last; cbn [loop_while]; single.
Qed.

#[local] Hint Resolve single_loop_while : single.

Lemma single_combined_loop (fuel : nat) : preserves single_kept (combined_loop fuel).
Proof. unfold combined_loop. single. Qed.

Lemma single_start_combined_thread : preserves single_kept start_combined_thread.
Proof. unfold start_combined_thread. single. Qed.

Lemma single_timer_callback (o : outcome) : preserves single_kept (_timer_callback o).
Proof. unfold _timer_callback. single. Qed.

Lemma filter_length_le {A : Type} (p : A -> bool) (l : list A) :
  (length (List.filter p l) <= length l)%nat.
Proof.
  induction l as [ | x l IH ]; [ reflexivity | ].
  cbn. destruct (p x); cbn; lia.
Qed.

Lemma single_timer_fires (id : nat) (o : outcome) :
  preserves single_kept (timer_fires id o).
Proof.
  intros w [Hown Hlen]. unfold timer_fires.
  destruct (existsb _ (armed w)); [ | now split ].
  apply single_timer_callback. split.
  - intros i d Hin. cbn in *. apply filter_In in Hin as [Hin _].
    now apply (Hown i d).
  - cbn. pose proof (filter_length_le
                       (fun p : nat * Q => negb (Nat.eqb (fst p) id)) (armed w)).
    lia.
Qed.

Lemma single_stop_combined_thread (ended : bool) :
  preserves single_kept (stop_combined_thread ended).
Proof.
  intros w [Hown Hlen]. split; [ now apply owned_stop_combined_thread | ].
  destruct (running (self w)) eqn:Hr.
  - destruct (stop_running w ended Hr) as (w1 & Hstop & _ & _ & Harmed & _).
    rewrite Hstop. cbn. rewrite Harmed, (owned_disarm w Hown). cbn. lia.
  - unfold stop_combined_thread, world_of. run. now rewrite Hr.
Qed.

Lemma step_single (w w' : world) : step w w' -> single_kept w w'.
Proof.
  intros [ w0 | w0 | v w0 | o w0 | w0 | ended w0 | fuel w0 | last w0 | w0
         | id o w0 | t rest w0 ].
  - apply single_load_or_create_config.
  - apply single_setup_automation.
  - apply single_modify_self. reflexivity.
  - apply single_fill_health_form.
  - apply single_start_combined_thread.
  - apply single_stop_combined_thread.
  - apply single_combined_loop.
  - apply single_loop_iteration.
  - apply single_check_config_changes.
  - apply single_timer_fires.
  - now intros H.
Qed.

(** X7. In every world the object can get into from its construction,
    by any sequence of loads, starts, stops, loop iterations, polls of
    the configuration, reschedules and timer firings, at most one timer
    is armed, and it is the one the object holds in [self.timer]: the
    scheduled action is never armed twice, not even after starting
    twice. *)
Theorem reachable_single_timer (w : world) :
  reachable w ->
  (length (armed w) <= 1)%nat /\
  forall id deadline, In (id, deadline) (armed w) -> timer (self w) = Some id.
Proof.
  intros Hreach.
  assert (H : single_timer w).
  { induction Hreach as [ f now ticks | w w' _ IH Hstep ].
    - split; [ apply owned_no_timer; reflexivity | cbn; lia ].
    - now apply (step_single w w'). }
  destruct H as [Hown Hlen]. split; [ exact Hlen | exact Hown ].
Qed.

Lemma reachable_single_timer_witness :
  reachable (world_of (start_combined_thread armed_world)) /\
  (length (armed (world_of (combined_loop 0
                    (world_of (start_combined_thread armed_world))))) <= 1)%nat.
Proof.
  assert (H1 : reachable (world_of (start_combined_thread armed_world)))
    by (apply reachable_step with armed_world;
        [ apply armed_world_reachable | apply step_start ]).
  split; [ exact H1 | ].
  apply reachable_single_timer.
  apply reachable_step with (world_of (start_combined_thread armed_world));
    [ exact H1 | apply step_loop ].
Defined.

(* ================================================================== *)
(** * Reading the configuration into the object *)
(* ================================================================== *)

Lemma bind_ok {A B : Type} (m : M A) (k : A -> M B) (w w1 : world) (a : A) :
  m w = (Ok a, w1) -> (m ≫= k) w = k a w1.
Proof. intros H. unfold mbind, M_bind. now rewrite H. Qed.

Lemma bind_raise {A B : Type} (m : M A) (k : A -> M B) (w w1 : world) (e : exn) :
  m w = (Raise e, w1) -> (m ≫= k) w = (Raise e, w1).
Proof. intros H. unfold mbind, M_bind. now rewrite H. Qed.

Lemma bind_assoc {A B C : Type} (m : M A) (k1 : A -> M B) (k2 : B -> M C)
    (w : world) :
  ((m ≫= k1) ≫= k2) w = (m ≫= fun a => k1 a ≫= k2) w.
Proof. unfold mbind, M_bind. now destruct (m w) as [[a | e] w1]. Qed.

Lemma setup_from_config (w : world) (d : gmap string pyval) :
  config (self w) = Some (VDict d) ->
  setup_automation w = (Ok tt, with_self (with_sections d (self w)) w).
Proof.
  intros H. unfold setup_automation. run. rewrite H. cbn. rewrite H. reflexivity.
Qed.

(** X14. [setup_automation] with a configuration dictionary already
    loaded does not read the file: it assigns [user_info],
    [schedule_config] and [browser_config] from the sections
    ["user_info"], ["schedule"] and ["browser"], an empty dictionary
    standing for a missing section. When the loaded configuration is not
    a dictionary it raises AttributeError and assigns nothing. Without a
    loaded configuration it loads the file first, and when the file is
    missing the FileNotFoundError goes up and nothing is assigned. *)
Theorem setup_automation_spec (w : world) :
  (forall d, config (self w) = Some (VDict d) ->
     setup_automation w = (Ok tt, with_self (with_sections d (self w)) w) /\
     (d !! "schedule" = None ->
        schedule_config (self (world_of (setup_automation w))) = Some (VDict ∅))) /\
  (forall v, config (self w) = Some v ->
     (forall d, v <> VDict d) ->
     setup_automation w = (Raise AttributeError, w)) /\
  (config (self w) = None -> fs w = None ->
     outcome_of (setup_automation w) = Raise FileNotFoundError /\
     self (world_of (setup_automation w)) = self w) /\
  (forall f d, config (self w) = None -> fs w = Some f ->
     content f = Some (VDict d) ->
     outcome_of (setup_automation w) = Ok tt /\
     self (world_of (setup_automation w))
     = with_sections d
         (set_config_last_modified (mtime f) (set_config (Some (VDict d)) (self w)))).
Proof.
  split; [ | split; [ | split ] ].
  - intros d H. rewrite (setup_from_config w d H). split; [ reflexivity | ].
    intros Hs. cbn. unfold section_of. now rewrite Hs.
  - intros v H Hnd. unfold setup_automation. run. rewrite H. cbn. rewrite H.
    destruct v; try reflexivity. now destruct (Hnd d).
  - intros H Hfs. unfold setup_automation, outcome_of, world_of. run.
    rewrite H. cbn. rewrite (load_missing w Hfs). split; reflexivity.
  - intros f d H Hfs Hc. unfold setup_automation, outcome_of, world_of. run.
    rewrite H. cbn. rewrite (load_parses w f (VDict d) Hfs Hc). cbn.
    split; reflexivity.
Qed.

Lemma same_but_schedule_refl (a : automation) : same_but_schedule a a.
Proof. repeat split. Qed.

Lemma schedule_frame_refl (w : world) : schedule_frame w w.
Proof. repeat split. Qed.

Lemma schedule_frame_trans (a b c : world) :
  schedule_frame a b -> schedule_frame b c -> schedule_frame a c.
Proof.
  unfold schedule_frame, same_but_schedule.
  intros H1 H2. decompose [and] H1. decompose [and] H2.
  repeat split; congruence.
Qed.

Lemma frame_emit (e : event) : preserves schedule_frame (emit e).
Proof. intros w. repeat split. Qed.

Lemma frame_log (l : level) (m : string) : preserves schedule_frame (log l m).
Proof. apply frame_emit. Qed.

Lemma frame_modify_self (g : automation -> automation) :
  (forall a, same_but_schedule a (g a)) -> preserves schedule_frame (modify_self g).
Proof. intros Hg w. split; [ apply Hg | repeat split ]. Qed.

Lemma frame_timer_start (d : Q) : preserves schedule_frame (timer_start d).
Proof. intros w. repeat split. Qed.

Lemma frame_timer_cancel (id : nat) : preserves schedule_frame (timer_cancel id).
Proof. intros w. repeat split. Qed.

(** [_schedule_next_run] touches the timer, the next run time, the armed
    timers and the log, and nothing else. *)
Lemma frame_schedule_next_run : preserves schedule_frame _schedule_next_run.
Proof.
  unfold _schedule_next_run, _calculate_next_run_time, _get_next_run_delay.
  repeat first
    [ preserve_step schedule_frame_refl schedule_frame_trans
    | apply frame_log | apply frame_timer_start | apply frame_timer_cancel
    | apply frame_modify_self; intros ?; repeat split ].
Qed.

Lemma reload_body_reschedules (w : world) (f : file)
    (d sc : gmap string pyval) (h m : Z) :
  fs w = Some f ->
  content f = Some (VDict d) ->
  d !! "schedule" = Some (VDict sc) ->
  enabled_at sc h m ->
  running (self w) = true ->
  hasattr (schedule_config (self w)) || hasattr (user_info (self w)) = true ->
  valid_datetime (clock w) ->
  (0 <= timestamp (clock w))%Q ->
  exists w' deadline,
    reload_body w = (Ok tt, w') /\
    config (self w') = Some (VDict d) /\
    config_last_modified (self w') = mtime f /\
    schedule_config (self w') = Some (VDict sc) /\
    next_run_time (self w') = Some (timestamp (next_run (clock w) h m)) /\
    timer (self w') = Some (fresh w) /\
    deadline == timestamp (next_run (clock w) h m) /\
    armed w' = disarm (timer (self w)) (armed w) ++ [(fresh w, deadline)] /\
    running (self w') = true /\
    alive w' = alive w /\
    combined_thread (self w') = combined_thread (self w).
Proof.
  intros Hfs Hc Hd Hen Hr Hattr Hnow Hepoch.
  pose proof Hen as ((en & Hen1 & Hen2) & Hh & Hm & _).
  set (w1 := with_self (set_config_last_modified (mtime f)
                          (set_config (Some (VDict d)) (self w)))
               (with_trace (trace w ++ [EvOpenConfig]) w)).
  set (w2 := with_self (with_sections d (self w1)) w1).
  assert (Hload : load_or_create_config w = (Ok tt, w1))
    by now apply load_parses.
  assert (Hattr1 : hasattr (schedule_config (self w1))
                   || hasattr (user_info (self w1)) = true) by exact Hattr.
  assert (Hsetup : setup_automation w1 = (Ok tt, w2))
    by now apply setup_from_config.
  assert (Hr2 : running (self w2) = true) by exact Hr.
  assert (Hsc2 : schedule_config (self w2) = Some (VDict sc))
    by (cbn; unfold section_of; now rewrite Hd).
  destruct (schedule_next_run_enabled w2 sc h m Hsc2 Hen Hnow Hepoch)
    as (w3 & deadline & Hs & Hnrt & Htimer & Hdl & Harm & Hr3 & Hsc3 & _).
  pose proof (frame_schedule_next_run w2) as Hframe. rewrite Hs in Hframe.
  destruct Hframe as ((_ & Hth3 & Hclm3 & _ & _ & Hcfg3 & _) & _ & _ & _ & Hal3).
  cbn in Hclm3, Hcfg3, Hth3, Hal3.
  assert (Hgo : (lift (py_getitem (VDict sc) "enabled")
                 ≫= fun en => mret (truthy en)) w2 = (Ok true, w2)).
  { unfold lift, mbind, M_bind, mret, M_ret. cbn. rewrite Hen1. now rewrite Hen2. }
  assert (Hga : getattr schedule_config w3 = (Ok (VDict sc), w3)).
  { unfold getattr. rewrite Hsc3, Hsc2. reflexivity. }
  assert (Hgh : lift (py_getitem (VDict sc) "hour") w3 = (Ok (VInt h), w3)).
  { unfold lift. cbn. now rewrite Hh. }
  assert (Hgm : lift (py_getitem (VDict sc) "minute") w3 = (Ok (VInt m), w3)).
  { unfold lift. cbn. now rewrite Hm. }
  eexists _, deadline. split.
  - unfold reload_body.
    rewrite (bind_ok _ _ _ _ _ Hload).
    rewrite (bind_ok get_self _ w1 w1 (self w1) eq_refl).
    rewrite Hattr1.
    rewrite (bind_ok _ _ _ _ _ Hsetup).
    rewrite (bind_ok get_self _ w2 w2 (self w2) eq_refl).
    rewrite Hr2, Hsc2.
    rewrite (bind_ok _ _ _ _ _ Hgo).
    rewrite bind_assoc.
    rewrite (bind_ok _ _ _ _ _ Hs).
    rewrite bind_assoc, (bind_ok _ _ _ _ _ Hga).
    rewrite bind_assoc, (bind_ok _ _ _ _ _ Hgh).
    rewrite bind_assoc, (bind_ok _ _ _ _ _ Hgm).
    reflexivity.
  - cbn. rewrite Hnrt, Htimer, Harm, Hr3, Hsc3. cbn.
    repeat split; assumption.
Qed.

(* ================================================================== *)
(** * Reloading a changed configuration *)
(* ================================================================== *)

(** X8. Hot reload. When the running object polls a configuration file
    whose modification time is later than the recorded one and whose
    content is a dictionary with an enabled schedule for h:m, the poll
    stores the new configuration and modification time, replaces
    [schedule_config], cancels the timer it holds and arms a new one for
    the next occurrence of h:m, strictly after now, which it stores as
    the next run time. The loop is not restarted: [running] and the
    loop thread are as before. (The clock is taken not to be before the
    epoch.) *)
Theorem hot_reload_reschedules (w : world) (f : file)
    (d sc : gmap string pyval) (h m : Z) :
  fs w = Some f ->
  (config_last_modified (self w) < mtime f)%Q ->
  content f = Some (VDict d) ->
  d !! "schedule" = Some (VDict sc) ->
  enabled_at sc h m ->
  running (self w) = true ->
  hasattr (schedule_config (self w)) || hasattr (user_info (self w)) = true ->
  valid_datetime (clock w) ->
  (0 <= timestamp (clock w))%Q ->
  let w' := world_of (check_config_changes w) in
  let t := timestamp (next_run (clock w) h m) in
  config (self w') = Some (VDict d) /\
  config_last_modified (self w') = mtime f /\
  schedule_config (self w') = Some (VDict sc) /\
  next_run_time (self w') = Some t /\
  (timestamp (clock w) < t)%Q /\
  timer (self w') = Some (fresh w) /\
  (exists deadline,
     deadline == t /\
     armed w' = disarm (timer (self w)) (armed w) ++ [(fresh w, deadline)] /\
     (timers_owned w -> armed w' = [(fresh w, deadline)])) /\
  running (self w') = true /\
  alive w' = alive w /\
  combined_thread (self w') = combined_thread (self w).
Proof.
  intros Hfs Hlt Hc Hd Hen Hr Hattr Hnow Hepoch w' t.
  pose proof Hen as (_ & _ & _ & Hh & Hm).
  destruct (reload_body_reschedules (reload_entry f w) f d sc h m)
    as (w2 & deadline & Hbody & Hcfg & Hclm & Hsc & Hnrt & Htimer & Hdl & Harm
        & Hr2 & Hal & Hth);
    try assumption.
  subst w'. rewrite (check_changed w f Hfs Hlt), Hbody.
  unfold world_of. cbn [snd].
  cbn in Hnrt, Htimer, Hdl, Harm, Hal, Hth.
  repeat split; try assumption.
  - now apply next_run_future.
  - exists deadline. split; [ exact Hdl | ]. split; [ exact Harm | ].
    intros Hown. rewrite Harm, (owned_disarm w Hown). reflexivity.
Qed.

Lemma hot_reload_reschedules_witness :
  fs retimed_world = Some (mkfile 200 (Some (config_of true 8 15))) /\
  (config_last_modified (self retimed_world) < 200)%Q /\
  enabled_at (schedule_of true 8 15) 8 15 /\
  running (self retimed_world) = true /\
  valid_datetime (clock retimed_world) /\
  (0 <= timestamp (clock retimed_world))%Q /\
  next_run_time (self (world_of (check_config_changes retimed_world)))
  = Some (timestamp (next_run (clock retimed_world) 8 15)) /\
  timestamp (next_run (clock retimed_world) 8 15)
  = timestamp (datetime_of 2024 1 2 8 15 0 0).
Proof.
  assert (H1 : fs retimed_world = Some (mkfile 200 (Some (config_of true 8 15))))
    by reflexivity.
  assert (H2 : (config_last_modified (self retimed_world)
                < mtime (mkfile 200 (Some (config_of true 8 15))))%Q)
    by (vm_compute; reflexivity).
  assert (H3 : content (mkfile 200 (Some (config_of true 8 15)))
               = Some (VDict (<["schedule" := VDict (schedule_of true 8 15)]> ∅)))
    by reflexivity.
  assert (H4 : (<["schedule" := VDict (schedule_of true 8 15)]> ∅
                 : gmap string pyval) !! "schedule"
               = Some (VDict (schedule_of true 8 15)))
    by apply lookup_insert_eq.
  assert (H5 : enabled_at (schedule_of true 8 15) 8 15)
    by (apply enabled_at_schedule_of; lia).
  assert (H6 : running (self retimed_world) = true) by (vm_compute; reflexivity).
  assert (H7 : hasattr (schedule_config (self retimed_world))
               || hasattr (user_info (self retimed_world)) = true)
    by (vm_compute; reflexivity).
  assert (H8 : valid_datetime (clock retimed_world))
    by (unfold valid_datetime; repeat split; vm_compute; discriminate).
  assert (H9 : (0 <= timestamp (clock retimed_world))%Q)
    by (vm_compute; discriminate).
  split; [ exact H1 | ]. split; [ exact H2 | ]. split; [ exact H5 | ].
  split; [ exact H6 | ]. split; [ exact H8 | ]. split; [ exact H9 | ].
  destruct (hot_reload_reschedules retimed_world _ _ _ 8%Z 15%Z
              H1 H2 H3 H4 H5 H6 H7 H8 H9) as (_ & _ & _ & Hnrt & _).
  split; [ exact Hnrt | vm_compute; reflexivity ].
Defined.

(* ------------------------------------------------------------------ *)

Lemma idle_kept_refl (w : world) : idle_kept w w.
Proof. intros H. repeat split. exact H. Qed.

Lemma idle_kept_trans (a b c : world) :
  idle_kept a b -> idle_kept b c -> idle_kept a c.
Proof.
  intros H1 H2 H. destruct (H1 H) as (Hb & Ha1 & Ht1 & Hn1).
  destruct (H2 Hb) as (Hc & Ha2 & Ht2 & Hn2).
  repeat split; congruence.
Qed.

Lemma idle_emit (e : event) : preserves idle_kept (emit e).
Proof. intros w H. repeat split. exact H. Qed.

Lemma idle_log (l : level) (m : string) : preserves idle_kept (log l m).
Proof. apply idle_emit. Qed.

Lemma idle_modify_self (g : automation -> automation) :
  (forall a, running (g a) = running a /\ timer (g a) = timer a /\
             next_run_time (g a) = next_run_time a) ->
  preserves idle_kept (modify_self g).
Proof.
  intros Hg w H. cbn. destruct (Hg (self w)) as (H1 & H2 & H3).
  repeat split; congruence.
Qed.

Create HintDb idle.

#[local] Hint Resolve idle_log : idle.

Ltac idle :=
  repeat first
    [ preserve_step idle_kept_refl idle_kept_trans
    | solve [ auto with idle ]
    | apply idle_emit
    | apply idle_modify_self; intros ?; repeat split ].

Lemma idle_load_or_create_config : preserves idle_kept load_or_create_config.
Proof. unfold load_or_create_config. idle. Qed.

#[local] Hint Resolve idle_load_or_create_config : idle.

Lemma idle_setup_automation : preserves idle_kept setup_automation.
Proof. unfold setup_automation. idle. Qed.

#[local] Hint Resolve idle_setup_automation : idle.

Lemma preserves_get_self_bind {A : Type} (R : world -> world -> Prop)
    (k : automation -> M A) :
  (forall w, R w (world_of (k (self w) w))) -> preserves R (get_self ≫= k).
Proof. intros H w. apply H. Qed.

Lemma idle_reload_body : preserves idle_kept reload_body.
Proof.
  unfold reload_body.
  apply (preserves_bind _ idle_kept_trans); [ idle | intros _ ].
  apply (preserves_bind _ idle_kept_trans); [ idle | intros a ].
  apply (preserves_bind _ idle_kept_trans); [ idle | intros _ ].
  apply preserves_get_self_bind. intros w Hr.
  unfold world_of. run. rewrite Hr. cbn. repeat split. exact Hr.
Qed.

#[local] Hint Resolve idle_reload_body : idle.

Lemma idle_check_config_changes : preserves idle_kept check_config_changes.
Proof. unfold check_config_changes. idle. Qed.

Section Loaded.
Variable f : file.
Variable v : pyval.
Hypothesis f_content : content f = Some v.

Lemma loaded_kept_refl (w : world) : loaded_kept f v w w.
Proof. now intros H. Qed.

Lemma loaded_kept_trans (a b c : world) :
  loaded_kept f v a b -> loaded_kept f v b c -> loaded_kept f v a c.
Proof. intros H1 H2 H. apply H2, H1, H. Qed.

Lemma loaded_emit (e : event) : preserves (loaded_kept f v) (emit e).
Proof. now intros w H. Qed.

Lemma loaded_modify_self (g : automation -> automation) :
  (forall a, config (g a) = config a) ->
  preserves (loaded_kept f v) (modify_self g).
Proof. intros Hg w [H1 H2]. cbn. rewrite Hg. now split. Qed.

Lemma loaded_load_or_create_config :
  preserves (loaded_kept f v) load_or_create_config.
Proof.
  intros w [H1 H2]. rewrite (load_parses w f v H1 f_content). now split.
Qed.

Lemma loaded_schedule_next_run : preserves (loaded_kept f v) _schedule_next_run.
Proof.
  intros w [H1 H2].
  destruct (frame_schedule_next_run w) as ((_ & _ & _ & _ & _ & Hc & _) & Hf & _).
  split; congruence.
Qed.
End Loaded.

Lemma preserves_after {A B : Type} (R : world -> world -> Prop)
    (m : M A) (k : A -> M B) (w w1 : world) (a : A) :
  m w = (Ok a, w1) -> preserves R (k a) -> R w1 (world_of ((m ≫= k) w)).
Proof. intros Hm Hk. rewrite (bind_ok m k w w1 a Hm). apply Hk. Qed.

Ltac loaded :=
  repeat first
    [ match goal with
      | |- preserves (loaded_kept ?f ?v) _ =>
          preserve_step (loaded_kept_refl f v) (loaded_kept_trans f v)
      end
    | apply loaded_schedule_next_run
    | apply loaded_load_or_create_config; assumption
    | apply loaded_emit
    | apply loaded_modify_self; intros ?; reflexivity ].

(** A reload of a file that parses leaves the parsed value as the
    loaded configuration, whatever the rest of the reload does. *)
Lemma reload_body_loads (w : world) (f : file) (v : pyval) :
  fs w = Some f -> content f = Some v ->
  config (self (world_of (reload_body w))) = Some v.
Proof.
  intros Hfs Hc. unfold reload_body.
  refine (proj2 (preserves_after (loaded_kept f v) _ _ _ _ _
                   (load_parses w f v Hfs Hc) _ _)).
  - unfold setup_automation. loaded.
  - split; [ exact Hfs | reflexivity ].
Qed.

(** A reload of a file that is there opens it first. *)
Lemma reload_body_opens (w : world) (f : file) :
  fs w = Some f ->
  exists evs, trace (world_of (reload_body w)) = trace w ++ EvOpenConfig :: evs.
Proof.
  intros Hfs. destruct (content f) as [v | ] eqn:Hc.
  - assert (H : no_actuation
                  (with_self (set_config_last_modified (mtime f)
                                (set_config (Some v) (self w)))
                     (with_trace (trace w ++ [EvOpenConfig]) w))
                  (world_of (reload_body w))).
    { unfold reload_body.
      refine (preserves_after no_actuation _ _ _ _ _
                (load_parses w f v Hfs Hc) _).
      quiet. }
    destruct H as (evs & Htr & _). exists evs. rewrite Htr. cbn.
    now rewrite <- app_assoc.
  - exists []. unfold reload_body.
    rewrite (bind_raise _ _ w _ _ (load_malformed w f Hfs Hc)). reflexivity.
Qed.

(* ================================================================== *)
(** * The poll, in both directions *)
(* ================================================================== *)

(** C7. [check_config_changes] never raises, whatever the file. When
    the file is absent it only logs a warning. When the modification
    time of the file is the recorded one (or an earlier one) it does
    nothing, however many times it is polled. So a poll that opens the
    file, or changes the object or the armed timers, has found a
    modification time different from, and later than, the recorded
    one. And a modification time later than the recorded one always
    triggers the reload: the poll records the new time, logs the change
    and opens the file, and a content that parses becomes the loaded
    configuration; when that content is a dictionary with an enabled
    schedule for h:m and the object is running, the poll reschedules:
    it replaces [schedule_config], cancels the held timer and arms one
    new timer for the next occurrence of h:m, which it stores as the
    next run time, and it leaves [running] and the loop thread as they
    are. (For the reschedule the clock is taken not to be before the
    epoch.) *)
Theorem check_config_changes_spec (w : world) :
  let w' := world_of (check_config_changes w) in
  outcome_of (check_config_changes w) = Ok tt /\
  (fs w = None ->
     w' = with_trace
            (trace w ++ [EvLog WARNING "configuration file does not exist"]) w) /\
  (forall f, fs w = Some f ->
     (mtime f <= config_last_modified (self w))%Q ->
     w' = w /\ forall n, poll n w = w) /\
  (count is_open (trace w') <> count is_open (trace w) \/
   self w' <> self w \/ armed w' <> armed w ->
   exists f, fs w = Some f /\
     (config_last_modified (self w) < mtime f)%Q /\
     ~ mtime f == config_last_modified (self w)) /\
  (forall f, fs w = Some f ->
     (config_last_modified (self w) < mtime f)%Q ->
     config_last_modified (self w') = mtime f /\
     (exists evs,
        trace w'
        = trace w ++ EvLog INFO "configuration file changed, reloading"
                  :: EvOpenConfig :: evs) /\
     (forall v, content f = Some v -> config (self w') = Some v) /\
     (forall (d sc : gmap string pyval) (h m : Z),
        content f = Some (VDict d) ->
        d !! "schedule" = Some (VDict sc) ->
        enabled_at sc h m ->
        running (self w) = true ->
        hasattr (schedule_config (self w)) || hasattr (user_info (self w)) = true ->
        valid_datetime (clock w) ->
        (0 <= timestamp (clock w))%Q ->
        let t := timestamp (next_run (clock w) h m) in
        schedule_config (self w') = Some (VDict sc) /\
        next_run_time (self w') = Some t /\
        (timestamp (clock w) < t)%Q /\
        timer (self w') = Some (fresh w) /\
        (exists deadline,
           deadline == t /\
           armed w' = disarm (timer (self w)) (armed w) ++ [(fresh w, deadline)]) /\
        running (self w') = true /\
        alive w' = alive w /\
        combined_thread (self w') = combined_thread (self w))).
Proof.
  intros w'. split; [ apply check_returns | ].
  split; [ | split; [ | split ] ].
  - intros H. subst w'. now rewrite (check_absent w H).
  - intros f H Hle. subst w'. pose proof (check_unchanged w f H Hle) as Hrun.
    rewrite Hrun. split; [ reflexivity | ]. intros n. now apply poll_fixed.
  - intros Hdiff. destruct (fs w) as [f | ] eqn:Hfs.
    + destruct (Qlt_le_dec (config_last_modified (self w)) (mtime f)) as [Hlt | Hle].
      * exists f. split; [ reflexivity | ]. split; [ exact Hlt | ].
        intros Heq. rewrite Heq in Hlt. now apply (Qlt_irrefl _ Hlt).
      * exfalso. subst w'. rewrite (check_unchanged w f Hfs Hle) in Hdiff.
        cbn in Hdiff. destruct Hdiff as [H | [H | H]]; now apply H.
    + exfalso. subst w'. rewrite (check_absent w Hfs) in Hdiff.
      cbn in Hdiff. unfold count in Hdiff.
      rewrite List.filter_app, length_app in Hdiff. cbn in Hdiff.
      destruct Hdiff as [H | [H | H]]; [ lia | now apply H | now apply H ].
  - intros f Hfs Hlt. subst w'. rewrite (check_changed w f Hfs Hlt).
    assert (Hentry : fs (reload_entry f w) = Some f /\
                     config_last_modified (self (reload_entry f w)) = mtime f)
      by (split; [ exact Hfs | reflexivity ]).
    pose proof (watch_reload_body f (reload_entry f w) Hentry) as (_ & Hclm).
    destruct (reload_body_opens (reload_entry f w) f Hfs) as (evs & Htr).
    split; [ | split; [ | split ] ].
    + unfold world_of in *.
      destruct (reload_body (reload_entry f w)) as [[[] | e] w2]; exact Hclm.
    + unfold world_of in *.
      destruct (reload_body (reload_entry f w)) as [[[] | e] w2]; cbn [snd] in *.
      * exists evs. rewrite Htr. cbn. now rewrite <- app_assoc.
      * exists (evs ++ [EvLog ERROR "error while reloading the configuration"]).
        cbn. rewrite Htr. cbn. now rewrite <- !app_assoc.
    + intros v Hc.
      pose proof (reload_body_loads (reload_entry f w) f v Hfs Hc) as Hcfg.
      unfold world_of in *.
      destruct (reload_body (reload_entry f w)) as [[[] | e] w2]; exact Hcfg.
    + intros d sc h m Hc Hd Hen Hr Hattr Hnow Hepoch t.
      pose proof Hen as (_ & _ & _ & Hh & Hm).
      destruct (reload_body_reschedules (reload_entry f w) f d sc h m)
        as (w2 & deadline & Hbody & _ & _ & Hsc & Hnrt & Htimer & Hdl & Harm
            & Hr2 & Hal & Hth);
        try assumption.
      rewrite Hbody. unfold world_of. cbn [snd].
      cbn in Hnrt, Htimer, Hdl, Harm, Hal, Hth.
      split; [ exact Hsc | ]. split; [ exact Hnrt | ].
      split; [ now apply next_run_future | ]. split; [ exact Htimer | ].
      split; [ exists deadline; split; [ exact Hdl | exact Harm ] | ].
      split; [ exact Hr2 | ]. split; [ exact Hal | exact Hth ].
Qed.

Lemma check_config_changes_spec_witness :
  fs loaded_world = Some (mkfile 100 (Some (config_of true 10 30))) /\
  (100 <= config_last_modified (self loaded_world))%Q /\
  poll 5 loaded_world = loaded_world /\
  fs idle_retimed_world = Some (mkfile 200 (Some (config_of true 8 15))) /\
  (config_last_modified (self idle_retimed_world) < 200)%Q /\
  config_last_modified (self (world_of (check_config_changes idle_retimed_world)))
  = 200%Q /\
  config (self (world_of (check_config_changes idle_retimed_world)))
  = Some (config_of true 8 15).
Proof.
  assert (H1 : fs loaded_world = Some (mkfile 100 (Some (config_of true 10 30))))
    by reflexivity.
  assert (H2 : (mtime (mkfile 100 (Some (config_of true 10 30)))
                <= config_last_modified (self loaded_world))%Q)
    by (vm_compute; discriminate).
  assert (H3 : fs idle_retimed_world
               = Some (mkfile 200 (Some (config_of true 8 15)))) by reflexivity.
  assert (H4 : (config_last_modified (self idle_retimed_world)
                < mtime (mkfile 200 (Some (config_of true 8 15))))%Q)
    by (vm_compute; reflexivity).
  split; [ exact H1 | ]. split; [ exact H2 | ].
  destruct (check_config_changes_spec loaded_world) as (_ & _ & Hsame & _).
  destruct (Hsame _ H1 H2) as (_ & Hpoll).
  split; [ apply Hpoll | ].
  split; [ exact H3 | ]. split; [ exact H4 | ].
  destruct (check_config_changes_spec idle_retimed_world)
    as (_ & _ & _ & _ & Hlater).
  destruct (Hlater _ H3 H4) as (Hclm & _ & Hcfg & _).
  split; [ exact Hclm | exact (Hcfg _ eq_refl) ].
Defined.

(** X9. On an object that is not running, a poll of the configuration
    file never touches the schedule, whatever the file: it may reload
    the configuration and the sections, but it cancels no timer, arms
    none and leaves the stored next run time alone; and it does not
    start anything. *)
Theorem poll_when_not_running (w : world) :
  running (self w) = false ->
  let w' := world_of (check_config_changes w) in
  running (self w') = false /\
  armed w' = armed w /\
  timer (self w') = timer (self w) /\
  next_run_time (self w') = next_run_time (self w) /\
  (forall f v, fs w = Some f -> content f = Some v ->
     (config_last_modified (self w) < mtime f)%Q ->
     config (self w') = Some v /\ config_last_modified (self w') = mtime f).
Proof.
  intros Hr w'.
  destruct (idle_check_config_changes w Hr) as (H1 & H2 & H3 & H4).
  split; [ exact H1 | ]. split; [ exact H2 | ]. split; [ exact H3 | ].
  split; [ exact H4 | ].
  intros f v Hfs Hc Hlt. subst w'. rewrite (check_changed w f Hfs Hlt).
  assert (Hentry : fs (reload_entry f w) = Some f /\
                   config_last_modified (self (reload_entry f w)) = mtime f)
    by (split; [ exact Hfs | reflexivity ]).
  pose proof (watch_reload_body f (reload_entry f w) Hentry) as (_ & Hclm).
  pose proof (reload_body_loads (reload_entry f w) f v Hfs Hc) as Hcfg.
  unfold world_of in *.
  destruct (reload_body (reload_entry f w)) as [[[] | e] w2]; cbn in *;
    split; assumption.
Qed.

Lemma poll_when_not_running_witness :
  running (self idle_retimed_world) = false /\
  armed (world_of (check_config_changes idle_retimed_world)) = [] /\
  next_run_time (self (world_of (check_config_changes idle_retimed_world))) = None /\
  config (self (world_of (check_config_changes idle_retimed_world)))
  = Some (config_of true 8 15).
Proof.
  assert (H : running (self idle_retimed_world) = false) by reflexivity.
  split; [ exact H | ].
  destruct (poll_when_not_running idle_retimed_world H)
    as (_ & Harmed & _ & Hnrt & Hreload).
  split; [ exact Harmed | ]. split; [ exact Hnrt | ].
  refine (proj1 (Hreload (mkfile 200 (Some (config_of true 8 15)))
                         (config_of true 8 15) eq_refl eq_refl _)).
  vm_compute. reflexivity.
Defined.

(* ================================================================== *)
(** * The loop at its edges *)
(* ================================================================== *)

Lemma py_min_le_r (a b : Q) : (py_min a b <= b)%Q.
Proof. destruct (py_min_spec a b) as [[H ->] | [H ->]]; lra. Qed.

Lemma py_min_le_l (a b : Q) : (py_min a b <= a)%Q.
Proof. destruct (py_min_spec a b) as [[H ->] | [H ->]]; lra. Qed.

Lemma py_min_pos (a b : Q) : (0 < a)%Q -> (0 < b)%Q -> (0 < py_min a b)%Q.
Proof. intros Ha Hb. destruct (py_min_spec a b) as [[H ->] | [H ->]]; lra. Qed.

Lemma py_min_nonneg (a b : Q) : (0 <= a)%Q -> (0 <= b)%Q -> (0 <= py_min a b)%Q.
Proof. intros Ha Hb. destruct (py_min_spec a b) as [[H ->] | [H ->]]; lra. Qed.

Lemma Qhalf_pos (a : Q) : (0 < a)%Q -> (0 < a / 2)%Q.
Proof. intros H. apply Qlt_shift_div_l; lra. Qed.

Lemma Qhalf_nonneg (a : Q) : (0 <= a)%Q -> (0 <= a / 2)%Q.
Proof. intros H. apply Qle_shift_div_l; lra. Qed.

Lemma safe_sleep_bounds (d i : Q) :
  (safe_sleep_time d i <= 30)%Q /\
  ((0 < i)%Q -> (0 < safe_sleep_time d i)%Q) /\
  ((0 <= i)%Q -> (0 <= safe_sleep_time d i)%Q).
Proof.
  unfold safe_sleep_time, sleep_branch.
  destruct (Qltb 0 d) eqn:H0; cbn [andb].
  - apply Qltb_lt in H0. destruct (Qleb d 5) eqn:H5.
    + repeat split; intros; reflexivity || discriminate.
    + unfold py_min3. split; [ apply py_min_le_r | ].
      split; intros Hi.
      * apply py_min_pos; [ apply py_min_pos | ];
          [ now apply Qhalf_pos | now apply Qhalf_pos | reflexivity ].
      * apply py_min_nonneg; [ apply py_min_nonneg | ];
          [ apply Qhalf_nonneg; lra | now apply Qhalf_nonneg | discriminate ].
  - split; [ apply py_min_le_r | ]. split; intros Hi.
    + apply py_min_pos; [ assumption | reflexivity ].
    + apply py_min_nonneg; [ assumption | discriminate ].
Qed.

(** X12. Whatever the delay and the check interval, the loop never
    sleeps more than 30 seconds in one go; with a positive check
    interval every sleep is positive, so the loop never spins; and with
    a check interval that is not negative no sleep is negative, so
    [time.sleep] is never refused. *)
Theorem safe_sleep_time_bounds (d i : Q) :
  (safe_sleep_time d i <= 30)%Q /\
  ((0 < i)%Q -> (0 < safe_sleep_time d i)%Q) /\
  ((0 <= i)%Q -> (0 <= safe_sleep_time d i)%Q).
Proof. exact (safe_sleep_bounds d i). Qed.

Lemma safe_sleep_time_bounds_witness :
  (0 < 30)%Q /\ (0 < safe_sleep_time 7200 30)%Q /\ (safe_sleep_time 7200 30 <= 30)%Q.
Proof.
  destruct (safe_sleep_time_bounds 7200 30) as (Hle & Hpos & _).
  assert (H : (0 < 30)%Q) by reflexivity.
  split; [ exact H | ]. split; [ exact (Hpos H) | exact Hle ].
Defined.

Lemma sleep_ok (d : Q) (w : world) :
  (0 <= d)%Q -> outcome_of (sleep d w) = Ok tt.
Proof.
  intros H. unfold sleep, outcome_of. run.
  apply Qltb_ge in H. rewrite H. cbn. now destruct (future w).
Qed.

Lemma loop_iteration_returns (w : world) (last : Q) :
  exists r, outcome_of (loop_iteration last w) = Ok r.
Proof.
  unfold loop_iteration, try_except, outcome_of.
  match goal with
  | |- context [match ?m w with _ => _ end] => destruct (m w) as [[r | e] v]
  end.
  - now exists r.
  - exists last. run.
    match goal with
    | |- context [sleep 5 ?W] =>
        pose proof (sleep_ok 5 W ltac:(discriminate)) as Hs;
        unfold outcome_of in Hs; destruct (sleep 5 W) as [o v']
    end.
    cbn in Hs. now subst o.
Qed.

Lemma loop_while_returns (fuel : nat) (w : world) (last : Q) :
  outcome_of (loop_while fuel last w) = Ok tt.
Proof.
  revert w last. induction fuel as [ | n IH]; intros w last; [ reflexivity | ].
  cbn [loop_while]. run. destruct (running (self w)); [ | reflexivity ].
  destruct (loop_iteration_returns w last) as (r & Hr).
  unfold outcome_of in Hr.
  destruct (loop_iteration last w) as [o v]. cbn in Hr. subst o. apply IH.
Qed.

Lemma calculate_depends (v w : world) :
  schedule_config (self v) = schedule_config (self w) -> clock v = clock w ->
  outcome_of (_calculate_next_run_time v) = outcome_of (_calculate_next_run_time w).
Proof.
  intros Hs Hc. unfold _calculate_next_run_time, outcome_of. run.
  rewrite Hs. destruct (schedule_config (self w)) as [sc | ]; [ | reflexivity ].
  cbn. destruct (truthy sc); [ | reflexivity ]. cbn.
  destruct (py_get sc "enabled" (VBool false)) as [en | ]; [ | reflexivity ].
  cbn. destruct (truthy en); [ | reflexivity ]. cbn.
  destruct (py_getitem sc "hour") as [hour | ]; [ | reflexivity ].
  destruct (py_getitem sc "minute") as [minute | ]; [ | reflexivity ].
  destruct (py_index hour) as [h | ]; [ | reflexivity ].
  destruct (py_index minute) as [m | ]; [ | reflexivity ].
  rewrite Hc. destruct (dt_replace_time (clock w) h m 0 0); reflexivity.
Qed.

Lemma calculate_run (v : world) :
  _calculate_next_run_time v = (outcome_of (_calculate_next_run_time v), v).
Proof.
  pose proof (calculate_pure v) as Hp. unfold world_of, unchanged, outcome_of in *.
  destruct (_calculate_next_run_time v) as [r v']. cbn in *. now subst v'.
Qed.

Lemma schedule_next_run_no_sleep (w : world) :
  count is_sleep (trace (world_of (_schedule_next_run w)))
  = count is_sleep (trace w).
Proof.
  unfold _schedule_next_run, world_of. run.
  destruct (timer (self w)) as [tid | ]; unfold timer_cancel; cbn;
    match goal with
    | |- context [_calculate_next_run_time ?W] =>
        rewrite (calculate_run W);
        destruct (outcome_of (_calculate_next_run_time W)) as [t | e]
    end; cbn;
    try (destruct (time_set t); cbn;
         [ match goal with
           | |- context [_get_next_run_delay ?W] =>
               rewrite (get_next_run_delay_run W)
           end; cbn | ]);
    unfold count; rewrite ?List.filter_app, ?length_app; cbn; lia.
Qed.

Lemma combined_loop_run (w : world) (fuel : nat) :
  let w0 := with_trace (trace w ++ [EvLog INFO "scheduling and monitoring thread started"]) w in
  combined_loop fuel w
  = match _schedule_next_run w0 with
    | (Ok _, w1) => loop_while fuel (timestamp (clock w1)) w1
    | (Raise e, w1) => (Raise e, w1)
    end.
Proof.
  cbv zeta. unfold combined_loop. run.
  destruct (_schedule_next_run _) as [[[] | e] w1]; reflexivity.
Qed.

(** X10. The [try] of [combined_loop] covers the body of its [while]
    and nothing before it. So no iteration raises, whatever happens in
    it, and neither does any number of them; but the loop as a whole
    raises exactly what the schedule computation raises when the loop is
    entered (a missing or impossible hour or minute), and then the loop
    thread ends at once: it has not slept, no timer is armed for the
    object, and [running] is still what it was. *)
Theorem combined_loop_exceptions (w : world) (fuel : nat) :
  (forall last, exists r, outcome_of (loop_iteration last w) = Ok r) /\
  (forall last, outcome_of (loop_while fuel last w) = Ok tt) /\
  outcome_of (combined_loop fuel w)
  = match outcome_of (_calculate_next_run_time w) with
    | Ok _ => Ok tt
    | Raise e => Raise e
    end /\
  (forall e, outcome_of (_calculate_next_run_time w) = Raise e ->
     let w' := world_of (combined_loop fuel w) in
     running (self w') = running (self w) /\
     count is_sleep (trace w') = count is_sleep (trace w) /\
     count is_timer_start (trace w') = count is_timer_start (trace w) /\
     timer (self w') = None /\
     armed w' = disarm (timer (self w)) (armed w)).
Proof.
  split; [ intros last; apply loop_iteration_returns | ].
  split; [ intros last; apply loop_while_returns | ].
  set (w0 := with_trace (trace w ++ [EvLog INFO "scheduling and monitoring thread started"]) w).
  pose proof (combined_loop_run w fuel) as Hrun. cbv zeta in Hrun. fold w0 in Hrun.
  pose proof (schedule_next_run_cases w0) as Hcases. cbv zeta in Hcases.
  rewrite (calculate_depends w0 w eq_refl eq_refl) in Hcases.
  pose proof (frame_schedule_next_run w0) as Hframe.
  pose proof (quiet_schedule_next_run w0) as Hquiet.
  unfold world_of, outcome_of in Hcases, Hframe, Hquiet |- *.
  rewrite Hrun. clear Hrun.
  destruct (_schedule_next_run w0) as [[[] | e0] w1] eqn:Hrun'; cbn [fst snd] in *;
    destruct (_calculate_next_run_time w).1 as [t | e1].
  - split; [ apply (loop_while_returns fuel w1) | intros e; discriminate ].
  - destruct Hcases as (Hc & _). discriminate.
  - destruct Hcases as (Hc & _). discriminate.
  - destruct Hcases as (Hc & Hnrt & Htimer & Harmed & Hcount).
    split; [ exact Hc | ].
    intros e He. destruct Hframe as ((_ & _ & _ & _ & Hrunning & _) & _).
    split; [ exact Hrunning | ].
    split.
    { pose proof (schedule_next_run_no_sleep w0) as Hsl.
      unfold world_of in Hsl. rewrite Hrun' in Hsl. cbn [snd] in Hsl.
      rewrite Hsl. subst w0. cbn. unfold count.
      rewrite List.filter_app, length_app. cbn. lia. }
    split.
    { rewrite Hcount. subst w0. cbn. unfold count.
      rewrite List.filter_app, length_app. cbn. lia. }
    split; assumption.
Qed.

Lemma combined_loop_exceptions_witness :
  outcome_of (_calculate_next_run_time bad_start_world) = Raise ValueError /\
  outcome_of (combined_loop 3 bad_start_world) = Raise ValueError /\
  running (self (world_of (combined_loop 3 bad_start_world))) = true.
Proof.
  assert (H : outcome_of (_calculate_next_run_time bad_start_world) = Raise ValueError)
    by (vm_compute; reflexivity).
  destruct (combined_loop_exceptions bad_start_world 3) as (_ & _ & Hout & Hfail).
  destruct (Hfail ValueError H) as (Hrun & _).
  split; [ exact H | ]. split.
  - rewrite Hout, H. reflexivity.
  - rewrite Hrun. vm_compute. reflexivity.
Defined.

Lemma sleep_run (d : Q) (w : world) :
  (0 <= d)%Q -> sleep d w = (Ok tt, world_of (sleep d w)).
Proof.
  intros H. pose proof (sleep_ok d w H) as Hs. unfold outcome_of, world_of in *.
  destruct (sleep d w) as [o v]. cbn in *. now subst o.
Qed.

Lemma sleep_frame (d : Q) (w : world) :
  let w' := world_of (sleep d w) in
  self w' = self w /\ armed w' = armed w /\ alive w' = alive w /\
  trace w' = trace w ++ [EvSleep d].
Proof.
  unfold sleep, world_of. run. destruct (Qltb d 0); cbn; [ now repeat split | ].
  destruct (future w); now repeat split.
Qed.

(** X11. How often the loop polls the configuration file. With a check
    interval that is not negative, an iteration sleeps once, which
    changes nothing of the object or of its timers, and then reads the
    clock: when at least the check interval has gone by since the last
    poll it polls the file and the time just read becomes the time of
    the last poll; otherwise it does nothing more and the time of the
    last poll stays. *)
Theorem loop_iteration_polls (w : world) (last : Q) :
  let i := config_check_interval (self w) in
  let ws := after_sleep w in
  let now := timestamp (clock ws) in
  (0 <= i)%Q ->
  (self ws = self w /\ armed ws = armed w /\
   trace ws = trace w ++ [EvSleep (safe_sleep_time (next_run_delay w) i)]) /\
  ((i <= now - last)%Q ->
     loop_iteration last w = (Ok now, world_of (check_config_changes ws))) /\
  ((now - last < i)%Q -> loop_iteration last w = (Ok last, ws)).
Proof.
  intros i ws now Hi.
  destruct (sleep_frame (safe_sleep_time (next_run_delay w) i) w)
    as (Hself & Harmed & _ & Htrace).
  change (world_of (sleep (safe_sleep_time (next_run_delay w) i) w))
    with ws in Hself, Harmed, Htrace.
  split; [ now repeat split | ].
  assert (Hrun : forall (k : M Q) (h : exn -> M Q),
            try_except
              (d ← _get_next_run_delay; a ← get_self;
               sleep (safe_sleep_time d (config_check_interval a));; k) h w
            = try_except k h ws).
  { intros k h. unfold try_except at 1. unfold mbind at 1, M_bind at 1.
    rewrite get_next_run_delay_run. run.
    rewrite (sleep_run _ w (proj2 (proj2 (safe_sleep_bounds _ _)) Hi)).
    reflexivity. }
  unfold loop_iteration. rewrite Hrun. unfold try_except. run.
  rewrite Hself. fold i now.
  split; intros H.
  - apply Qleb_le in H. rewrite H.
    pose proof (check_returns ws) as Hc. unfold outcome_of, world_of in *.
    destruct (check_config_changes ws) as [o v]. cbn in *. now subst o.
  - apply Qleb_gt in H. now rewrite H.
Qed.

Lemma loop_iteration_polls_witness :
  (0 <= config_check_interval (self armed_world))%Q /\
  (config_check_interval (self armed_world)
   <= timestamp (clock (after_sleep armed_world)) - 0)%Q /\
  loop_iteration 0 armed_world
  = (Ok (timestamp (clock (after_sleep armed_world))),
     world_of (check_config_changes (after_sleep armed_world))).
Proof.
  assert (Hi : (0 <= config_check_interval (self armed_world))%Q)
    by (vm_compute; discriminate).
  assert (Hdue : (config_check_interval (self armed_world)
                  <= timestamp (clock (after_sleep armed_world)) - 0)%Q)
    by (vm_compute; discriminate).
  destruct (loop_iteration_polls armed_world 0 Hi) as (_ & Hpoll & _).
  split; [ exact Hi | ]. split; [ exact Hdue | exact (Hpoll Hdue) ].
Defined.

(* ================================================================== *)
(** * The retrying click, when an attempt works *)
(* ================================================================== *)

Lemma retry_loop_first_click (step : Z -> step_outcome) (description : string)
    (max_retries : Z) (j : nat) :
  forall n k : nat,
  (j < n)%nat -> (Z.of_nat k + Z.of_nat n <= max_retries)%Z ->
  step (Z.of_nat (k + j)) = Clicked ->
  (forall a : nat, (k <= a < k + j)%nat -> step (Z.of_nat a) = Failed) ->
  let r := retry_loop step description max_retries (map Z.of_nat (seq k n)) in
  fst r = true /\
  List.filter is_step (snd r) = map EvStep (map Z.of_nat (seq k (S j))) /\
  List.filter is_error (snd r) = [] /\
  last (snd r) = Some (EvLog DEBUG description).
Proof.
  induction j as [ | j IH ]; intros n k Hj Hn Hclick Hfail;
    (destruct n as [ | n ]; [ lia | ]); cbn [seq map retry_loop].
  - rewrite Nat.add_0_r in Hclick. rewrite Hclick. cbn. now repeat split.
  - rewrite (Hfail k) by lia.
    destruct (Z.ltb_spec (Z.of_nat k) (max_retries - 1)) as [Hlt | Hge]; [ | lia ].
    destruct (IH n (S k)) as (Hb & Hs & He & Hl); [ lia | lia | | | ].
    + now replace (S k + j)%nat with (k + S j)%nat by lia.
    + intros a Ha. apply Hfail. lia.
    + destruct (retry_loop step description max_retries
                  (map Z.of_nat (seq (S k) n))) as [b evs].
      cbn [fst snd] in *. split; [ assumption | ].
      split; [ cbn; now rewrite Hs | ]. split; [ cbn; exact He | ].
      destruct evs as [ | e evs ]; [ discriminate Hl | ]. cbn [last]. exact Hl.
Qed.

Lemma retry_loop_true (step : Z -> step_outcome) (description : string)
    (max_retries : Z) (n : nat) :
  forall k : nat,
  fst (retry_loop step description max_retries (map Z.of_nat (seq k n))) = true ->
  exists j : nat, (j < n)%nat /\ step (Z.of_nat (k + j)) = Clicked /\
    forall a : nat, (k <= a < k + j)%nat -> step (Z.of_nat a) = Failed.
Proof.
  induction n as [ | n IH ]; intros k; cbn [seq map retry_loop].
  - discriminate.
  - destruct (step (Z.of_nat k)) eqn:Hk.
    + intros _. exists 0%nat. rewrite Nat.add_0_r.
      split; [ lia | ]. split; [ assumption | intros a Ha; lia ].
    + destruct (Z.of_nat k <? max_retries - 1)%Z; [ | discriminate ].
      specialize (IH (S k)).
      destruct (retry_loop step description max_retries
                  (map Z.of_nat (seq (S k) n))) as [b evs].
      cbn [fst]. intros Hb. destruct (IH Hb) as (j & Hj & Hc & Hf).
      exists (S j). split; [ lia | ].
      split; [ now replace (k + S j)%nat with (S k + j)%nat by lia | ].
      intros a Ha. destruct (Nat.eq_dec a k) as [-> | Hne]; [ assumption | ].
      apply Hf. lia.
Qed.

(** X13. [wait_and_click_with_retry] returns True exactly when some
    attempt below max_retries works after every earlier one has failed.
    It then stops at that attempt k: the step has been tried at the
    attempts 0, ..., k and no more, no error is logged, and the last log
    entry is the description, at DEBUG level. *)
Theorem wait_and_click_with_retry_success (step : Z -> step_outcome)
    (description : string) (max_retries : Z) :
  let r := wait_and_click_with_retry step description max_retries in
  (fst r = true ->
   exists k, (0 <= k < max_retries)%Z /\ step k = Clicked /\
     forall a, (0 <= a < k)%Z -> step a = Failed) /\
  (forall k, (0 <= k < max_retries)%Z -> step k = Clicked ->
     (forall a, (0 <= a < k)%Z -> step a = Failed) ->
     fst r = true /\
     List.filter is_step (snd r) = map EvStep (range (k + 1)) /\
     List.filter is_error (snd r) = [] /\
     last (snd r) = Some (EvLog DEBUG description)).
Proof.
  unfold wait_and_click_with_retry, range. cbn zeta. split.
  - intros Hb. destruct (retry_loop_true _ _ _ _ _ Hb) as (j & Hj & Hc & Hf).
    exists (Z.of_nat j). cbn in Hc. split; [ lia | ]. split; [ assumption | ].
    intros a Ha. rewrite <- (Z2Nat.id a) by lia. apply Hf. lia.
  - intros k Hk Hc Hf.
    replace (Z.to_nat (k + 1)) with (S (Z.to_nat k)) by lia.
    apply retry_loop_first_click.
    + lia.
    + lia.
    + cbn. now rewrite Z2Nat.id by lia.
    + intros a Ha. apply Hf. lia.
Qed.

Lemma wait_and_click_with_retry_success_witness :
  let step := fun a => if (a =? 0)%Z then Failed else Clicked in
  (0 <= 1 < 3)%Z /\ step 1%Z = Clicked /\
  (forall a, (0 <= a < 1)%Z -> step a = Failed) /\
  fst (wait_and_click_with_retry step "click submit" 3) = true /\
  List.filter is_step (snd (wait_and_click_with_retry step "click submit" 3))
  = [EvStep 0; EvStep 1].
Proof.
  intros step.
  assert (H1 : (0 <= 1 < 3)%Z) by lia.
  assert (H2 : step 1%Z = Clicked) by reflexivity.
  assert (H3 : forall a, (0 <= a < 1)%Z -> step a = Failed).
  { intros a Ha. assert (a = 0%Z) by lia. subst a. reflexivity. }
  destruct (wait_and_click_with_retry_success step "click submit" 3)
    as (_ & Hfirst).
  destruct (Hfirst 1%Z H1 H2 H3) as (Hb & Hs & _).
  repeat split; try assumption; lia.
Defined.

(* ================================================================== *)
(** * What a run leaves behind *)
(* ================================================================== *)

Lemma fill_health_form_run (o : outcome) (w : world) :
  let w' := world_of (fill_health_form o w) in
  outcome_of (fill_health_form o w)
  = match o with Returns b => Ok b | Escapes => Raise ActuatorError end /\
  self w' = set_browser_config None (set_user_info None (self w)) /\
  fs w' = fs w /\ clock w' = clock w /\ future w' = future w /\
  armed w' = armed w /\ alive w' = alive w /\
  trace w' = trace w ++ [EvLog INFO "starting the health check-in"; EvActuate].
Proof.
  unfold fill_health_form, try_finally, _unload_non_essential_modules,
    world_of, outcome_of.
  destruct o as [b | ]; run; rewrite <- app_assoc; now repeat split.
Qed.

Lemma timer_callback_unloads (o : outcome) (w : world) :
  let w' := world_of (_timer_callback o w) in
  user_info (self w') = None /\ browser_config (self w') = None.
Proof.
  cbv zeta. rewrite timer_callback_run.
  destruct (after_submission_frame o w) as (Hself & _).
  set (w1 := after_submission o w) in *.
  assert (H1 : user_info (self w1) = None /\ browser_config (self w1) = None)
    by (rewrite Hself; split; reflexivity).
  destruct (running (self w1)); [ | exact H1 ].
  destruct (frame_schedule_next_run w1) as ((_ & _ & _ & _ & _ & _ & Hu & _ & Hb) & _).
  rewrite Hu, Hb. exact H1.
Qed.

(** X15. What a run leaves behind. [run_once] invokes the actuator once
    and, however the submission ends, deletes [user_info] and
    [browser_config] from the object and changes nothing else: not the
    loaded configuration, the schedule, the timers or the running flag.
    The same holds after [_timer_callback], which also reschedules. So a
    [setup_driver] that follows a run directly raises AttributeError,
    from the read of [browser_config] that precedes its [try]; after a
    [setup_automation] in between, which reads the sections back from
    the loaded dictionary, it returns again. *)
Theorem run_once_unloads (o : outcome) (w : world) (launched : bool) :
  let after_run := world_of (run_once o w) in
  let after_timer := world_of (_timer_callback o w) in
  (outcome_of (run_once o w)
   = match o with Returns b => Ok b | Escapes => Raise ActuatorError end /\
   self after_run = set_browser_config None (set_user_info None (self w)) /\
   fs after_run = fs w /\ clock after_run = clock w /\
   armed after_run = armed w /\ alive after_run = alive w /\
   count is_actuate (trace after_run) = S (count is_actuate (trace w))) /\
  (user_info (self after_timer) = None /\
   browser_config (self after_timer) = None) /\
  setup_driver launched after_run = (Raise AttributeError, after_run) /\
  setup_driver launched after_timer = (Raise AttributeError, after_timer) /\
  (forall d b, config (self w) = Some (VDict d) ->
     section_of d "browser" = VDict b ->
     let again := world_of (setup_automation after_run) in
     setup_automation after_run = (Ok tt, again) /\
     user_info (self again) = Some (section_of d "user_info") /\
     browser_config (self again) = Some (VDict b) /\
     outcome_of (setup_driver launched again) = Ok launched).
Proof.
  intros after_run after_timer.
  destruct (fill_health_form_run o w)
    as (Hout & Hself & Hfs & Hclock & _ & Harmed & Halive & Htrace).
  fold (run_once o) in Hout, Hself, Hfs, Hclock, Harmed, Halive, Htrace.
  change (world_of (run_once o w)) with after_run
    in Hself, Hfs, Hclock, Harmed, Halive, Htrace.
  destruct (timer_callback_unloads o w) as (Hu & Hb).
  change (world_of (_timer_callback o w)) with after_timer in Hu, Hb.
  split; [ | split; [ now split | split; [ | split ] ] ].
  - repeat split; try assumption.
    rewrite Htrace. unfold count. rewrite List.filter_app, length_app. cbn. lia.
  - unfold setup_driver. run. rewrite Hself. reflexivity.
  - unfold setup_driver. run. rewrite Hb. reflexivity.
  - intros d b Hc Hsec again.
    assert (Hc' : config (self after_run) = Some (VDict d))
      by (rewrite Hself; exact Hc).
    pose proof (setup_from_config after_run d Hc') as Hrun.
    subst again. rewrite Hrun. cbn [world_of snd].
    split; [ reflexivity | ]. split; [ reflexivity | ].
    split; [ cbn; now rewrite Hsec | ].
    unfold setup_driver, outcome_of. run. rewrite Hsec. cbn.
    now destruct launched.
Qed.

Lemma run_once_unloads_witness :
  config (self loaded_world) = Some (config_of true 10 30) /\
  section_of (<["schedule" := VDict (schedule_of true 10 30)]> ∅) "browser"
  = VDict ∅ /\
  outcome_of (setup_driver true
                (world_of (setup_automation
                             (world_of (run_once (Returns true) loaded_world)))))
  = Ok true.
Proof.
  assert (H1 : config (self loaded_world) = Some (config_of true 10 30))
    by (vm_compute; reflexivity).
  assert (H2 : section_of (<["schedule" := VDict (schedule_of true 10 30)]> ∅)
                 "browser" = VDict ∅) by (vm_compute; reflexivity).
  destruct (run_once_unloads (Returns true) loaded_world true)
    as (_ & _ & _ & _ & Hagain).
  destruct (Hagain _ _ H1 H2) as (_ & _ & _ & Hd).
  split; [ exact H1 | ]. split; [ exact H2 | exact Hd ].
Defined.

(* ================================================================== *)
(** * Saving the configuration *)
(* ================================================================== *)

Lemma save_config_run (w : world) :
  save_config w
  = match config (self w) with
    | Some c => (Ok tt, with_fs (Some (mkfile (timestamp (clock w)) (Some c))) w)
    | None => (Raise AttributeError,
               with_fs (Some (mkfile (timestamp (clock w)) None)) w)
    end.
Proof.
  unfold save_config, write_file. run. now destruct (config (self w)).
Qed.



(* ================================================================== *)
(** * The browser-driven steps *)
(* ================================================================== *)

Lemma only_logs_refl (w : world) : only_logs w w [].
Proof. unfold only_logs. now rewrite app_nil_r. Qed.

Lemma only_logs_trans (a b c : world) (e1 e2 : list event) :
  only_logs a b e1 -> only_logs b c e2 -> only_logs a c (e1 ++ e2).
Proof.
  intros (H1 & H2 & H3 & H4) (K1 & K2 & K3 & K4). unfold only_logs.
  rewrite K1, K2, K3, K4, H4, app_assoc. now repeat split.
Qed.

Lemma only_logs_sleep (d : Q) (w : world) :
  only_logs w (world_of (sleep d w)) [EvSleep d].
Proof. exact (sleep_frame d w). Qed.

Lemma count_app (p : event -> bool) (l1 l2 : list event) :
  count p (l1 ++ l2) = (count p l1 + count p l2)%nat.
Proof. unfold count. now rewrite List.filter_app, length_app. Qed.

Lemma retry_twice (step : Z -> step_outcome) (description : string) :
  let r := wait_and_click_with_retry step description default_max_retries in
  fst r = match step 0%Z with
          | Clicked => true
          | Failed => match step 1%Z with Clicked => true | Failed => false end
          end /\
  count is_sleep (snd r) = 0%nat /\
  count is_warning (snd r) = 0%nat /\
  count is_info (snd r) = 0%nat /\
  count is_error (snd r) = (if fst r then 0 else 1)%nat.
Proof.
  unfold wait_and_click_with_retry, default_max_retries, range. cbv zeta.
  change (map Z.of_nat (seq 0 (Z.to_nat 2))) with [0%Z; 1%Z].
  cbn [retry_loop].
  destruct (step 0%Z); [ now repeat split | ].
  change (0 <? 2 - 1)%Z with true. change (1 <? 2 - 1)%Z with false. cbv iota.
  destruct (step 1%Z); now repeat split.
Qed.

(** One selector: the value tells whether the click worked; the step
    sleeps once when the element is located. *)
Lemma find_and_click_one (description : string) (p : probe) (w : world) :
  let m := try_except
        ((if located p then mret tt else raise ActuatorError);;
         sleep (1 # 2);;
         let '(b, evs) :=
           wait_and_click_with_retry (click p) description default_max_retries in
         emit_all evs;;
         mret b)
        (fun _ => mret false) in
  exists evs,
    outcome_of (m w) = Ok (works p) /\
    only_logs w (world_of (m w)) evs /\
    count is_sleep evs = (if located p then 1 else 0)%nat /\
    count is_warning evs = 0%nat /\
    count is_info evs = 0%nat /\
    count is_error evs = (if located p && negb (works p) then 1 else 0)%nat.
Proof.
  cbv zeta. unfold works, clicks, try_except.
  destruct (located p); run.
  - rewrite (sleep_run (1 # 2) w) by discriminate.
    pose proof (only_logs_sleep (1 # 2) w) as Hs.
    set (w1 := world_of (sleep (1 # 2) w)) in *.
    destruct (retry_twice (click p) description) as (Hb & Hsl & Hwa & Hin & Her).
    destruct (wait_and_click_with_retry (click p) description default_max_retries)
      as [b evs]. cbn [fst snd] in *.
    unfold emit_all. cbn. exists (EvSleep (1 # 2) :: evs).
    split; [ now rewrite Hb | ].
    split.
    { apply (only_logs_trans w w1 _ [EvSleep (1 # 2)] evs Hs).
      now repeat split. }
    rewrite !count_cons, Hsl, Hwa, Hin, Her, <- Hb. cbn.
    repeat split. now destruct b.
  - exists []. split; [ reflexivity | ]. split; [ apply only_logs_refl | ].
    now repeat split.
Qed.

Lemma find_and_click_loop_spec (description : string) (probes : list probe) :
  forall w : world,
  let r := find_and_click_loop description probes w in
  exists evs,
    outcome_of r = Ok (existsb works probes) /\
    only_logs w (world_of r) evs /\
    count is_sleep evs = length (List.filter located (tried probes)) /\
    count is_warning evs = 0%nat /\
    count is_info evs = 0%nat /\
    count is_error evs
    = length (List.filter (fun p => located p && negb (works p)) (tried probes)).
Proof.
  induction probes as [ | p rest IH ]; intros w; cbv zeta.
  - exists []. split; [ reflexivity | ]. split; [ apply only_logs_refl | ].
    now repeat split.
  - cbn [find_and_click_loop existsb tried].
    destruct (find_and_click_one description p w)
      as (evs1 & Hout & Hlogs & Hsl & Hwa & Hin & Her).
    cbv zeta in Hout, Hlogs. unfold outcome_of, world_of in Hout, Hlogs.
    match type of Hout with
    | (?t w).1 = _ =>
        destruct (t w) as [o w1] eqn:Hrun; cbn [fst snd] in Hout, Hlogs; subst o;
        rewrite (bind_ok t _ w w1 _ Hrun)
    end.
    destruct (works p) eqn:Hw; cbn [orb].
    + exists evs1. split; [ reflexivity | ]. split; [ exact Hlogs | ].
      assert (Hl : located p = true)
        by (unfold works in Hw; now apply andb_prop in Hw as (Hl & _)).
      rewrite Hl in *. cbn. rewrite Hl, Hw. cbn. now repeat split.
    + destruct (IH w1) as (evs2 & Hout2 & Hlogs2 & Hsl2 & Hwa2 & Hin2 & Her2).
      exists (evs1 ++ evs2). split; [ exact Hout2 | ].
      split; [ exact (only_logs_trans _ _ _ _ _ Hlogs Hlogs2) | ].
      rewrite !count_app, Hsl, Hsl2, Hwa, Hwa2, Hin, Hin2, Her, Her2. cbn [List.filter].
      rewrite Hw. destruct (located p); cbn; now repeat split.
Qed.

Lemma tried_all (probes : list probe) :
  existsb works probes = false -> tried probes = probes.
Proof.
  induction probes as [ | p rest IH ]; [ reflexivity | ]. cbn.
  destruct (works p); [ discriminate | ]. intros H. now rewrite IH.
Qed.

Lemma find_and_click_element_run (description : string) (probes : list probe)
    (w : world) :
  let r := find_and_click_element description probes w in
  exists evs,
    outcome_of r = Ok (existsb works probes) /\
    only_logs w (world_of r) evs /\
    count is_sleep evs = length (List.filter located (tried probes)) /\
    count is_error evs
    = length (List.filter (fun p => located p && negb (works p)) (tried probes)) /\
    count is_warning evs = (if existsb works probes then 0 else 1)%nat /\
    count is_info evs = 0%nat /\
    (existsb works probes = false ->
       last evs = Some (EvLog WARNING ("element not found: " +:+ description))).
Proof.
  cbv zeta. unfold find_and_click_element, try_except.
  destruct (find_and_click_loop_spec description probes w)
    as (evs & Hout & Hlogs & Hsl & Hwa & Hin & Her).
  cbv zeta in Hout, Hlogs. unfold outcome_of, world_of in Hout, Hlogs.
  destruct (find_and_click_loop description probes w) as [o w1] eqn:Hrun.
  cbn [fst snd] in Hout, Hlogs. subst o.
  rewrite (bind_ok _ _ w w1 _ Hrun).
  destruct (existsb works probes) eqn:Hex.
  - exists evs. cbn.
    split; [ reflexivity | ]. split; [ exact Hlogs | ].
    split; [ exact Hsl | ]. split; [ exact Her | ]. split; [ exact Hwa | ].
    split; [ exact Hin | discriminate ].
  - run. exists (evs ++ [EvLog WARNING ("element not found: " +:+ description)]).
    split; [ reflexivity | ].
    split.
    { apply (only_logs_trans w w1 _ evs _ Hlogs). now repeat split. }
    rewrite !count_app, Hsl, Hwa, Hin, Her. cbn.
    split; [ lia | ]. split; [ lia | ]. split; [ lia | ].
    split; [ reflexivity | intros _; apply last_snoc ].
Qed.

Lemma works_spec (p : probe) :
  works p = true <->
  located p = true /\ (click p 0%Z = Clicked \/ click p 1%Z = Clicked).
Proof.
  unfold works, clicks. destruct (located p); cbn.
  - destruct (click p 0%Z); [ intuition | ].
    destruct (click p 1%Z); intuition discriminate.
  - intuition discriminate.
Qed.

(** X17. [find_and_click_element] never raises, and touches nothing of
    the object, the timers or the threads. It returns True exactly when
    the page has, for one of the selectors, an element that can be
    clicked and on which the click works at the first or the second
    attempt. It goes through the selectors in order up to the first such
    one: it sleeps half a second before the clicks on each element it
    finds, logs one error for each found element whose two clicks fail,
    and when it returns False it has gone through all selectors and a
    warning is its last log entry, the only one. *)
Theorem find_and_click_element_spec (description : string)
    (probes : list probe) (w : world) :
  let r := find_and_click_element description probes w in
  (outcome_of r = Ok true \/ outcome_of r = Ok false) /\
  (outcome_of r = Ok true <->
   exists p, In p probes /\ located p = true /\
     (click p 0%Z = Clicked \/ click p 1%Z = Clicked)) /\
  exists evs,
    only_logs w (world_of r) evs /\
    count is_sleep evs = length (List.filter located (tried probes)) /\
    count is_error evs
    = length (List.filter (fun p => located p && negb (works p)) (tried probes)) /\
    (outcome_of r = Ok true -> count is_warning evs = 0%nat) /\
    (outcome_of r = Ok false ->
       tried probes = probes /\
       count is_warning evs = 1%nat /\
       last evs = Some (EvLog WARNING ("element not found: " +:+ description))).
Proof.
  cbv zeta.
  destruct (find_and_click_element_run description probes w)
    as (evs & Hout & Hlogs & Hsl & Her & Hwa & _ & Hlast).
  cbv zeta in Hout, Hlogs. rewrite Hout.
  split; [ destruct (existsb works probes); auto | ].
  split.
  - split.
    + intros H. injection H as H. apply existsb_exists in H as (p & Hin & Hp).
      exists p. split; [ exact Hin | ]. now apply works_spec.
    + intros (p & Hin & Hp). f_equal. apply existsb_exists.
      exists p. split; [ exact Hin | ]. now apply works_spec.
  - exists evs. split; [ exact Hlogs | ]. split; [ exact Hsl | ].
    split; [ exact Her | ].
    split; intros H; injection H as H; rewrite H in Hwa.
    + exact Hwa.
    + split; [ now apply tried_all | ]. split; [ exact Hwa | now apply Hlast ].
Qed.

Lemma find_and_click_element_spec_witness :
  let found := mkprobe true (fun a => if (a =? 0)%Z then Failed else Clicked) in
  let absent := mkprobe false (fun _ => Clicked) in
  (exists p, In p [absent; found; absent] /\ located p = true /\
     (click p 0%Z = Clicked \/ click p 1%Z = Clicked)) /\
  outcome_of (find_and_click_element "click submit" [absent; found; absent]
                armed_world) = Ok true.
Proof.
  intros found absent.
  assert (H : exists p, In p [absent; found; absent] /\ located p = true /\
                (click p 0%Z = Clicked \/ click p 1%Z = Clicked)).
  { exists found. split; [ right; left; reflexivity | ].
    split; [ reflexivity | right; reflexivity ]. }
  split; [ exact H | ].
  exact (proj2 (proj1 (proj2 (find_and_click_element_spec "click submit"
                                [absent; found; absent] armed_world))) H).
Defined.

Lemma check_submission_result_run (page : option bool) (w : world) :
  exists msg,
    check_submission_result page w
    = (Ok tt, with_trace (trace w ++ [EvLog INFO msg]) w).
Proof.
  unfold check_submission_result, try_except.
  destruct page as [[] | ]; run; eexists; reflexivity.
Qed.

Lemma only_logs_log (l : level) (m : string) (w : world) :
  only_logs w (with_trace (trace w ++ [EvLog l m]) w) [EvLog l m].
Proof. now repeat split. Qed.

(** X18. [handle_location_and_submit] never raises and touches nothing
    of the object, the timers or the threads. Its result is that of the
    click on the submit button alone: True exactly when one of the three
    submit selectors gives an element on which a click works, whether or
    not the location button was clicked and whatever the page shows
    afterwards. When the location button is not clicked it logs a
    warning and goes on to submit. When it returns True it has logged
    one INFO entry, last; when it returns False, none, and its last
    entry is the error that the submit button was not found. *)
Theorem handle_location_and_submit_spec (l1 l2 l3 s1 s2 s3 : probe)
    (page : option bool) (w : world) :
  let r := handle_location_and_submit l1 l2 l3 s1 s2 s3 page w in
  let submitted := existsb works [s1; s2; s3] in
  outcome_of r = Ok submitted /\
  exists evs,
    only_logs w (world_of r) evs /\
    (existsb works [l1; l2; l3] = false ->
       In (EvLog WARNING "location button not clicked, trying to submit") evs) /\
    (submitted = true ->
       count is_info evs = 1%nat /\ exists msg, last evs = Some (EvLog INFO msg)) /\
    (submitted = false ->
       count is_info evs = 0%nat /\
       last evs = Some (EvLog ERROR "submit button not found")).
Proof.
  cbv zeta. unfold handle_location_and_submit.
  destruct (find_and_click_element_run "click get location" [l1; l2; l3] w)
    as (e1 & Ho1 & Hl1 & _ & _ & _ & Hi1 & _).
  cbv zeta in Ho1, Hl1. unfold outcome_of, world_of in Ho1, Hl1.
  destruct (find_and_click_element "click get location" [l1; l2; l3] w)
    as [o1 w1] eqn:Hrun1. cbn [fst snd] in Ho1, Hl1. subst o1.
  rewrite (bind_ok _ _ w w1 _ Hrun1).
  set (loc := existsb works [l1; l2; l3]) in *.
  set (note := if loc then EvLog DEBUG "waiting for the location"
               else EvLog WARNING "location button not clicked, trying to submit").
  set (w2 := with_trace (trace w1 ++ [note]) w1).
  assert (Hrun2 : (if loc then log DEBUG "waiting for the location"
                   else log WARNING "location button not clicked, trying to submit") w1
                  = (Ok tt, w2)) by (subst w2 note; now destruct loc).
  rewrite (bind_ok _ _ w1 w2 _ Hrun2).
  assert (Hl2 : only_logs w1 w2 [note]) by now repeat split.
  destruct (find_and_click_element_run "click submit" [s1; s2; s3] w2)
    as (e3 & Ho3 & Hl3 & _ & _ & _ & Hi3 & _).
  cbv zeta in Ho3, Hl3. unfold outcome_of, world_of in Ho3, Hl3.
  destruct (find_and_click_element "click submit" [s1; s2; s3] w2)
    as [o3 w3] eqn:Hrun3. cbn [fst snd] in Ho3, Hl3. subst o3.
  rewrite (bind_ok _ _ w2 w3 _ Hrun3).
  pose proof (only_logs_trans _ _ _ _ _ (only_logs_trans _ _ _ _ _ Hl1 Hl2) Hl3)
    as Hl.
  assert (Hnote : loc = false ->
            In (EvLog WARNING "location button not clicked, trying to submit")
               ((e1 ++ [note]) ++ e3)).
  { intros Hloc. subst note. rewrite Hloc. apply in_or_app. left.
    apply in_or_app. right. now left. }
  assert (Hinfo : count is_info ((e1 ++ [note]) ++ e3) = 0%nat).
  { rewrite !count_app, Hi1, Hi3. subst note. now destruct loc. }
  destruct (existsb works [s1; s2; s3]) eqn:Hsub.
  - run. destruct (check_submission_result_run page
                     (with_trace (trace w3 ++ [EvLog DEBUG "waiting for the submission"]) w3))
      as (msg & Hc).
    rewrite Hc. cbn. split; [ reflexivity | ].
    exists (((e1 ++ [note]) ++ e3)
            ++ [EvLog DEBUG "waiting for the submission"; EvLog INFO msg]).
    split.
    { apply (only_logs_trans _ _ _ _ _ Hl). repeat split.
      cbn. now rewrite <- app_assoc. }
    split; [ intros Hloc; apply in_or_app; left; now apply Hnote | ].
    split; [ intros _ | discriminate ].
    split; [ rewrite count_app, Hinfo; reflexivity | ].
    exists msg.
    change [EvLog DEBUG "waiting for the submission"; EvLog INFO msg]
      with ([EvLog DEBUG "waiting for the submission"] ++ [EvLog INFO msg]).
    rewrite app_assoc. apply last_snoc.
  - run. split; [ reflexivity | ].
    exists (((e1 ++ [note]) ++ e3) ++ [EvLog ERROR "submit button not found"]).
    split.
    { apply (only_logs_trans _ _ _ _ _ Hl). now repeat split. }
    split; [ intros Hloc; apply in_or_app; left; now apply Hnote | ].
    split; [ discriminate | intros _ ].
    split; [ rewrite count_app, Hinfo; reflexivity | apply last_snoc ].
Qed.

Lemma handle_location_and_submit_spec_witness :
  let found := mkprobe true (fun _ => Clicked) in
  let absent := mkprobe false (fun _ => Failed) in
  existsb works [absent; absent; absent] = false /\
  outcome_of (handle_location_and_submit absent absent absent absent found absent
                None armed_world) = Ok true.
Proof.
  intros found absent. split; [ reflexivity | ].
  exact (proj1 (handle_location_and_submit_spec absent absent absent
                  absent found absent None armed_world)).
Defined.

Lemma fits_sleep_int (n : Z) :
  fits_sleep (inject_Z n)
  = ((-9223372036 <=? n) && (n <=? 9223372036))%Z.
Proof.
  unfold fits_sleep.
  destruct (Z.leb_spec (-9223372036) n) as [Hlo | Hlo];
    destruct (Z.leb_spec n 9223372036) as [Hhi | Hhi]; cbn [andb].
  - apply andb_true_intro. split; apply Qleb_le;
      unfold Qle, Qmult, inject_Z; cbn; lia.
  - apply andb_false_intro2. apply Qleb_gt.
    unfold Qlt, Qmult, inject_Z; cbn; lia.
  - apply andb_false_intro1. apply Qleb_gt.
    unfold Qlt, Qmult, inject_Z; cbn; lia.
  - apply andb_false_intro1. apply Qleb_gt.
    unfold Qlt, Qmult, inject_Z; cbn; lia.
Qed.



(* ================================================================== *)
(** * The edge cases at concrete inputs *)
(* ================================================================== *)

Lemma start_all_or_nothing_witness :
  schedule_config (self disabled_world) = Some (VDict (schedule_of false 10 30)) /\
  schedule_of false 10 30 !! "enabled" = Some (VBool false) /\
  start_combined_thread disabled_world
  = (Ok tt,
     with_trace (trace disabled_world ++ [EvLog INFO "scheduled task not enabled"])
       disabled_world).
Proof.
  assert (H1 : schedule_config (self disabled_world)
               = Some (VDict (schedule_of false 10 30))) by reflexivity.
  assert (H2 : schedule_of false 10 30 !! "enabled" = Some (VBool false))
    by reflexivity.
  split; [ exact H1 | ]. split; [ exact H2 | ].
  exact (proj1 (proj2 (proj2 (start_all_or_nothing disabled_world)))
           _ _ H1 H2 eq_refl).
Defined.

Lemma stop_twice_witness :
  running (self disabled_world) = false /\
  world_of (stop_combined_thread true disabled_world)
  = with_trace
      (trace disabled_world
       ++ [EvLog INFO "about to stop the scheduling and monitoring thread"])
      disabled_world.
Proof.
  assert (H : running (self disabled_world) = false) by reflexivity.
  split; [ exact H | ].
  exact (proj1 (proj2 (proj2 (stop_twice disabled_world true true))) H).
Defined.

Lemma calculate_next_run_time_edges_witness :
  let sc := <["hour" := VInt 25]> (schedule_of true 10 30) in
  let sc' := <["hour" := VInt 2147483648]> (schedule_of true 10 30) in
  schedule_config (self bad_hour_world) = Some (VDict sc) /\
  sc !! "enabled" = Some (VBool true) /\
  sc !! "hour" = Some (VInt 25) /\ sc !! "minute" = Some (VInt 30) /\
  c_int 25 = true /\ c_int 30 = true /\
  ~ ((0 <= 25 <= 23)%Z /\ (0 <= 30 <= 59)%Z) /\
  outcome_of (_calculate_next_run_time bad_hour_world) = Raise ValueError /\
  schedule_config (self huge_hour_world) = Some (VDict sc') /\
  sc' !! "hour" = Some (VInt 2147483648) /\
  c_int 2147483648 = false /\
  outcome_of (_calculate_next_run_time huge_hour_world) = Raise OverflowError.
Proof.
  intros sc sc'.
  assert (H1 : schedule_config (self bad_hour_world) = Some (VDict sc))
    by reflexivity.
  assert (H2 : sc !! "enabled" = Some (VBool true)) by reflexivity.
  assert (H3 : sc !! "hour" = Some (VInt 25)) by reflexivity.
  assert (H4 : sc !! "minute" = Some (VInt 30)) by reflexivity.
  assert (H5 : ~ ((0 <= 25 <= 23)%Z /\ (0 <= 30 <= 59)%Z)) by lia.
  assert (H6 : c_int 25 = true) by reflexivity.
  assert (H7 : c_int 30 = true) by reflexivity.
  assert (K1 : schedule_config (self huge_hour_world) = Some (VDict sc'))
    by reflexivity.
  assert (K2 : sc' !! "enabled" = Some (VBool true)) by reflexivity.
  assert (K3 : sc' !! "hour" = Some (VInt 2147483648)) by reflexivity.
  assert (K4 : sc' !! "minute" = Some (VInt 30)) by reflexivity.
  assert (K5 : c_int 2147483648 = false) by reflexivity.
  repeat (split; [ assumption | ]).
  split.
  - destruct (calculate_next_run_time_edges bad_hour_world) as (_ & _ & Hsc).
    destruct (Hsc sc H1) as (_ & Hen).
    destruct (Hen _ H2) as (_ & Hon).
    destruct (Hon eq_refl) as (_ & _ & Hint).
    exact (proj2 (Hint 25%Z 30%Z H3 H4) H6 H7 H5).
  - repeat (split; [ assumption | ]).
    destruct (calculate_next_run_time_edges huge_hour_world) as (_ & _ & Hsc).
    destruct (Hsc sc' K1) as (_ & Hen).
    destruct (Hen _ K2) as (_ & Hon).
    destruct (Hon eq_refl) as (_ & _ & Hint).
    exact (proj1 (Hint 2147483648%Z 30%Z K3 K4) (or_introl K5)).
Defined.

Lemma setup_automation_spec_witness :
  config (self unloaded_world) = None /\
  fs unloaded_world = Some (mkfile 100 (Some (config_of true 10 30))) /\
  outcome_of (setup_automation unloaded_world) = Ok tt /\
  schedule_config (self (world_of (setup_automation unloaded_world)))
  = Some (VDict (schedule_of true 10 30)).
Proof.
  assert (H1 : config (self unloaded_world) = None) by reflexivity.
  assert (H2 : fs unloaded_world = Some (mkfile 100 (Some (config_of true 10 30))))
    by reflexivity.
  split; [ exact H1 | ]. split; [ exact H2 | ].
  destruct (setup_automation_spec unloaded_world) as (_ & _ & _ & Hload).
  destruct (Hload _ _ H1 H2 eq_refl) as (Hout & Hself).
  split; [ exact Hout | ]. rewrite Hself. reflexivity.
Defined.
